(** * Persistent storage silo: bring-up and sizing

    A shallow embedding of [bin/varnishd/storage/mgt_storage_persistent.c]
    (functions [smp_metrics] and [smp_mgt_init]) and the properties of the
    sizing derivation and of the bring-up control flow.

    Conventions.
    - C integers are mathematical integers ([Z]); where the program stores
      into a narrower object the wrap-around is written out
      ([to_unsigned], [to_uint64], [to_uintptr]).
    - Integer division by zero is a trap: it ends the run with
      [Div_by_zero].
    - The [double] computation of the aim point is taken over the real
      numbers: [exp] and [log] are the exact functions, the conversion back
      to [unsigned] discards the fraction.  Rounding of IEEE doubles is not
      represented.
    - Calls into the operating system and into other translation units are
      fields of the records [platform] and [world]; each call leaves an
      [event] in the trace of the run. *)

From Stdlib Require Import ZArith List String Bool Lia Reals Lra.
Import ListNotations.
Local Open Scope Z_scope.

(* ------------------------------------------------------------------ *)
(** * Machine integers *)

(** Conversion to [unsigned] (32 bits). *)
Definition to_unsigned (x : Z) : Z := x mod 2 ^ 32.

(** Conversion to [uint64_t]. *)
Definition to_uint64 (x : Z) : Z := x mod 2 ^ 64.

(* ------------------------------------------------------------------ *)
(** * The floating point expression of the aim point *)

(** Conversion of a [double] to an integer type: the fraction is
    discarded (truncation toward zero). *)
Definition Rtrunc (r : R) : Z :=
  if Rle_dec 0 r then Int_part r else - Int_part (- r).

(** [(unsigned) exp((log(a) + log(b)) * .5)], lines 121-122, with [log],
    the sum and [exp] taken exactly; [fp_exp_average] below is the same
    expression with the rounding of doubles. *)
Definition exp_average (a b : Z) : Z :=
  Rtrunc (exp ((ln (IZR a) + ln (IZR b)) * 0.5)).

(** The same point by integer arithmetic; [exp_average_isqrt] shows that
    the two agree on positive arguments. *)
Definition isqrt_average (a b : Z) : Z := Z.sqrt (a * b).

(** The aim point expressions that agree with the integer square root
    where [smp_metrics] uses them. *)
Definition isqrt_like (f : Z -> Z -> Z) : Prop :=
  forall m, 0 < m -> f 10 m = isqrt_average 10 m.

(** Rounding to the nearest integer, halves upward. *)
Definition Rround (r : R) : Z := Int_part (r + / 2).

(** The aim point as the specification words it:
    [round(exp((ln(min_nseg) + ln(max_nseg)) / 2))]. *)
Definition spec_aim_nseg (a b : Z) : Z :=
  Rround (exp ((ln (IZR a) + ln (IZR b)) / 2)).

(** The arithmetic on [double] that lines 121-122 use, on the real
    numbers that doubles stand for: [log] and [exp] of the C library and
    the sum of two doubles.  The conversion of an [unsigned] to [double]
    and the product with [.5] are exact. *)
Record double_ops : Type := mk_double_ops {
  d_log : R -> R;
  d_add : R -> R -> R;
  d_exp : R -> R
}.

(** The relative error allowed to one operation, [2^-46]: 64 units in
    the last place of a double. *)
Definition d_eps : R := (/ IZR (2 ^ 46))%R.

(** Operations within that error of the exact ones; [log] is used at
    integers from 1 on only. *)
Definition accurate_doubles (D : double_ops) : Prop :=
  (forall x, (1 <= x)%R -> (Rabs (d_log D x - ln x) <= d_eps * ln x)%R) /\
  (forall x y, (Rabs (d_add D x y - (x + y)) <= d_eps * Rabs (x + y))%R) /\
  (forall x, (Rabs (d_exp D x - exp x) <= d_eps * exp x)%R).

(** [(unsigned) exp((log(a) + log(b)) * .5)], lines 121-122, in the
    arithmetic [D]. *)
Definition fp_exp_average (D : double_ops) (a b : Z) : Z :=
  Rtrunc (d_exp D (d_add D (d_log D (IZR a)) (d_log D (IZR b)) * 0.5)).

(** Exact operations: [fp_exp_average exact_doubles] is [exp_average]. *)
Definition exact_doubles : double_ops := mk_double_ops ln Rplus exp.

(** Operations whose [exp] comes out low by the error allowed. *)
Definition low_doubles : double_ops :=
  mk_double_ops ln Rplus (fun x => (exp x * (1 - d_eps))%R).

(** What [fp_exp_average low_doubles] gives, by integer arithmetic: the
    integer square root of the product, and one less at a square. *)
Definition low_average (a b : Z) : Z :=
  if Z.sqrt (a * b) * Z.sqrt (a * b) =? a * b
  then Z.sqrt (a * b) - 1
  else Z.sqrt (a * b).

(* ------------------------------------------------------------------ *)
(** * The backing file *)

(** A regular file: its length and the byte at each offset. *)
Record file : Type := mk_file {
  f_len : Z;
  f_byte : Z -> Byte.byte
}.

(** The file after a successful [ftruncate(fd, len)]: cut, or extended
    with zero bytes. *)
Definition ftruncate_file (f : file) (len : Z) : file :=
  mk_file len (fun i => if i <? f_len f then f_byte f i else Byte.x00).

(** The bytes [read(fd, buf, nbytes)] delivers at offset 0 of a regular
    file: all of [nbytes], or what the file has. *)
Definition read_file (f : file) (nbytes : Z) : list Byte.byte :=
  map (fun i => f_byte f (Z.of_nat i))
      (seq 0 (Z.to_nat (Z.min nbytes (f_len f)))).

Fixpoint bytes_eqb (a b : list Byte.byte) : bool :=
  match a, b with
  | [], [] => true
  | x :: a', y :: b' => Byte.eqb x y && bytes_eqb a' b'
  | _, _ => false
  end.

(** [!memcmp(a, b, n)]. *)
Definition memcmp_eq (a b : list Byte.byte) (n : nat) : bool :=
  bytes_eqb (firstn n a) (firstn n b).

(** The five bytes of the literal ["SILO"], its terminator included. *)
Definition SILO : list Byte.byte :=
  [Byte.x53; Byte.x49; Byte.x4c; Byte.x4f; Byte.x00].

(** [struct smp_sign]: the fields this file reads. *)
Record smp_sign : Type := mk_smp_sign {
  sgn_ident : list Byte.byte;
  sgn_mapped : Z
}.

(* ------------------------------------------------------------------ *)
(** * The platform *)

(** What the system headers, config.h and storage_persistent.h fix at
    compile time.  An [option] is a macro that may be undefined. *)
Record platform : Type := mk_platform {
  HAVE_SYS_PERSONALITY_H : bool;
  ADDR_NO_RANDOMIZE : Z;
  FreeBSD : bool;                       (* __FreeBSD__ *)
  MAP_SHARED : Z;
  MAP_FIXED : Z;
  MAP_NOCORE_sys : option Z;            (* MAP_NOCORE of sys/mman.h *)
  MAP_CONCEAL : option Z;
  MAP_NOSYNC_sys : option Z;            (* MAP_NOSYNC of sys/mman.h *)
  MAP_EXCL : option Z;
  MAP_ALIGNED_SUPER : option Z;
  PROT_READ : Z;
  PROT_WRITE : Z;
  getpagesize : Z;
  sizeof_void_p : Z;
  sizeof_smp_ident : Z;
  sizeof_smp_sign : Z;
  sizeof_smp_segptr : Z;
  sizeof_smp_object : Z;
  SMP_IDENT_SIZE : Z;
  decode_sign : list Byte.byte -> smp_sign   (* layout of [struct smp_sign] *)
}.

(** Lines 59-65. *)
Definition MAP_NOCORE (P : platform) : Z :=
  match MAP_NOCORE_sys P with
  | Some v => v
  | None => match MAP_CONCEAL P with
            | Some v => v
            | None => 0
            end
  end.

(** Lines 67-69. *)
Definition MAP_NOSYNC (P : platform) : Z :=
  match MAP_NOSYNC_sys P with
  | Some v => v
  | None => 0
  end.

(** Conversion to [uintptr_t]. *)
Definition to_uintptr (P : platform) (x : Z) : Z :=
  x mod 2 ^ (8 * sizeof_void_p P).

(** [flags |= m] for a macro that may be undefined. *)
Definition or_if_defined (flags : Z) (m : option Z) : Z :=
  match m with
  | Some v => Z.lor flags v
  | None => flags
  end.

(* ------------------------------------------------------------------ *)
(** * Runs: a trace of events and a result *)

(** Why a run stopped before its end. *)
Inductive abort : Type :=
| Assert_fail (what : string)   (* assert(), AZ(), XXXAN(): abort() *)
| Argv_err (msg : string)       (* ARGV_ERR(): diagnostic and exit *)
| Div_by_zero                   (* integer division by zero *)
| Loop_bound.                   (* the bound of [halve] was used up *)

Inductive result (A : Type) : Type :=
| Ret (a : A)
| Abort (e : abort).
Arguments Ret {A} a.
Arguments Abort {A} e.

(** Lines written to stderr or stdout. *)
Inductive message : Type :=
| Msg_aslr_not_disabled
    (* WARNING: Could not disable ASLR *)
| Msg_aslr_disabled
    (* NB: Disabled ASLR for Persistent *)
| Msg_sizeof (type_name : string) (size : Z)
    (* sizeof(%s) = %zu = 0x%zx *)
| Msg_lost_to_aslr (filename : string)
    (* WARNING: Persistent silo lost to ASLR %s *)
| Msg_not_reloaded (filename : string) (reason : Z)
    (* Warning SILO (%s) not reloaded (reason=%d) *)
| Msg_min_nseg (min_nseg max_segl : Z)
    (* min_nseg = %u, max_segl = %ju *)
| Msg_max_nseg (max_nseg min_segl : Z)
    (* max_nseg = %u, min_segl = %ju *)
| Msg_aim_nseg (aim_nseg aim_segl : Z)
    (* aim_nseg = %u, aim_segl = %ju *)
| Msg_free_reserve (free_reserve : Z).
    (* free_reserve = %ju *)

Inductive event : Type :=
| Stderr (m : message)
| Stdout (m : message)
| Sys_personality (persona : Z)
| Sys_ftruncate (fd length : Z)
| Sys_read (fd nbytes : Z)
| Sys_mmap (addr len prot flags fd : Z)
| Call_STV_GetFile (fn : option string)
| Call_STV_FileSize (fd : Z) (size : option string)
| Call_smp_def_sign
| Call_smp_valid_silo
| Call_smp_newsilo
| Call_MCH_Fd_Inherit (fd : Z).

(** A computation takes the trace so far and gives the trace after it
    and its result. *)
Definition M (A : Type) : Type := list event -> list event * result A.

Definition ret {A} (a : A) : M A := fun t => (t, Ret a).

Definition bind {A B} (m : M A) (f : A -> M B) : M B :=
  fun t =>
    match m t with
    | (t1, Ret a) => f a t1
    | (t1, Abort e) => (t1, Abort e)
    end.

Notation "x <- m ;; k" := (bind m (fun x => k))
  (at level 61, m at next level, right associativity).
Notation "m ;;; k" := (bind m (fun _ => k))
  (at level 61, right associativity).

Definition emit (ev : event) : M unit := fun t => (t ++ [ev], Ret tt).
Definition stop {A} (e : abort) : M A := fun t => (t, Abort e).

(** Events that change the backing file or map it. *)
Definition touches_backing (e : event) : bool :=
  match e with
  | Sys_ftruncate _ _ => true
  | Sys_mmap _ _ _ _ _ => true
  | _ => false
  end.

(** A whole run starts with the empty trace. *)
Definition run {A} (m : M A) : list event * result A := m [].

(** Two computations end alike, whatever the traces they start from. *)
Definition same_result {A} (m1 m2 : M A) : Prop :=
  forall t1 t2, snd (m1 t1) = snd (m2 t2).

(** The events of lines 153-173: the calls of [personality] and the lines
    about ASLR and about sizes. *)
Definition startup_event (e : event) : bool :=
  match e with
  | Sys_personality _ => true
  | Stderr Msg_aslr_not_disabled => true
  | Stderr Msg_aslr_disabled => true
  | Stderr (Msg_sizeof _ _) => true
  | _ => false
  end.

Definition fprintf_stderr (m : message) : M unit := emit (Stderr m).
Definition printf (m : message) : M unit := emit (Stdout m).

(** [assert(cond)]. *)
Definition assert (cond : bool) (what : string) : M unit :=
  if cond then ret tt else stop (Assert_fail what).

(** Modelled from the spec: the macro [ARGV_ERR] belongs to the manager's
    headers; the specification gives its effect as fatal, aborting
    bring-up with a diagnostic. *)
Definition ARGV_ERR {A} (msg : string) : M A := stop (Argv_err msg).

(** Unsigned integer division [a / b]. *)
Definition udiv (a b : Z) : M Z :=
  if b =? 0 then stop Div_by_zero else ret (a / b).

(* ------------------------------------------------------------------ *)
(** * The silo handle *)

(** The regions of a silo that [smp_metrics] asks the length of. *)
Inductive smp_stuff : Type := SMP_SEG1_STUFF | SMP_SPC_STUFF.

Section Silo.

(** Contents of the mapped region, owned by the format code
    ([smp_valid_silo], [smp_newsilo], [smp_stuff_len]). *)
Context {silo : Type}.

(** Modelled from the spec: [struct smp_sc] is declared in
    storage_persistent.h; the specification gives the segment counts as
    unsigned and the segment lengths and the free reserve as byte
    lengths, and [smp_metrics] prints the counts with [%u] and the
    lengths as [uintmax_t].  Here are the fields this file reads or
    writes; the counts are 32-bit [unsigned], the lengths [uint64_t]. *)
Record smp_sc : Type := mk_smp_sc {
  parent : Z;
  fd : Z;
  filename : string;
  align : Z;
  granularity : Z;
  mediasize : Z;
  base : Z;
  ident : option silo;     (* what [sc->ident] points to; [None] is NULL *)
  segments : list Z;
  min_nseg : Z;
  aim_nseg : Z;
  max_nseg : Z;
  min_segl : Z;
  aim_segl : Z;
  max_segl : Z;
  free_reserve : Z
}.

Definition set_fd (sc : smp_sc) (v : Z) (fn : string) : smp_sc :=
  mk_smp_sc (parent sc) v fn (align sc) (granularity sc)
    (mediasize sc) (base sc) (ident sc) (segments sc) (min_nseg sc)
    (aim_nseg sc) (max_nseg sc) (min_segl sc) (aim_segl sc) (max_segl sc)
    (free_reserve sc).

Definition set_align (sc : smp_sc) (v : Z) : smp_sc :=
  mk_smp_sc (parent sc) (fd sc) (filename sc) v (granularity sc)
    (mediasize sc) (base sc) (ident sc) (segments sc) (min_nseg sc)
    (aim_nseg sc) (max_nseg sc) (min_segl sc) (aim_segl sc) (max_segl sc)
    (free_reserve sc).

Definition set_granularity (sc : smp_sc) (v : Z) : smp_sc :=
  mk_smp_sc (parent sc) (fd sc) (filename sc) (align sc) v
    (mediasize sc) (base sc) (ident sc) (segments sc) (min_nseg sc)
    (aim_nseg sc) (max_nseg sc) (min_segl sc) (aim_segl sc) (max_segl sc)
    (free_reserve sc).

Definition set_mediasize (sc : smp_sc) (v : Z) : smp_sc :=
  mk_smp_sc (parent sc) (fd sc) (filename sc) (align sc) (granularity sc)
    v (base sc) (ident sc) (segments sc) (min_nseg sc)
    (aim_nseg sc) (max_nseg sc) (min_segl sc) (aim_segl sc) (max_segl sc)
    (free_reserve sc).

Definition set_base (sc : smp_sc) (v : Z) : smp_sc :=
  mk_smp_sc (parent sc) (fd sc) (filename sc) (align sc) (granularity sc)
    (mediasize sc) v (ident sc) (segments sc) (min_nseg sc)
    (aim_nseg sc) (max_nseg sc) (min_segl sc) (aim_segl sc) (max_segl sc)
    (free_reserve sc).

Definition set_ident (sc : smp_sc) (v : option silo) : smp_sc :=
  mk_smp_sc (parent sc) (fd sc) (filename sc) (align sc) (granularity sc)
    (mediasize sc) (base sc) v (segments sc) (min_nseg sc)
    (aim_nseg sc) (max_nseg sc) (min_segl sc) (aim_segl sc) (max_segl sc)
    (free_reserve sc).

Definition set_min_nseg (sc : smp_sc) (v : Z) : smp_sc :=
  mk_smp_sc (parent sc) (fd sc) (filename sc) (align sc) (granularity sc)
    (mediasize sc) (base sc) (ident sc) (segments sc) v
    (aim_nseg sc) (max_nseg sc) (min_segl sc) (aim_segl sc) (max_segl sc)
    (free_reserve sc).

Definition set_aim_nseg (sc : smp_sc) (v : Z) : smp_sc :=
  mk_smp_sc (parent sc) (fd sc) (filename sc) (align sc) (granularity sc)
    (mediasize sc) (base sc) (ident sc) (segments sc) (min_nseg sc)
    v (max_nseg sc) (min_segl sc) (aim_segl sc) (max_segl sc)
    (free_reserve sc).

Definition set_max_nseg (sc : smp_sc) (v : Z) : smp_sc :=
  mk_smp_sc (parent sc) (fd sc) (filename sc) (align sc) (granularity sc)
    (mediasize sc) (base sc) (ident sc) (segments sc) (min_nseg sc)
    (aim_nseg sc) v (min_segl sc) (aim_segl sc) (max_segl sc)
    (free_reserve sc).

Definition set_min_segl (sc : smp_sc) (v : Z) : smp_sc :=
  mk_smp_sc (parent sc) (fd sc) (filename sc) (align sc) (granularity sc)
    (mediasize sc) (base sc) (ident sc) (segments sc) (min_nseg sc)
    (aim_nseg sc) (max_nseg sc) v (aim_segl sc) (max_segl sc)
    (free_reserve sc).

Definition set_aim_segl (sc : smp_sc) (v : Z) : smp_sc :=
  mk_smp_sc (parent sc) (fd sc) (filename sc) (align sc) (granularity sc)
    (mediasize sc) (base sc) (ident sc) (segments sc) (min_nseg sc)
    (aim_nseg sc) (max_nseg sc) (min_segl sc) v (max_segl sc)
    (free_reserve sc).

Definition set_max_segl (sc : smp_sc) (v : Z) : smp_sc :=
  mk_smp_sc (parent sc) (fd sc) (filename sc) (align sc) (granularity sc)
    (mediasize sc) (base sc) (ident sc) (segments sc) (min_nseg sc)
    (aim_nseg sc) (max_nseg sc) (min_segl sc) (aim_segl sc) v
    (free_reserve sc).

Definition set_free_reserve (sc : smp_sc) (v : Z) : smp_sc :=
  mk_smp_sc (parent sc) (fd sc) (filename sc) (align sc) (granularity sc)
    (mediasize sc) (base sc) (ident sc) (segments sc) (min_nseg sc)
    (aim_nseg sc) (max_nseg sc) (min_segl sc) (aim_segl sc) (max_segl sc)
    v.

(* ------------------------------------------------------------------ *)
(** * smp_metrics *)

(** Modelled from the spec: [smp_stuff_len] is declared in
    storage_persistent.h; the specification gives it as
    [region_length(region_kind) -> byte_length], a query on the silo's
    identity block.  [region_length] is that query; the result is a
    64-bit byte length.  [smp_mgt_init] sets [sc->ident] before it calls
    [smp_metrics]; for a null [sc->ident] the length is taken as 0. *)
Variable region_length : silo -> smp_stuff -> Z.

Definition smp_stuff_len (sc : smp_sc) (stuff : smp_stuff) : Z :=
  match ident sc with
  | Some s => to_uint64 (region_length s stuff)
  | None => 0
  end.

(** [sizeof(struct object)]; the structure is declared in the cache
    headers. *)
Variable sizeof_object : Z.

(** The loop of lines 104-107.  [unsigned] has 32 bits, so [max_nseg]
    can be halved at most 32 times before it is zero; [n] bounds the
    number of iterations. *)
Fixpoint halve (n : nat) (sc : smp_sc) : M smp_sc :=
  match n with
  | O => stop Loop_bound
  | S n' =>
      if min_segl sc <? sizeof_object then
        let sc := set_max_nseg sc (max_nseg sc / 2) in
        q <- udiv (smp_stuff_len sc SMP_SPC_STUFF) (max_nseg sc) ;;
        halve n' (set_min_segl sc q)
      else ret sc
  end.

(** [smp_metrics], with the aim point expression [expavg] of lines
    121-122 left open so that the function can also be run. *)
Definition smp_metrics_body (expavg : Z -> Z -> Z) (sc : smp_sc)
  : M smp_sc :=
  let sc := set_min_nseg sc 10 in
  let sc :=
    set_max_segl sc (smp_stuff_len sc SMP_SPC_STUFF / min_nseg sc) in
  fprintf_stderr (Msg_min_nseg (min_nseg sc) (max_segl sc)) ;;;
  let sc :=
    set_max_nseg sc
      (to_unsigned (smp_stuff_len sc SMP_SEG1_STUFF / min_nseg sc)) in
  q <- udiv (smp_stuff_len sc SMP_SPC_STUFF) (max_nseg sc) ;;
  let sc := set_min_segl sc q in
  sc <- halve 32 sc ;;
  fprintf_stderr (Msg_max_nseg (max_nseg sc) (min_segl sc)) ;;;
  let sc := set_aim_nseg sc (expavg (min_nseg sc) (max_nseg sc)) in
  q <- udiv (smp_stuff_len sc SMP_SPC_STUFF) (aim_nseg sc) ;;
  let sc := set_aim_segl sc q in
  fprintf_stderr (Msg_aim_nseg (aim_nseg sc) (aim_segl sc)) ;;;
  let sc := set_free_reserve sc (to_uint64 (aim_segl sc * 10)) in
  fprintf_stderr (Msg_free_reserve (free_reserve sc)) ;;;
  ret sc.

(** [smp_metrics] with the expression of lines 121-122 taken exactly. *)
Definition smp_metrics (sc : smp_sc) : M smp_sc :=
  smp_metrics_body exp_average sc.

(** [smp_metrics] with that expression in the double arithmetic [D];
    [smp_metrics] is the case of exact operations. *)
Definition smp_metrics_fp (D : double_ops) (sc : smp_sc) : M smp_sc :=
  smp_metrics_body (fp_exp_average D) sc.

(** [smp_metrics_fp low_doubles] by integer arithmetic, executable. *)
Definition smp_metrics_low (sc : smp_sc) : M smp_sc :=
  smp_metrics_body low_average sc.

(** [smp_metrics] with the aim point by integer square root; equal to
    [smp_metrics] ([smp_metrics_run_eq]) and executable. *)
Definition smp_metrics_run (sc : smp_sc) : M smp_sc :=
  smp_metrics_body isqrt_average sc.

(** The value line 101 stores into [max_nseg]. *)
Definition max_nseg_init (sc : smp_sc) : Z :=
  to_unsigned (smp_stuff_len sc SMP_SEG1_STUFF / 10).

(* ------------------------------------------------------------------ *)
(** * States and relations the statements below are written with *)

(** The handle as line 102 leaves it, when that division is defined. *)
Definition before_loop (sc : smp_sc) : smp_sc :=
  set_min_segl
    (set_max_nseg
       (set_max_segl (set_min_nseg sc 10)
                     (smp_stuff_len sc SMP_SPC_STUFF / 10))
       (max_nseg_init sc))
    (smp_stuff_len sc SMP_SPC_STUFF / max_nseg_init sc).

(** The handle as line 131 leaves it, from the handle after the loop. *)
Definition after_loop (f : Z -> Z -> Z) (sc : smp_sc) : smp_sc :=
  let sc := set_aim_nseg sc (f (min_nseg sc) (max_nseg sc)) in
  let sc :=
    set_aim_segl sc (smp_stuff_len sc SMP_SPC_STUFF / aim_nseg sc) in
  set_free_reserve sc (to_uint64 (aim_segl sc * 10)).

(** The seven fields [smp_metrics] writes. *)
Definition sizing (sc : smp_sc) : Z * Z * Z * Z * Z * Z * Z :=
  (min_nseg sc, aim_nseg sc, max_nseg sc,
   min_segl sc, aim_segl sc, max_segl sc, free_reserve sc).

(** The fields [smp_metrics] does not write. *)
Definition carried (sc : smp_sc)
  : Z * Z * string * Z * Z * Z * Z * option silo * list Z :=
  (parent sc, fd sc, filename sc, align sc, granularity sc, mediasize sc,
   base sc, ident sc, segments sc).

(** [k] halvings of [m] are the first after which a segment of [u] bytes
    of data space holds a record of [r] bytes. *)
Definition first_fit (u r m : Z) (k : nat) : Prop :=
  (forall j, 0 <= j < Z.of_nat k -> u / (m / 2 ^ j) < r) /\
  r <= u / (m / 2 ^ Z.of_nat k).

(** What a run of the loop leaves unchanged, and what it establishes. *)
Record halved (n : nat) (sc sc' : smp_sc) : Prop := {
  hv_ident : ident sc' = ident sc;
  hv_min_nseg : min_nseg sc' = min_nseg sc;
  hv_max_segl : max_segl sc' = max_segl sc;
  hv_rest :
    (parent sc', fd sc', filename sc', align sc', granularity sc',
     mediasize sc', base sc', segments sc')
    = (parent sc, fd sc, filename sc, align sc, granularity sc,
       mediasize sc, base sc, segments sc);
  hv_exit : sizeof_object <= min_segl sc';
  hv_shift : exists k : nat,
      (k <= n)%nat /\ max_nseg sc' = max_nseg sc / 2 ^ Z.of_nat k;
  hv_segl : min_segl sc = smp_stuff_len sc SMP_SPC_STUFF / max_nseg sc ->
            min_segl sc' = smp_stuff_len sc SMP_SPC_STUFF / max_nseg sc';
  hv_pos : 0 < max_nseg sc -> 0 < max_nseg sc'
}.

(** What a completed run of [smp_metrics_body] has computed. *)
Record sized (f : Z -> Z -> Z) (sc sc' : smp_sc) : Prop := {
  sz_ident : ident sc' = ident sc;
  sz_rest :
    (parent sc', fd sc', filename sc', align sc', granularity sc',
     mediasize sc', base sc', segments sc')
    = (parent sc, fd sc, filename sc, align sc, granularity sc,
       mediasize sc, base sc, segments sc);
  sz_init : max_nseg_init sc <> 0;
  sz_min_nseg : min_nseg sc' = 10;
  sz_max_segl : max_segl sc' = smp_stuff_len sc SMP_SPC_STUFF / 10;
  sz_max_nseg : exists k : nat,
      (k <= 32)%nat /\
      max_nseg sc' = max_nseg_init sc / 2 ^ Z.of_nat k;
  sz_max_pos : 0 < max_nseg sc';
  sz_min_segl :
    min_segl sc' = smp_stuff_len sc SMP_SPC_STUFF / max_nseg sc';
  sz_record : sizeof_object <= min_segl sc';
  sz_aim_nseg : aim_nseg sc' = f 10 (max_nseg sc');
  sz_aim_pos : aim_nseg sc' <> 0;
  sz_aim_segl :
    aim_segl sc' = smp_stuff_len sc SMP_SPC_STUFF / aim_nseg sc';
  sz_free : free_reserve sc' = to_uint64 (aim_segl sc' * 10)
}.

(* ------------------------------------------------------------------ *)
(** * smp_mgt_init *)

(** The operating system and the other translation units, as this run
    meets them. *)
Record world : Type := mk_world {
  in_mgt : bool;                           (* ASSERT_MGT() holds *)
  personality : Z -> Z;
  ALLOC_OBJ : bool;                        (* calloc gave an object *)
  STV_GetFile : option string -> Z * Z * string;
                                           (* return value, fd, filename *)
  STV_FileSize : Z -> option string -> Z -> Z * Z;
                                           (* media size, granularity *)
  backing_file : file;                     (* the file behind fd *)
  ftruncate : Z -> Z -> Z;
  sbrk0 : Z;                               (* sbrk(0) *)
  mmap : Z -> Z -> Z -> Z -> Z -> option Z;
                                           (* addr len prot flags fd;
                                              [None] is MAP_FAILED *)
  mapped_region : silo;                    (* the region as first mapped *)
  smp_valid_silo : smp_sc -> Z * silo;     (* return value, region after *)
  smp_newsilo : smp_sc -> silo             (* region after *)
}.

Variable P : platform.
Variable W : world.

(** Lines 153-162. *)
Definition disable_aslr : M unit :=
  if HAVE_SYS_PERSONALITY_H P then
    emit (Sys_personality 0xffffffff) ;;;
    let i := personality W 0xffffffff in
    if Z.land i (ADDR_NO_RANDOMIZE P) =? 0 then
      emit (Sys_personality (Z.lor i (ADDR_NO_RANDOMIZE P))) ;;;
      let i := personality W (Z.lor i (ADDR_NO_RANDOMIZE P)) in
      if i <? 0 then fprintf_stderr Msg_aslr_not_disabled
      else fprintf_stderr Msg_aslr_disabled
    else ret tt
  else ret tt.

(** Lines 200-206: the preferred address, 0 for NULL. *)
Definition mmap_target (buf : list Byte.byte) : Z :=
  let sgn := decode_sign P buf in
  if memcmp_eq (sgn_ident sgn) SILO 5
  then to_uintptr P (sgn_mapped sgn)
  else 0.

(** Lines 225-230: the placement below the break on FreeBSD. *)
Definition below_break (msz : Z) : Z :=
  let up := to_uintptr P (sbrk0 W) in
  let up := to_uintptr P (up - Z.shiftl 1 24) in
  let up := to_uintptr P (up - msz) in
  to_uintptr P (Z.land up (to_uint64 (Z.lnot (getpagesize P - 1)))).

(** Lines 208-236: the flags and the address handed to mmap. *)
Definition mmap_request (target msz : Z) : Z * Z :=
  let mmap_flags :=
    Z.lor (Z.lor (MAP_NOCORE P) (MAP_NOSYNC P)) (MAP_SHARED P) in
  if negb (target =? 0) then
    let mmap_flags := Z.lor mmap_flags (MAP_FIXED P) in
    let mmap_flags := or_if_defined mmap_flags (MAP_EXCL P) in
    (mmap_flags, target)
  else
    let target := if FreeBSD P then below_break msz else target in
    let mmap_flags := or_if_defined mmap_flags (MAP_ALIGNED_SUPER P) in
    (mmap_flags, target).

Definition is_null (p : option string) : bool :=
  match p with
  | None => true
  | Some _ => false
  end.

(** Lines 179-183: the softc, zeroed by [ALLOC_OBJ], with its parent,
    [fd = -1] and the empty list of segments. *)
Definition fresh_sc (parent_stv : Z) : smp_sc :=
  mk_smp_sc parent_stv (-1) "" 0 0 0 0 None [] 0 0 0 0 0 0 0.

(** Lines 148-183: the assertions of the start, the sizes reported, the
    softc allocated. *)
Definition startup (parent_stv : Z) (ac : Z) (av : Z -> option string)
  : M smp_sc :=
  assert (in_mgt W) "ASSERT_MGT()" ;;;
  assert (is_null (av ac)) "AZ(av[ac])" ;;;
  disable_aslr ;;;
  assert (sizeof_smp_object P mod 8 =? 0)
         "sizeof(struct smp_object) % 8 == 0" ;;;
  fprintf_stderr (Msg_sizeof "struct smp_ident" (sizeof_smp_ident P)) ;;;
  fprintf_stderr (Msg_sizeof "struct smp_sign" (sizeof_smp_sign P)) ;;;
  fprintf_stderr (Msg_sizeof "struct smp_segptr" (sizeof_smp_segptr P)) ;;;
  fprintf_stderr (Msg_sizeof "struct smp_object" (sizeof_smp_object P)) ;;;
  assert (sizeof_smp_ident P =? SMP_IDENT_SIZE P)
         "sizeof(struct smp_ident) == SMP_IDENT_SIZE" ;;;
  assert (ALLOC_OBJ W) "XXXAN(sc)" ;;;
  ret (fresh_sc parent_stv).

(** Lines 185-198: argument processing; the backing file opened and
    brought to the media size. *)
Definition open_backing_store (sc : smp_sc) (ac : Z)
  (av : Z -> option string) : M smp_sc :=
  (if negb (ac =? 2)
   then ARGV_ERR "(-spersistent) wrong number of arguments"
   else ret tt) ;;;
  emit (Call_STV_GetFile (av 0)) ;;;
  let '(i, new_fd, new_filename) := STV_GetFile W (av 0) in
  let sc := set_fd sc new_fd new_filename in
  (if i =? 2
   then ARGV_ERR "(-spersistent) need filename (not directory)"
   else ret tt) ;;;
  let sc := set_align sc (sizeof_void_p P * 2) in
  let sc := set_granularity sc (getpagesize P) in
  emit (Call_STV_FileSize (fd sc) (av 1)) ;;;
  let '(msz, gran) := STV_FileSize W (fd sc) (av 1) (granularity sc) in
  let sc := set_mediasize (set_granularity sc gran) msz in
  emit (Sys_ftruncate (fd sc) (mediasize sc)) ;;;
  assert (ftruncate W (fd sc) (mediasize sc) =? 0)
         "AZ(ftruncate(sc->fd, sc->mediasize))" ;;;
  ret sc.

(** The signature block read at line 201: the file has just been brought
    to [mediasize sc]. *)
Definition read_sign (sc : smp_sc) : list Byte.byte :=
  read_file (ftruncate_file (backing_file W) (mediasize sc))
            (sizeof_smp_sign P).

(** Lines 200-248: the signature read, the silo mapped. *)
Definition map_silo (sc : smp_sc) : M smp_sc :=
  emit (Sys_read (fd sc) (sizeof_smp_sign P)) ;;;
  let buf := read_sign sc in
  let i := Z.of_nat (List.length buf) in
  assert (i =? sizeof_smp_sign P) "i == sizeof sgn" ;;;
  let target := mmap_target buf in
  let '(mmap_flags, target) := mmap_request target (mediasize sc) in
  let prot := Z.lor (PROT_READ P) (PROT_WRITE P) in
  emit (Sys_mmap target (mediasize sc) prot mmap_flags (fd sc)) ;;;
  match mmap W target (mediasize sc) prot mmap_flags (fd sc) with
  | None => ARGV_ERR "(-spersistent) failed to mmap"
  | Some b =>
      let sc := set_base sc b in
      (if negb (target =? 0) && negb (base sc =? target)
       then fprintf_stderr (Msg_lost_to_aslr (filename sc))
       else ret tt) ;;;
      emit Call_smp_def_sign ;;;
      ret (set_ident sc (Some (mapped_region W)))
  end.

(** Lines 250-256: the silo validated, made anew if need be. *)
Definition validate_silo (sc : smp_sc) : M smp_sc :=
  emit Call_smp_valid_silo ;;;
  let '(i, region) := smp_valid_silo W sc in
  let sc := set_ident sc (Some region) in
  sc <- (if negb (i =? 0) then
           printf (Msg_not_reloaded (filename sc) i) ;;;
           emit Call_smp_newsilo ;;;
           ret (set_ident sc (Some (smp_newsilo W sc)))
         else ret sc) ;;
  emit Call_smp_valid_silo ;;;
  let '(i, region) := smp_valid_silo W sc in
  let sc := set_ident sc (Some region) in
  assert (i =? 0) "AZ(smp_valid_silo(sc))" ;;;
  ret sc.

(** The run up to the open backing file (line 198), and up to the mapped
    silo (line 248). *)
Definition bring_up_file (parent_stv : Z) (ac : Z) (av : Z -> option string)
  : M smp_sc :=
  sc <- startup parent_stv ac av ;;
  open_backing_store sc ac av.

Definition bring_up_mapping (parent_stv : Z) (ac : Z)
  (av : Z -> option string) : M smp_sc :=
  sc <- bring_up_file parent_stv ac av ;;
  map_silo sc.

(** [smp_mgt_init]; its result is the handle stored in [parent->priv]. *)
Definition smp_mgt_init (parent_stv : Z) (ac : Z) (av : Z -> option string)
  : M smp_sc :=
  sc <- bring_up_mapping parent_stv ac av ;;
  sc <- validate_silo sc ;;
  sc <- smp_metrics sc ;;
  emit (Call_MCH_Fd_Inherit (fd sc)) ;;;
  ret sc.

(** [smp_mgt_init] with [smp_metrics_run] for [smp_metrics], for
    evaluation. *)
Definition smp_mgt_init_run (parent_stv : Z) (ac : Z)
  (av : Z -> option string) : M smp_sc :=
  sc <- bring_up_mapping parent_stv ac av ;;
  sc <- validate_silo sc ;;
  sc <- smp_metrics_run sc ;;
  emit (Call_MCH_Fd_Inherit (fd sc)) ;;;
  ret sc.

(** The events of [disable_aslr]. *)
Definition aslr_events : list event := fst (disable_aslr []).

(** The four [SIZOF] lines. *)
Definition sizeof_messages : list event :=
  [Stderr (Msg_sizeof "struct smp_ident" (sizeof_smp_ident P));
   Stderr (Msg_sizeof "struct smp_sign" (sizeof_smp_sign P));
   Stderr (Msg_sizeof "struct smp_segptr" (sizeof_smp_segptr P));
   Stderr (Msg_sizeof "struct smp_object" (sizeof_smp_object P))].

(** The assertions of lines 148-180 hold. *)
Definition startup_holds (ac : Z) (av : Z -> option string) : Prop :=
  in_mgt W = true /\
  av ac = None /\
  sizeof_smp_object P mod 8 = 0 /\
  sizeof_smp_ident P = SMP_IDENT_SIZE P /\
  ALLOC_OBJ W = true.

(** The return value of [STV_GetFile]. *)
Definition getfile_code (av : Z -> option string) : Z :=
  fst (fst (STV_GetFile W (av 0))).

(** The handle as line 198 leaves it. *)
Definition opened_sc (sc : smp_sc) (av : Z -> option string)
  : smp_sc :=
  let '(_, new_fd, new_filename) := STV_GetFile W (av 0) in
  let sc := set_fd sc new_fd new_filename in
  let sc := set_align sc (sizeof_void_p P * 2) in
  let sc := set_granularity sc (getpagesize P) in
  let '(msz, gran) := STV_FileSize W (fd sc) (av 1) (granularity sc) in
  set_mediasize (set_granularity sc gran) msz.

(** The address and the flags of the mmap call of line 237. *)
Definition request (sc : smp_sc) : Z * Z :=
  mmap_request (mmap_target (read_sign sc)) (mediasize sc).

(** The result of the mmap call of line 237. *)
Definition mmap_result (sc : smp_sc) : option Z :=
  mmap W (snd (request sc)) (mediasize sc)
       (Z.lor (PROT_READ P) (PROT_WRITE P)) (fst (request sc)) (fd sc).

(** The event of the mmap call of line 237. *)
Definition mmap_event (sc : smp_sc) : event :=
  Sys_mmap (snd (request sc)) (mediasize sc)
           (Z.lor (PROT_READ P) (PROT_WRITE P)) (fst (request sc)) (fd sc).

(** The handle with the region [smp_newsilo] has made. *)
Definition reinitialized (sc : smp_sc) : smp_sc :=
  let sc1 := set_ident sc (Some (snd (smp_valid_silo W sc))) in
  set_ident sc1 (Some (smp_newsilo W sc1)).

(** The handle as line 248 leaves it, the silo mapped at [b]. *)
Definition mapped_sc (sc : smp_sc) (b : Z) : smp_sc :=
  set_ident (set_base sc b) (Some (mapped_region W)).

(** The handle as line 255 leaves it: the region as the first validation
    left it, or made anew. *)
Definition checked_sc (sc : smp_sc) : smp_sc :=
  let sc1 := set_ident sc (Some (snd (smp_valid_silo W sc))) in
  if fst (smp_valid_silo W sc) =? 0 then sc1
  else set_ident sc1 (Some (smp_newsilo W sc1)).

(** The return value of the validation of line 256, and the handle after
    it. *)
Definition last_check (sc : smp_sc) : Z :=
  fst (smp_valid_silo W (checked_sc sc)).

Definition validated_sc (sc : smp_sc) : smp_sc :=
  set_ident (checked_sc sc) (Some (snd (smp_valid_silo W (checked_sc sc)))).

(** The events of lines 189-198. *)
Definition file_events (sc : smp_sc) (av : Z -> option string)
  : list event :=
  [Call_STV_GetFile (av 0);
   Call_STV_FileSize (fd sc) (av 1);
   Sys_ftruncate (fd sc) (mediasize sc)].

(** The events of lines 201-247 when mmap returns [b]. *)
Definition map_events (sc : smp_sc) (b : Z) : list event :=
  [Sys_read (fd sc) (sizeof_smp_sign P); mmap_event sc]
    ++ (if negb (snd (request sc) =? 0) && negb (b =? snd (request sc))
        then [Stderr (Msg_lost_to_aslr (filename sc))] else [])
    ++ [Call_smp_def_sign].

(** The events of lines 250-256. *)
Definition check_events (sc : smp_sc) : list event :=
  [Call_smp_valid_silo]
    ++ (if fst (smp_valid_silo W sc) =? 0 then []
        else [Stdout (Msg_not_reloaded (filename sc)
                                       (fst (smp_valid_silo W sc)));
              Call_smp_newsilo])
    ++ [Call_smp_valid_silo].

(** The four lines of [smp_metrics], with the values of the handle it
    leaves. *)
Definition sizing_events (sc : smp_sc) : list event :=
  [Stderr (Msg_min_nseg (min_nseg sc) (max_segl sc));
   Stderr (Msg_max_nseg (max_nseg sc) (min_segl sc));
   Stderr (Msg_aim_nseg (aim_nseg sc) (aim_segl sc));
   Stderr (Msg_free_reserve (free_reserve sc))].

(** Every check of [smp_mgt_init] passes: the assertions of the start,
    two arguments, a file, [ftruncate], the full read, [mmap], the
    validation of line 256, and the divisions of [smp_metrics]. *)
Definition bring_up_conditions (parent_stv ac : Z)
  (av : Z -> option string) : Prop :=
  startup_holds ac av /\
  ac = 2 /\
  getfile_code av <> 2 /\
  ftruncate W (fd (opened_sc (fresh_sc parent_stv) av))
              (mediasize (opened_sc (fresh_sc parent_stv) av)) = 0 /\
  Z.of_nat (List.length (read_sign (opened_sc (fresh_sc parent_stv) av)))
    = sizeof_smp_sign P /\
  exists b,
    mmap_result (opened_sc (fresh_sc parent_stv) av) = Some b /\
    last_check (mapped_sc (opened_sc (fresh_sc parent_stv) av) b) = 0 /\
    max_nseg_init
      (validated_sc (mapped_sc (opened_sc (fresh_sc parent_stv) av) b))
      <> 0 /\
    sizeof_object
      <= smp_stuff_len
           (validated_sc (mapped_sc (opened_sc (fresh_sc parent_stv) av) b))
           SMP_SPC_STUFF.

End Silo.

Arguments smp_sc : clear implicits.
Arguments world : clear implicits.

(** The same world with other answers from [personality]. *)
Definition with_personality {silo : Type} (W : world silo) (p : Z -> Z)
  : world silo :=
  mk_world (in_mgt W) p (ALLOC_OBJ W) (STV_GetFile W) (STV_FileSize W)
           (backing_file W) (ftruncate W) (sbrk0 W) (mmap W)
           (mapped_region W) (smp_valid_silo W) (smp_newsilo W).

(* ------------------------------------------------------------------ *)
(** * Example silos, platforms and worlds *)

(** The value of a run that has one. *)
Definition value_or {A} (d : A) (r : result A) : A :=
  match r with
  | Ret a => a
  | Abort _ => d
  end.

(** A silo known by the lengths of its segment table and of its data
    space. *)
Definition table : Type := (Z * Z)%type.

Definition table_length (s : table) (stuff : smp_stuff) : Z :=
  match stuff with
  | SMP_SEG1_STUFF => fst s
  | SMP_SPC_STUFF => snd s
  end.

Definition MiB : Z := 1048576.

Definition silo_path : string := "/var/lib/varnish/silo".

(** A handle as [smp_mgt_init] hands it to [smp_metrics]: pages of 4096
    bytes, a media size, the silo mapped. *)
Definition handle (msz : Z) (s : table) : smp_sc table :=
  mk_smp_sc 0 3 silo_path 16 4096 msz (2 ^ 40) (Some s) [] 0 0 0 0 0 0 0.

(** The scenario of the specification: 100 MiB of data space, a segment
    table of 1 MiB (records of 64 bytes). *)
Definition scenario : smp_sc table :=
  handle (4096 + 104 * MiB) (MiB, 100 * MiB).

(** One page of data space (records of 512 bytes). *)
Definition one_page : smp_sc table :=
  handle (4096 + 4 * MiB + 4096) (MiB, 4096).

(** A data space of 32 bytes (records of 64 bytes). *)
Definition cramped : smp_sc table :=
  handle (4096 + 4 * MiB + 4096) (MiB, 32).

(** A segment table of [10 * (2^32 + 1000)] bytes. *)
Definition wide_table : smp_sc table :=
  handle (2 ^ 40) (10 * (2 ^ 32 + 1000), 100 * MiB).

(** A segment table of 5 bytes. *)
Definition short_table : smp_sc table :=
  handle (4096 + 104 * MiB) (5, 100 * MiB).

(** A segment table of 2500 bytes: [max_nseg] is 250, and
    [min_nseg * max_nseg] is the square of 50. *)
Definition square_table : smp_sc table :=
  handle (4096 + 104 * MiB) (2500, 100 * MiB).

(** The handle [smp_metrics_low] leaves. *)
Definition sized_low (record : Z) (sc : smp_sc table) : smp_sc table :=
  value_or sc (snd (smp_metrics_low table_length record sc [])).

(** The handle [smp_metrics_run] leaves. *)
Definition sized_by (record : Z) (sc : smp_sc table) : smp_sc table :=
  value_or sc (snd (smp_metrics_run table_length record sc [])).

Definition byte_of_Z (z : Z) : Byte.byte :=
  match Byte.of_N (Z.to_N (z mod 256)) with
  | Some b => b
  | None => Byte.x00
  end.

Definition le_decode (bs : list Byte.byte) : Z :=
  fold_right (fun b acc => Z.of_N (Byte.to_N b) + 256 * acc) 0 bs.

(** A layout of the signature block: 32 bytes, the tag in bytes 0-7, the
    address in bytes 16-23, least significant byte first. *)
Definition decode_sign_le (buf : list Byte.byte) : smp_sign :=
  mk_smp_sign (firstn 8 buf) (le_decode (firstn 8 (skipn 16 buf))).

(** A 64-bit platform with <sys/personality.h> and none of the optional
    mmap flags. *)
Definition linux_like : platform :=
  mk_platform true 262144 false 1 16 None None None None None 1 2 4096
              8 112 32 32 72 112 decode_sign_le.

(** A 64-bit platform without <sys/personality.h>, with MAP_NOCORE,
    MAP_NOSYNC, MAP_EXCL and MAP_ALIGNED_SUPER. *)
Definition bsd_like : platform :=
  mk_platform false 0 true 1 16 (Some 131072) None (Some 2048)
              (Some 16384) (Some 16777216) 1 2 4096
              8 112 32 32 72 112 decode_sign_le.

(** A file of zero bytes only. *)
Definition blank_file (len : Z) : file := mk_file len (fun _ => Byte.x00).

(** A file that starts with a signature block: the tag SILO and the
    address [addr]. *)
Definition signed_file (len addr : Z) : file :=
  mk_file len
    (fun i =>
       if (0 <=? i) && (i <? 5) then nth (Z.to_nat i) SILO Byte.x00
       else if (16 <=? i) && (i <? 24)
            then byte_of_Z (Z.shiftr addr (8 * (i - 16)))
            else Byte.x00).

(** A kernel that places a mapping asked for with MAP_FIXED (16) at its
    address; when the address is taken it refuses if MAP_EXCL (16384) is
    set and replaces what is there if not; any other mapping goes to
    [free]. *)
Definition mmap_fixed (taken : Z -> bool) (free : Z)
  (addr len prot flags mfd : Z) : option Z :=
  if Z.land flags 16 =? 0 then Some free
  else if taken addr && negb (Z.land flags 16384 =? 0) then None
       else Some addr.

(** A kernel that places every mapping at [free]. *)
Definition mmap_anywhere (free : Z) (addr len prot flags mfd : Z)
  : option Z := Some free.

(** A silo is valid when its two regions have a length. *)
Definition table_valid (sc : smp_sc table) : Z * table :=
  match ident sc with
  | Some (s, u) => (if (0 <? s) && (0 <? u) then 0 else 1, (s, u))
  | None => (2, (0, 0))
  end.

(** A new silo: a segment table of 1 MiB; the data space is the media
    less one page and 4 MiB. *)
Definition table_new (sc : smp_sc table) : table :=
  (MiB, mediasize sc - granularity sc - 4 * MiB).

(** A reinitializer that leaves the silo without regions. *)
Definition table_broken (sc : smp_sc table) : table := (0, 0).

Definition world_of (code msz : Z) (f : file)
  (kernel : Z -> Z -> Z -> Z -> Z -> option Z) (region : table)
  (newsilo : smp_sc table -> table) : world table :=
  mk_world true (fun _ => 0) true (fun _ => (code, 3, silo_path))
           (fun _ _ gran => (msz, gran)) f (fun _ _ => 0) (2 ^ 33)
           kernel region table_valid newsilo.

Definition argv (i : Z) : option string :=
  if i =? 0 then Some silo_path
  else if i =? 1 then Some "104M"%string
       else None.

Definition media : Z := 4096 + 104 * MiB.

(** A new, empty backing file. *)
Definition new_world : world table :=
  world_of 0 media (blank_file 0) (mmap_anywhere (2 ^ 40)) (0, 0) table_new.

(** The same with a reinitializer that does not work. *)
Definition broken_world : world table :=
  world_of 0 media (blank_file 0) (mmap_anywhere (2 ^ 40)) (0, 0)
           table_broken.

(** A silo of an earlier run, mapped then at [2^40], and a kernel that
    maps it at [2^41]. *)
Definition drift_world : world table :=
  world_of 0 media (signed_file media (2 ^ 40)) (mmap_anywhere (2 ^ 41))
           (MiB, 100 * MiB) table_new.

(** A silo of an earlier run, mapped then at [2^40], where something
    else is now. *)
Definition occupied_world : world table :=
  world_of 0 media (signed_file media (2 ^ 40))
           (mmap_fixed (fun a => a =? 2 ^ 40) (2 ^ 41))
           (MiB, 100 * MiB) table_new.

(** A silo of an earlier run, mapped then at [2^40]; the address is
    free, and the kernel honours MAP_FIXED. *)
Definition reopened_world : world table :=
  world_of 0 media (signed_file media (2 ^ 40))
           (mmap_fixed (fun _ => false) (2 ^ 41))
           (MiB, 100 * MiB) table_new.

(** The path names a directory. *)
Definition directory_world : world table :=
  world_of 2 media (blank_file 0) (mmap_anywhere (2 ^ 40)) (0, 0) table_new.

(** A media size of 16 bytes. *)
Definition short_world : world table :=
  world_of 0 16 (blank_file 0) (mmap_anywhere (2 ^ 40)) (0, 0) table_new.

(** The handle with the backing file open, and with the silo mapped. *)
Definition file_handle (P : platform) (W : world table) : smp_sc table :=
  value_or (fresh_sc 0) (snd (bring_up_file P W 0 2 argv [])).

Definition mapped_handle (P : platform) (W : world table) : smp_sc table :=
  value_or (fresh_sc 0) (snd (bring_up_mapping P W 0 2 argv [])).

(** The trace and the handle of a whole run, evaluated. *)
Definition completed_trace (P : platform) (W : world table) : list event :=
  fst (run (smp_mgt_init_run table_length 64 P W 0 2 argv)).

Definition completed_handle (P : platform) (W : world table)
  : smp_sc table :=
  value_or (fresh_sc 0)
           (snd (run (smp_mgt_init_run table_length 64 P W 0 2 argv))).

(** A new, empty backing file, and a break that is on no page
    boundary. *)
Definition odd_break_world : world table :=
  mk_world true (fun _ => 0) true (fun _ => (0, 3, silo_path))
           (fun _ _ gran => (media, gran)) (blank_file 0) (fun _ _ => 0)
           (2 ^ 33 + 1234) (mmap_anywhere (2 ^ 40)) (0, 0)
           table_valid table_new.

(* ------------------------------------------------------------------ *)
(** * Tactics *)

(** [smp_stuff_len] does not look at the fields [smp_metrics] sets. *)
Ltac len_norm :=
  repeat first
    [ progress change (smp_stuff_len ?r (set_min_nseg ?s _) ?k)
        with (smp_stuff_len r s k)
    | progress change (smp_stuff_len ?r (set_max_nseg ?s _) ?k)
        with (smp_stuff_len r s k)
    | progress change (smp_stuff_len ?r (set_aim_nseg ?s _) ?k)
        with (smp_stuff_len r s k)
    | progress change (smp_stuff_len ?r (set_min_segl ?s _) ?k)
        with (smp_stuff_len r s k)
    | progress change (smp_stuff_len ?r (set_max_segl ?s _) ?k)
        with (smp_stuff_len r s k)
    | progress change (smp_stuff_len ?r (set_aim_segl ?s _) ?k)
        with (smp_stuff_len r s k)
    | progress change (smp_stuff_len ?r (set_free_reserve ?s _) ?k)
        with (smp_stuff_len r s k) ].

(** Projections of updated handles. *)
Ltac sc_simpl :=
  cbn [parent fd filename align granularity mediasize base ident segments
       min_nseg aim_nseg max_nseg min_segl aim_segl max_segl free_reserve
       set_fd set_align set_granularity set_mediasize set_base set_ident
       set_min_nseg set_aim_nseg set_max_nseg set_min_segl set_aim_segl
       set_max_segl set_free_reserve];
  len_norm.

(** The combinators of runs, unfolded. *)
Ltac run_unfold :=
  unfold fprintf_stderr, printf, ARGV_ERR, assert, bind, emit, ret, stop.

(* ------------------------------------------------------------------ *)
(** * Runs *)

Lemma bind_Ret {A B} (m : M A) (f : A -> M B) t t1 a :
  m t = (t1, Ret a) -> bind m f t = f a t1.
Proof. intros H. unfold bind. rewrite H. reflexivity. Qed.

Lemma Ret_inj {A} (a b : A) : Ret a = Ret b -> a = b.
Proof. intros H. injection H as H. exact H. Qed.

Lemma bind_Abort {A B} (m : M A) (f : A -> M B) t t1 e :
  m t = (t1, Abort e) -> bind m f t = (t1, Abort e).
Proof. intros H. unfold bind. rewrite H. reflexivity. Qed.

Lemma udiv_nonzero a b t : b <> 0 -> udiv a b t = (t, Ret (a / b)).
Proof.
  intros H. unfold udiv.
  destruct (Z.eqb_spec b 0); [contradiction | reflexivity].
Qed.

(* ------------------------------------------------------------------ *)
(** * The aim point over the reals *)

(** The expression of lines 121-122 is the square root of the product. *)
Lemma exp_half_ln_sqrt (x y : R) :
  (0 < x)%R -> (0 < y)%R ->
  exp ((ln x + ln y) * 0.5) = sqrt (x * y).
Proof.
  intros Hx Hy.
  rewrite <- ln_mult by assumption.
  rewrite <- Rpower_sqrt by (apply Rmult_lt_0_compat; assumption).
  unfold Rpower. f_equal. lra.
Qed.

(** The integer part of a real square root is the integer square root. *)
Lemma Int_part_sqrt (n : Z) :
  0 <= n -> Int_part (sqrt (IZR n)) = Z.sqrt n.
Proof.
  intros Hn. symmetry. apply Int_part_spec.
  destruct (Z.sqrt_spec n Hn) as [Hlo Hhi].
  pose proof (Z.sqrt_nonneg n) as Hs.
  set (s := Z.sqrt n) in *.
  assert (Hs' : (0 <= IZR s)%R) by (apply IZR_le; exact Hs).
  split.
  - (* sqrt n < s + 1 *)
    assert (H : (sqrt (IZR n) < IZR (s + 1))%R).
    { rewrite <- (sqrt_square (IZR (s + 1))) by (apply IZR_le; lia).
      apply sqrt_lt_1.
      - apply IZR_le; lia.
      - rewrite <- mult_IZR. apply IZR_le. nia.
      - rewrite <- mult_IZR. apply IZR_lt. lia. }
    rewrite plus_IZR in H. lra.
  - rewrite <- (sqrt_square (IZR s)) by exact Hs'.
    apply sqrt_le_1.
    + rewrite <- mult_IZR. apply IZR_le. nia.
    + apply IZR_le; lia.
    + rewrite <- mult_IZR. apply IZR_le. lia.
Qed.

Lemma Rtrunc_nonneg (r : R) : (0 <= r)%R -> Rtrunc r = Int_part r.
Proof.
  intros H. unfold Rtrunc.
  destruct (Rle_dec 0 r); [reflexivity | contradiction].
Qed.

(** The aim point expression is the integer square root of the product. *)
Lemma exp_average_isqrt (a b : Z) :
  0 < a -> 0 < b -> exp_average a b = isqrt_average a b.
Proof.
  intros Ha Hb. unfold exp_average, isqrt_average.
  rewrite exp_half_ln_sqrt by (apply IZR_lt; assumption).
  rewrite Rtrunc_nonneg by apply sqrt_pos.
  rewrite <- mult_IZR. apply Int_part_sqrt. nia.
Qed.

Lemma exp_average_isqrt_like : isqrt_like exp_average.
Proof. intros m Hm. apply exp_average_isqrt; lia. Qed.

(** Rounding a real square root to the nearest integer. *)
Lemma Rround_sqrt (n k : Z) :
  0 <= n -> 0 < k ->
  (2 * k - 1) * (2 * k - 1) <= 4 * n < (2 * k + 1) * (2 * k + 1) ->
  Rround (sqrt (IZR n)) = k.
Proof.
  intros Hn Hk [Hlo Hhi]. unfold Rround. symmetry. apply Int_part_spec.
  assert (H4 : (sqrt (IZR (4 * n)) = 2 * sqrt (IZR n))%R).
  { rewrite mult_IZR. rewrite sqrt_mult by (try apply IZR_le; lra || lia).
    replace 4%R with (2 * 2)%R by lra.
    rewrite sqrt_square by lra. reflexivity. }
  assert (Hup : (sqrt (IZR (4 * n)) < IZR (2 * k + 1))%R).
  { rewrite <- (sqrt_square (IZR (2 * k + 1))) by (apply IZR_le; lia).
    apply sqrt_lt_1.
    - apply IZR_le; lia.
    - rewrite <- mult_IZR. apply IZR_le. nia.
    - rewrite <- mult_IZR. apply IZR_lt. lia. }
  assert (Hdn : (IZR (2 * k - 1) <= sqrt (IZR (4 * n)))%R).
  { rewrite <- (sqrt_square (IZR (2 * k - 1))) by (apply IZR_le; lia).
    apply sqrt_le_1.
    - rewrite <- mult_IZR. apply IZR_le. nia.
    - apply IZR_le; lia.
    - rewrite <- mult_IZR. apply IZR_le. lia. }
  rewrite H4 in Hup, Hdn.
  rewrite plus_IZR, mult_IZR in Hup. rewrite minus_IZR, mult_IZR in Hdn.
  lra.
Qed.

Lemma spec_aim_example : spec_aim_nseg 10 104857 = 1024.
Proof.
  unfold spec_aim_nseg.
  replace ((ln (IZR 10) + ln (IZR 104857)) / 2)%R
    with ((ln (IZR 10) + ln (IZR 104857)) * 0.5)%R by lra.
  rewrite exp_half_ln_sqrt by (apply IZR_lt; lia).
  rewrite <- mult_IZR. apply Rround_sqrt; lia.
Qed.

(* ------------------------------------------------------------------ *)
(** * The aim point in double arithmetic *)

Lemma d_eps_value : d_eps = (/ 70368744177664)%R.
Proof. reflexivity. Qed.

Lemma Rtrunc_between (r : R) (k : Z) :
  (0 <= r)%R -> (IZR k <= r < IZR k + 1)%R -> Rtrunc r = k.
Proof.
  intros H0 [Hlo Hhi]. rewrite Rtrunc_nonneg by exact H0.
  symmetry. apply Int_part_spec. lra.
Qed.

Lemma exp_small (h e : R) :
  (0 <= e <= / 2)%R -> (- e <= h <= e)%R ->
  (1 - e <= exp h <= 1 + 2 * e)%R.
Proof.
  intros He Hh. split.
  - pose proof (exp_ineq1_le h). lra.
  - assert (Hle : (exp h <= exp e)%R).
    { destruct (Req_dec h e) as [-> | Hne]; [lra |].
      left. apply exp_increasing. lra. }
    pose proof (exp_ineq1_le (- e)) as H1. rewrite exp_Ropp in H1.
    pose proof (exp_pos e) as Hp.
    assert (H2 : (exp e * (1 - e) <= 1)%R).
    { assert (H3 : (exp e * (1 + - e) <= exp e * / exp e)%R)
        by (apply Rmult_le_compat_l; lra).
      rewrite Rinv_r in H3 by lra. lra. }
    assert (H4 : (exp e * / 2 <= exp e * (1 - e))%R)
      by (apply Rmult_le_compat_l; lra).
    assert (H5 : (e * exp e <= e * 2)%R)
      by (apply Rmult_le_compat_l; lra).
    lra.
Qed.

Lemma ln_range (x : R) : (1 <= x < 68719476736)%R -> (0 <= ln x <= 36)%R.
Proof.
  intros [H1 H2]. split.
  - rewrite <- ln_1. destruct (Req_dec 1 x) as [<- | Hne]; [lra |].
    left. apply ln_increasing; lra.
  - assert (H36 : (68719476736 = 2 ^ 36)%R) by (simpl; lra).
    assert (Hl2 : (ln 2 <= 1)%R).
    { pose proof (exp_ineq1_le (ln 2)) as H. rewrite exp_ln in H by lra. lra. }
    assert (Hx : (ln x < ln (2 ^ 36))%R).
    { apply ln_increasing; [lra | rewrite <- H36; exact H2]. }
    rewrite ln_pow in Hx by lra. simpl INR in Hx. lra.
Qed.

Lemma Rabs_bounds (x b : R) : (Rabs x <= b)%R -> (- b <= x <= b)%R.
Proof.
  unfold Rabs. destruct (Rcase_abs x); intros H; lra.
Qed.

Lemma sqrt_IZR_bounds (n : Z) :
  0 <= n ->
  (IZR (Z.sqrt n) <= sqrt (IZR n) < IZR (Z.sqrt n) + 1)%R.
Proof.
  intros Hn.
  destruct (Z.sqrt_spec n Hn) as [Hlo Hhi].
  pose proof (Z.sqrt_nonneg n) as Hs.
  set (s := Z.sqrt n) in *.
  assert (Hs' : (0 <= IZR s)%R) by (apply IZR_le; exact Hs).
  split.
  - rewrite <- (sqrt_square (IZR s)) by exact Hs'.
    apply sqrt_le_1.
    + rewrite <- mult_IZR. apply IZR_le. nia.
    + apply IZR_le; lia.
    + rewrite <- mult_IZR. apply IZR_le. lia.
  - assert (H : (sqrt (IZR n) < IZR (s + 1))%R).
    { rewrite <- (sqrt_square (IZR (s + 1))) by (apply IZR_le; lia).
      apply sqrt_lt_1.
      - apply IZR_le; lia.
      - rewrite <- mult_IZR. apply IZR_le. nia.
      - rewrite <- mult_IZR. apply IZR_lt. lia. }
    rewrite plus_IZR in H. lra.
Qed.

(** Away from the squares, a square root below [2^18] is at least
    [2^-19] from the integers. *)
Lemma sqrt_IZR_gap (n : Z) :
  0 <= n < 2 ^ 36 ->
  Z.sqrt n * Z.sqrt n <> n ->
  (IZR (Z.sqrt n) + / 524288 <= sqrt (IZR n)
   <= IZR (Z.sqrt n) + 1 - / 524288)%R.
Proof.
  intros [Hn Hlt] Hsq.
  destruct (Z.sqrt_spec n Hn) as [Hlo Hhi].
  pose proof (Z.sqrt_nonneg n) as Hs.
  assert (Hk : Z.sqrt n < 2 ^ 18).
  { apply Z.sqrt_lt_square; lia. }
  set (k := Z.sqrt n) in *.
  assert (HK : (0 <= IZR k <= 262143)%R).
  { split; [apply IZR_le; lia |]. apply IZR_le. lia. }
  assert (Hn1 : (IZR k * IZR k + 1 <= IZR n)%R).
  { rewrite <- mult_IZR, <- plus_IZR. apply IZR_le. lia. }
  assert (Hn2 : (IZR n <= (IZR k + 1) * (IZR k + 1) - 1)%R).
  { replace ((IZR k + 1) * (IZR k + 1) - 1)%R
      with (IZR ((k + 1) * (k + 1) - 1))
      by (rewrite minus_IZR, mult_IZR, plus_IZR; reflexivity).
    apply IZR_le. lia. }
  split.
  - rewrite <- (sqrt_square (IZR k + / 524288)) by lra.
    apply sqrt_le_1; nra.
  - rewrite <- (sqrt_square (IZR k + 1 - / 524288)) by lra.
    apply sqrt_le_1; nra.
Qed.

(** The double value is close to the square root. *)
Lemma fp_value_close (D : double_ops) (a b : Z) :
  accurate_doubles D ->
  1 <= a -> 1 <= b -> a * b < 2 ^ 36 ->
  (Rabs (d_exp D (d_add D (d_log D (IZR a)) (d_log D (IZR b)) * 0.5)
         - sqrt (IZR (a * b))) <= / 1048576)%R.
Proof.
  intros (Hlog & Hadd & Hexp) Ha Hb Hab.
  assert (HA : (1 <= IZR a)%R) by (apply IZR_le; exact Ha).
  assert (HB : (1 <= IZR b)%R) by (apply IZR_le; exact Hb).
  assert (HAB : (1 <= IZR a * IZR b < 68719476736)%R).
  { rewrite <- mult_IZR. split; [apply IZR_le; nia |].
    apply IZR_lt. exact Hab. }
  assert (HlA : (0 <= ln (IZR a))%R).
  { rewrite <- ln_1. destruct (Req_dec 1 (IZR a)) as [<- | Hne]; [lra |].
    left. apply ln_increasing; lra. }
  assert (HlB : (0 <= ln (IZR b))%R).
  { rewrite <- ln_1. destruct (Req_dec 1 (IZR b)) as [<- | Hne]; [lra |].
    left. apply ln_increasing; lra. }
  pose proof (ln_range _ HAB) as HL. rewrite ln_mult in HL by lra.
  pose proof (Rabs_bounds _ _ (Hlog _ HA)) as E1.
  pose proof (Rabs_bounds _ _ (Hlog _ HB)) as E2.
  set (la := d_log D (IZR a)) in *. set (lb := d_log D (IZR b)) in *.
  rewrite d_eps_value in E1, E2.
  assert (Hsum : (0 <= la + lb)%R) by lra.
  pose proof (Rabs_bounds _ _ (Hadd la lb)) as E3.
  rewrite (Rabs_pos_eq (la + lb)) in E3 by exact Hsum.
  rewrite d_eps_value in E3.
  set (S := d_add D la lb) in *.
  set (h := (S * 0.5 - (ln (IZR a) + ln (IZR b)) * 0.5)%R).
  assert (Hh : (- / 1099511627776 <= h <= / 1099511627776)%R)
    by (unfold h; lra).
  pose proof (exp_small h (/ 1099511627776) ltac:(lra) Hh) as He.
  assert (Hy : exp (S * 0.5) = (sqrt (IZR (a * b)) * exp h)%R).
  { rewrite mult_IZR, <- exp_half_ln_sqrt by lra.
    rewrite <- exp_plus. f_equal. unfold h. ring. }
  pose proof (Rabs_bounds _ _ (Hexp (S * 0.5)%R)) as E4.
  rewrite d_eps_value, Hy in E4.
  set (r := d_exp D (S * 0.5)) in *.
  pose proof (sqrt_IZR_bounds (a * b) ltac:(nia)) as [Hs1 Hs2].
  assert (Hk : Z.sqrt (a * b) < 2 ^ 18)
    by (apply Z.sqrt_lt_square; lia).
  assert (Hs : (1 <= sqrt (IZR (a * b)) < 262144)%R).
  { assert (1 <= Z.sqrt (a * b))
      by (change 1 with (Z.sqrt 1) at 1; apply Z.sqrt_le_mono; nia).
    assert (1 <= IZR (Z.sqrt (a * b)) <= 262143)%R
      by (split; apply IZR_le; lia).
    lra. }
  set (s := sqrt (IZR (a * b))) in *.
  assert (Hp1 : (s * (1 - / 1099511627776) <= s * exp h)%R)
    by (apply Rmult_le_compat_l; lra).
  assert (Hp2 : (s * exp h <= s * (1 + 2 * / 1099511627776))%R)
    by (apply Rmult_le_compat_l; lra).
  apply Rabs_le. lra.
Qed.

(** The truncated double value is the integer square root or, at a
    square, possibly one less. *)
Lemma fp_exp_average_bounds (D : double_ops) (a b : Z) :
  accurate_doubles D ->
  1 <= a -> 1 <= b -> a * b < 2 ^ 36 ->
  Z.sqrt (a * b) - 1 <= fp_exp_average D a b <= Z.sqrt (a * b) /\
  (Z.sqrt (a * b) * Z.sqrt (a * b) <> a * b ->
   fp_exp_average D a b = Z.sqrt (a * b)).
Proof.
  intros HD Ha Hb Hab.
  pose proof (Rabs_bounds _ _ (fp_value_close D a b HD Ha Hb Hab)) as Hr.
  unfold fp_exp_average.
  set (r := d_exp D (d_add D (d_log D (IZR a)) (d_log D (IZR b)) * 0.5))
    in *.
  pose proof (sqrt_IZR_bounds (a * b) ltac:(nia)) as [Hs1 Hs2].
  assert (Hk1 : 1 <= Z.sqrt (a * b))
    by (change 1 with (Z.sqrt 1) at 1; apply Z.sqrt_le_mono; nia).
  assert (HK : (1 <= IZR (Z.sqrt (a * b)))%R) by (apply IZR_le; lia).
  destruct (Z.eq_dec (Z.sqrt (a * b) * Z.sqrt (a * b)) (a * b))
    as [Hsq | Hsq].
  - split; [| contradiction].
    assert (Hs : sqrt (IZR (a * b)) = IZR (Z.sqrt (a * b))).
    { rewrite <- Hsq at 1. rewrite mult_IZR. apply sqrt_square. lra. }
    rewrite Hs in Hr.
    destruct (Rle_dec (IZR (Z.sqrt (a * b))) r) as [Hge | Hlt].
    + rewrite (Rtrunc_between r (Z.sqrt (a * b))) by lra. lia.
    + rewrite (Rtrunc_between r (Z.sqrt (a * b) - 1));
        [lia | lra | rewrite minus_IZR; lra].
  - pose proof (sqrt_IZR_gap (a * b) ltac:(nia) Hsq) as [Hg1 Hg2].
    assert (E : Rtrunc r = Z.sqrt (a * b))
      by (apply Rtrunc_between; lra).
    rewrite E. split; [lia | intros _; reflexivity].
Qed.

Lemma exact_doubles_accurate : accurate_doubles exact_doubles.
Proof.
  assert (Hu : (0 <= d_eps)%R) by (rewrite d_eps_value; lra).
  repeat split; cbn; intros.
  - replace (ln x - ln x)%R with 0%R by ring. rewrite Rabs_R0.
    apply Rmult_le_pos; [exact Hu |].
    rewrite <- ln_1. destruct (Req_dec 1 x) as [<- | Hne]; [lra |].
    left. apply ln_increasing; lra.
  - replace (x + y - (x + y))%R with 0%R by ring. rewrite Rabs_R0.
    apply Rmult_le_pos; [exact Hu | apply Rabs_pos].
  - replace (exp x - exp x)%R with 0%R by ring. rewrite Rabs_R0.
    apply Rmult_le_pos; [exact Hu | left; apply exp_pos].
Qed.

Lemma low_doubles_accurate : accurate_doubles low_doubles.
Proof.
  assert (Hu : (0 <= d_eps)%R) by (rewrite d_eps_value; lra).
  repeat split; cbn; intros.
  - replace (ln x - ln x)%R with 0%R by ring. rewrite Rabs_R0.
    apply Rmult_le_pos; [exact Hu |].
    rewrite <- ln_1. destruct (Req_dec 1 x) as [<- | Hne]; [lra |].
    left. apply ln_increasing; lra.
  - replace (x + y - (x + y))%R with 0%R by ring. rewrite Rabs_R0.
    apply Rmult_le_pos; [exact Hu | apply Rabs_pos].
  - replace (exp x * (1 - d_eps) - exp x)%R with (- (d_eps * exp x))%R
      by ring.
    rewrite Rabs_Ropp, Rabs_pos_eq; [lra |].
    apply Rmult_le_pos; [exact Hu | left; apply exp_pos].
Qed.

(** With [low_doubles] the value at a square is one less than the
    root. *)
Lemma low_doubles_square (a b k : Z) :
  1 <= a -> 1 <= b -> a * b < 2 ^ 36 -> 0 <= k -> k * k = a * b ->
  fp_exp_average low_doubles a b = k - 1.
Proof.
  intros Ha Hb Hab Hk Hsq.
  assert (Hk1 : 1 <= k < 2 ^ 18) by nia.
  unfold fp_exp_average. cbn [d_log d_add d_exp low_doubles].
  rewrite exp_half_ln_sqrt by (apply IZR_lt; lia).
  rewrite <- mult_IZR, <- Hsq, mult_IZR, sqrt_square by (apply IZR_le; lia).
  assert (HK : (1 <= IZR k <= 262143)%R) by (split; apply IZR_le; lia).
  rewrite d_eps_value.
  apply Rtrunc_between; [| rewrite minus_IZR]; nra.
Qed.

(** [low_average] is what [low_doubles] computes. *)
Lemma low_doubles_average (a b : Z) :
  1 <= a -> 1 <= b -> a * b < 2 ^ 36 ->
  fp_exp_average low_doubles a b = low_average a b.
Proof.
  intros Ha Hb Hab. unfold low_average.
  destruct (Z.eqb_spec (Z.sqrt (a * b) * Z.sqrt (a * b)) (a * b))
    as [Hsq | Hsq].
  - apply low_doubles_square; try assumption. apply Z.sqrt_nonneg.
  - apply (fp_exp_average_bounds low_doubles a b low_doubles_accurate);
      assumption.
Qed.

(** Away from the squares every accurate arithmetic gives the value of
    the exact one. *)
Lemma fp_exp_average_exact (D : double_ops) (a b : Z) :
  accurate_doubles D ->
  1 <= a -> 1 <= b -> a * b < 2 ^ 36 ->
  Z.sqrt (a * b) * Z.sqrt (a * b) <> a * b ->
  fp_exp_average D a b = exp_average a b.
Proof.
  intros HD Ha Hb Hab Hsq.
  rewrite exp_average_isqrt by lia.
  apply (fp_exp_average_bounds D a b HD); assumption.
Qed.

(* ------------------------------------------------------------------ *)
(** * Arithmetic *)

Lemma half_range m n :
  0 < m < 2 ^ Z.of_nat (S n) -> m / 2 <> 0 -> 0 < m / 2 < 2 ^ Z.of_nat n.
Proof.
  intros Hm Hnz. rewrite Nat2Z.inj_succ, Z.pow_succ_r in Hm by lia.
  assert (0 <= m / 2) by (apply Z.div_pos; lia).
  split; [lia |]. apply Z.div_lt_upper_bound; lia.
Qed.

Lemma half_zero m : 0 < m -> m / 2 = 0 -> m = 1.
Proof.
  intros Hm Hz.
  pose proof (Z.div_mod m 2 ltac:(lia)).
  pose proof (Z.mod_pos_bound m 2 ltac:(lia)). lia.
Qed.

Lemma div_le_self u m : 0 <= u -> 0 < m -> u / m <= u.
Proof. intros Hu Hm. apply Z.div_le_upper_bound; nia. Qed.

Lemma pow2_log2_quot m : 0 < m -> m / 2 ^ Z.log2 m = 1.
Proof.
  intros Hm. destruct (Z.log2_spec m Hm) as [Hlo Hhi].
  pose proof (Z.log2_nonneg m) as Hl.
  rewrite Z.pow_succ_r in Hhi by exact Hl.
  assert (Hp : 0 < 2 ^ Z.log2 m) by (apply Z.pow_pos_nonneg; lia).
  symmetry. apply (Z.div_unique m (2 ^ Z.log2 m) 1 (m - 2 ^ Z.log2 m)); lia.
Qed.

Lemma isqrt_average_pos m : 0 < m -> 3 <= isqrt_average 10 m.
Proof.
  intros Hm. unfold isqrt_average.
  apply Z.sqrt_le_square; lia.
Qed.

Lemma land_lor_same x f : Z.land (Z.lor x f) f = f.
Proof.
  apply Z.bits_inj'. intros n _.
  rewrite Z.land_spec, Z.lor_spec.
  destruct (Z.testbit x n), (Z.testbit f n); reflexivity.
Qed.

Lemma land_or_if_defined x m f :
  Z.land x f = f -> Z.land (or_if_defined x m) f = f.
Proof.
  intros H. destruct m as [v |]; [| exact H]. cbn.
  apply Z.bits_inj'. intros n _.
  assert (Hn : Z.testbit (Z.land x f) n = Z.testbit f n)
    by (rewrite H; reflexivity).
  rewrite Z.land_spec in Hn. rewrite Z.land_spec, Z.lor_spec.
  destruct (Z.testbit x n), (Z.testbit f n), (Z.testbit v n);
    cbn in *; congruence.
Qed.

(* ------------------------------------------------------------------ *)
(** * smp_metrics *)

Section SizingFacts.
Context {silo : Type}.
Variable region_length : silo -> smp_stuff -> Z.
Variable sizeof_object : Z.

Local Abbreviation smp_stuff_len := (smp_stuff_len region_length).
Local Abbreviation max_nseg_init := (max_nseg_init region_length).
Local Abbreviation halve := (halve region_length sizeof_object).
Local Abbreviation smp_metrics_body :=
  (smp_metrics_body region_length sizeof_object).
Local Abbreviation smp_metrics := (smp_metrics region_length sizeof_object).
Local Abbreviation smp_metrics_run :=
  (smp_metrics_run region_length sizeof_object).
Local Abbreviation smp_metrics_fp :=
  (smp_metrics_fp region_length sizeof_object).
Local Abbreviation smp_metrics_low :=
  (smp_metrics_low region_length sizeof_object).
Local Abbreviation before_loop := (before_loop region_length).
Local Abbreviation after_loop := (after_loop region_length).
Local Abbreviation halved := (halved region_length sizeof_object).
Local Abbreviation sized := (sized region_length sizeof_object).

(** The two lengths [smp_metrics] asks for: the usable data capacity and
    the capacity of the segment table. *)
Local Abbreviation data_capacity sc :=
  (smp_stuff_len sc SMP_SPC_STUFF).
Local Abbreviation table_capacity sc :=
  (smp_stuff_len sc SMP_SEG1_STUFF).

(** The lengths are 64-bit values. *)
Lemma smp_stuff_len_range (sc : smp_sc silo) k :
  0 <= smp_stuff_len sc k < 2 ^ 64.
Proof.
  unfold smp_stuff_len, to_uint64. destruct (ident sc).
  - apply Z.mod_pos_bound. lia.
  - lia.
Qed.

(** They depend on [sc->ident] only. *)
Lemma smp_stuff_len_ident (sc sc' : smp_sc silo) k :
  ident sc' = ident sc -> smp_stuff_len sc' k = smp_stuff_len sc k.
Proof. unfold smp_stuff_len. intros ->. reflexivity. Qed.

(** The three ways through one iteration of the loop. *)
Lemma halve_stop n (sc : smp_sc silo) t :
  sizeof_object <= min_segl sc -> halve (S n) sc t = (t, Ret sc).
Proof.
  intros H. cbn [halve].
  destruct (Z.ltb_spec (min_segl sc) sizeof_object); [lia | reflexivity].
Qed.

Lemma halve_trap n (sc : smp_sc silo) t :
  min_segl sc < sizeof_object -> max_nseg sc / 2 = 0 ->
  halve (S n) sc t = (t, Abort Div_by_zero).
Proof.
  intros H Hz. cbn [halve].
  destruct (Z.ltb_spec (min_segl sc) sizeof_object); [| lia].
  unfold bind. cbn [max_nseg set_max_nseg]. rewrite Hz. reflexivity.
Qed.

Lemma halve_step n (sc : smp_sc silo) t :
  min_segl sc < sizeof_object -> max_nseg sc / 2 <> 0 ->
  halve (S n) sc t =
  halve n (set_min_segl (set_max_nseg sc (max_nseg sc / 2))
             (data_capacity sc / (max_nseg sc / 2))) t.
Proof.
  intros H Hnz. cbn [halve].
  destruct (Z.ltb_spec (min_segl sc) sizeof_object); [| lia].
  unfold bind. cbn [max_nseg set_max_nseg].
  rewrite udiv_nonzero by exact Hnz. reflexivity.
Qed.

(** What the loop has done when it ends normally. *)
Lemma halve_Ret n : forall (sc : smp_sc silo) t t' sc',
  halve n sc t = (t', Ret sc') -> t' = t /\ halved n sc sc'.
Proof.
  induction n as [| n IH]; intros sc t t' sc' H; [discriminate |].
  destruct (Z.lt_ge_cases (min_segl sc) sizeof_object) as [Hlt | Hge].
  - destruct (Z.eq_dec (max_nseg sc / 2) 0) as [Hz | Hnz].
    + rewrite halve_trap in H by assumption. discriminate.
    + rewrite halve_step in H by assumption.
      apply IH in H. destruct H as [-> H]. split; [reflexivity |].
      destruct H as [h1 h2 h3 h4 h5 h6 h7 h8]; cbn in *.
      constructor; cbn; try assumption.
      * destruct h6 as (k & Hkn & Hk). exists (S k). split; [lia |].
        rewrite Hk. rewrite Nat2Z.inj_succ, Z.pow_succ_r by lia.
        rewrite Z.div_div by lia. reflexivity.
      * intros _. apply h7. reflexivity.
      * intros Hp. apply h8.
        assert (0 <= max_nseg sc / 2) by (apply Z.div_pos; lia). lia.
  - rewrite halve_stop in H by assumption. inversion H; subst.
    split; [reflexivity |].
    constructor; try reflexivity; try lia; try tauto.
    exists O. split; [lia |]. cbn. rewrite Z.div_1_r. reflexivity.
Qed.

(** With the data capacity at least one record, the loop ends normally. *)
Lemma halve_enough n : forall (sc : smp_sc silo) t,
  0 < max_nseg sc < 2 ^ Z.of_nat n ->
  sizeof_object <= data_capacity sc ->
  min_segl sc = data_capacity sc / max_nseg sc ->
  exists sc', halve n sc t = (t, Ret sc').
Proof.
  induction n as [| n IH]; intros sc t Hm HU Hl.
  - cbn in Hm. lia.
  - destruct (Z.lt_ge_cases (min_segl sc) sizeof_object) as [Hlt | Hge].
    + assert (H2 : max_nseg sc / 2 <> 0).
      { intros Hz. apply half_zero in Hz; [| lia].
        rewrite Hl, Hz, Z.div_1_r in Hlt. lia. }
      rewrite halve_step by assumption.
      apply IH; [apply half_range; assumption | exact HU | reflexivity].
    + exists sc. apply halve_stop. exact Hge.
Qed.

(** With the data capacity below one record, the loop halves the count
    down to zero and divides by it. *)
Lemma halve_short n : forall (sc : smp_sc silo) t,
  0 < max_nseg sc < 2 ^ Z.of_nat n ->
  data_capacity sc < sizeof_object ->
  min_segl sc = data_capacity sc / max_nseg sc ->
  halve n sc t = (t, Abort Div_by_zero).
Proof.
  induction n as [| n IH]; intros sc t Hm HU Hl.
  - cbn in Hm. lia.
  - pose proof (smp_stuff_len_range sc SMP_SPC_STUFF) as HUr.
    assert (Hlt : min_segl sc < sizeof_object).
    { rewrite Hl.
      assert (data_capacity sc / max_nseg sc <= data_capacity sc)
        by (apply Z.div_le_upper_bound; nia).
      lia. }
    destruct (Z.eq_dec (max_nseg sc / 2) 0) as [Hz | Hnz].
    + apply halve_trap; assumption.
    + rewrite halve_step by assumption.
      apply IH; [apply half_range; assumption | exact HU | reflexivity].
Qed.

Lemma max_nseg_init_range (sc : smp_sc silo) :
  0 <= max_nseg_init sc < 2 ^ 32.
Proof. unfold max_nseg_init, to_unsigned. apply Z.mod_pos_bound. lia. Qed.

(** A first [max_nseg] of zero: line 102 divides by it. *)
Lemma body_zero f (sc : smp_sc silo) t :
  max_nseg_init sc = 0 ->
  smp_metrics_body f sc t =
  (t ++ [Stderr (Msg_min_nseg 10 (data_capacity sc / 10))],
   Abort Div_by_zero).
Proof.
  intros Hz. unfold smp_metrics_body, bind, fprintf_stderr, emit.
  sc_simpl. fold (max_nseg_init sc). rewrite Hz.
  reflexivity.
Qed.

(** The run of [smp_metrics] from a nonzero first [max_nseg], in terms
    of the run of the loop. *)
Lemma body_loop f (sc : smp_sc silo) t :
  max_nseg_init sc <> 0 ->
  smp_metrics_body f sc t =
  match halve 32 (before_loop sc)
              (t ++ [Stderr (Msg_min_nseg 10 (data_capacity sc / 10))]) with
  | (t1, Ret sc1) =>
      if f (min_nseg sc1) (max_nseg sc1) =? 0 then
        (t1 ++ [Stderr (Msg_max_nseg (max_nseg sc1) (min_segl sc1))],
         Abort Div_by_zero)
      else
        (t1 ++ [Stderr (Msg_max_nseg (max_nseg sc1) (min_segl sc1));
                Stderr (Msg_aim_nseg (aim_nseg (after_loop f sc1))
                                     (aim_segl (after_loop f sc1)));
                Stderr (Msg_free_reserve (free_reserve (after_loop f sc1)))],
         Ret (after_loop f sc1))
  | (t1, Abort e) => (t1, Abort e)
  end.
Proof.
  intros Hnz. unfold smp_metrics_body, bind, fprintf_stderr, emit.
  sc_simpl. fold (max_nseg_init sc).
  rewrite udiv_nonzero by exact Hnz.
  fold (before_loop sc).
  destruct (halve _ _ _) as [t1 [sc1 | e]]; [| reflexivity].
  sc_simpl. unfold udiv.
  destruct (f (min_nseg sc1) (max_nseg sc1) =? 0); [reflexivity |].
  unfold ret, after_loop. sc_simpl.
  rewrite <- !app_assoc. reflexivity.
Qed.

Lemma before_loop_facts (sc : smp_sc silo) :
  ident (before_loop sc) = ident sc /\
  min_nseg (before_loop sc) = 10 /\
  max_segl (before_loop sc) = data_capacity sc / 10 /\
  max_nseg (before_loop sc) = max_nseg_init sc /\
  min_segl (before_loop sc)
  = data_capacity (before_loop sc) / max_nseg (before_loop sc).
Proof. repeat split. Qed.

(** What a completed run has computed and written. *)
Lemma body_Ret f (sc : smp_sc silo) t t' sc' :
  smp_metrics_body f sc t = (t', Ret sc') ->
  sized f sc sc' /\
  t' = t ++ [Stderr (Msg_min_nseg 10 (data_capacity sc / 10));
             Stderr (Msg_max_nseg (max_nseg sc') (min_segl sc'));
             Stderr (Msg_aim_nseg (aim_nseg sc') (aim_segl sc'));
             Stderr (Msg_free_reserve (free_reserve sc'))].
Proof.
  intros H.
  destruct (Z.eq_dec (max_nseg_init sc) 0) as [Hz | Hnz].
  { rewrite body_zero in H by exact Hz. discriminate. }
  rewrite body_loop in H by exact Hnz.
  destruct (halve _ _ _) as [t1 [sc1 | e]] eqn:Hh; [| discriminate].
  apply halve_Ret in Hh. destruct Hh as [-> Hh].
  destruct Hh as [h1 h2 h3 h4 h5 h6 h7 h8].
  pose proof (max_nseg_init_range sc) as Hr.
  destruct (before_loop_facts sc) as (b1 & b2 & b3 & b4 & b5).
  rewrite b2 in h2. rewrite b3 in h3. rewrite b4 in h6, h8.
  specialize (h7 b5). specialize (h8 ltac:(lia)).
  change (data_capacity (before_loop sc)) with (data_capacity sc) in h7.
  assert (HU1 : data_capacity sc1 = data_capacity sc).
  { rewrite (smp_stuff_len_ident (before_loop sc) sc1) by exact h1.
    reflexivity. }
  destruct (Z.eqb_spec (f (min_nseg sc1) (max_nseg sc1)) 0) as [Hf | Hf];
    [discriminate |].
  inversion H; subst t' sc'; clear H.
  unfold after_loop; sc_simpl. rewrite HU1, h2 in *.
  split.
  - constructor; sc_simpl; try assumption; reflexivity.
  - rewrite <- app_assoc. reflexivity.
Qed.

(** The outcome of [smp_metrics_body] is decided by the first
    [max_nseg] and by whether the data capacity holds one record. *)
Lemma body_outcome f (sc : smp_sc silo) t :
  isqrt_like f ->
  (max_nseg_init sc <> 0 /\ sizeof_object <= data_capacity sc /\
   exists t' sc', smp_metrics_body f sc t = (t', Ret sc')) \/
  ((max_nseg_init sc = 0 \/ data_capacity sc < sizeof_object) /\
   smp_metrics_body f sc t =
   (t ++ [Stderr (Msg_min_nseg 10 (data_capacity sc / 10))],
    Abort Div_by_zero)).
Proof.
  intros Hf.
  destruct (Z.eq_dec (max_nseg_init sc) 0) as [Hz | Hnz].
  { right. split; [left; exact Hz | apply body_zero; exact Hz]. }
  pose proof (max_nseg_init_range sc) as Hr.
  rewrite body_loop by exact Hnz.
  destruct (Z.lt_ge_cases (data_capacity sc) sizeof_object) as [Hlt | Hge].
  - right. split; [right; exact Hlt |].
    rewrite (halve_short 32); [reflexivity | | exact Hlt | reflexivity].
    cbn [max_nseg before_loop set_min_segl set_max_nseg].
    change (2 ^ Z.of_nat 32) with (2 ^ 32). lia.
  - left. split; [exact Hnz |]. split; [exact Hge |].
    destruct (halve_enough 32 (before_loop sc)
                (t ++ [Stderr (Msg_min_nseg 10 (data_capacity sc / 10))]))
      as [sc1 Hsc1]; [| exact Hge | reflexivity |].
    { cbn [max_nseg before_loop set_min_segl set_max_nseg].
      change (2 ^ Z.of_nat 32) with (2 ^ 32). lia. }
    rewrite Hsc1.
    apply halve_Ret in Hsc1. destruct Hsc1 as [_ Hh].
    destruct Hh as [h1 h2 h3 h4 h5 h6 h7 h8].
    cbn [max_nseg min_nseg before_loop set_min_segl set_max_nseg
         set_max_segl set_min_nseg] in h2, h8.
    specialize (h8 ltac:(lia)).
    rewrite h2, Hf by exact h8.
    pose proof (isqrt_average_pos _ h8).
    destruct (Z.eqb_spec (isqrt_average 10 (max_nseg sc1)) 0); [lia |].
    eauto.
Qed.

(** The run depends on the aim point expression only at [min_nseg = 10]
    and a positive [max_nseg]. *)
Lemma body_ext f g (sc : smp_sc silo) t :
  isqrt_like f -> isqrt_like g ->
  smp_metrics_body f sc t = smp_metrics_body g sc t.
Proof.
  intros Hf Hg.
  destruct (Z.eq_dec (max_nseg_init sc) 0) as [Hz | Hnz].
  { rewrite !body_zero by exact Hz. reflexivity. }
  pose proof (max_nseg_init_range sc) as Hr.
  rewrite !body_loop by exact Hnz.
  destruct (halve _ _ _) as [t1 [sc1 | e]] eqn:Hh; [| reflexivity].
  apply halve_Ret in Hh. destruct Hh as [_ Hh].
  destruct Hh as [h1 h2 h3 h4 h5 h6 h7 h8].
  cbn [max_nseg min_nseg before_loop set_min_segl set_max_nseg
       set_max_segl set_min_nseg] in h2, h8.
  specialize (h8 ltac:(lia)).
  unfold after_loop. rewrite h2, Hf, Hg by exact h8. reflexivity.
Qed.

(** [smp_metrics] can be run with the integer square root. *)
Lemma smp_metrics_run_eq (sc : smp_sc silo) t :
  smp_metrics sc t = smp_metrics_run sc t.
Proof.
  apply body_ext; [apply exp_average_isqrt_like | intros m _; reflexivity].
Qed.

Lemma smp_metrics_Ret (sc : smp_sc silo) t t' sc' :
  smp_metrics sc t = (t', Ret sc') -> sized isqrt_average sc sc'.
Proof.
  intros H. rewrite smp_metrics_run_eq in H.
  apply body_Ret in H. apply H.
Qed.

Lemma smp_metrics_trace (sc : smp_sc silo) t t' sc' :
  smp_metrics sc t = (t', Ret sc') -> exists d, t' = t ++ d.
Proof.
  intros H. rewrite smp_metrics_run_eq in H.
  apply body_Ret in H. destruct H as [_ ->]. eauto.
Qed.

(** The run depends on the aim point expression only through its value
    at [min_nseg = 10] and the final [max_nseg]. *)
Lemma body_ext_on f g (sc : smp_sc silo) t :
  (forall m, 0 < m < 2 ^ 32 -> f 10 m = g 10 m) ->
  smp_metrics_body f sc t = smp_metrics_body g sc t.
Proof.
  intros Hfg.
  destruct (Z.eq_dec (max_nseg_init sc) 0) as [Hz | Hnz].
  { rewrite !body_zero by exact Hz. reflexivity. }
  pose proof (max_nseg_init_range sc) as Hr.
  rewrite !body_loop by exact Hnz.
  destruct (halve _ _ _) as [t1 [sc1 | e]] eqn:Hh; [| reflexivity].
  apply halve_Ret in Hh. destruct Hh as [_ Hh].
  destruct Hh as [h1 h2 h3 h4 h5 (k & _ & h6) h7 h8].
  cbn [max_nseg min_nseg before_loop set_min_segl set_max_nseg
       set_max_segl set_min_nseg] in h2, h6, h8.
  specialize (h8 ltac:(lia)).
  assert (Hm : 0 < max_nseg sc1 < 2 ^ 32).
  { split; [exact h8 |]. rewrite h6.
    assert (max_nseg_init sc / 2 ^ Z.of_nat k <= max_nseg_init sc)
      by (apply div_le_self; [lia | apply Z.pow_pos_nonneg; lia]).
    lia. }
  unfold after_loop. rewrite h2, (Hfg _ Hm). reflexivity.
Qed.

(** What a completed run in double arithmetic has computed. *)
Lemma smp_metrics_fp_Ret D (sc : smp_sc silo) t t' sc' :
  smp_metrics_fp D sc t = (t', Ret sc') ->
  min_nseg sc' = 10 /\
  0 < max_nseg sc' < 2 ^ 32 /\
  aim_nseg sc' = fp_exp_average D (min_nseg sc') (max_nseg sc').
Proof.
  intros H. apply body_Ret in H. destruct H as [Hs _].
  destruct Hs as [_ _ _ Hmin _ (k & _ & Hk) Hpos _ _ Haim _ _ _].
  pose proof (max_nseg_init_range sc) as Hr.
  split; [exact Hmin |]. split.
  - split; [exact Hpos |]. rewrite Hk.
    assert (max_nseg_init sc / 2 ^ Z.of_nat k <= max_nseg_init sc)
      by (apply div_le_self; [lia | apply Z.pow_pos_nonneg; lia]).
    lia.
  - rewrite Hmin. exact Haim.
Qed.

(** [smp_metrics_fp low_doubles] can be run. *)
Lemma smp_metrics_low_eq (sc : smp_sc silo) t :
  smp_metrics_fp low_doubles sc t = smp_metrics_low sc t.
Proof.
  apply body_ext_on. intros m Hm. apply low_doubles_average; lia.
Qed.

(** A completed run stays the same under another aim point expression
    with the same value at the final [max_nseg]. *)
Lemma body_agree f g (sc : smp_sc silo) t t' sc' :
  smp_metrics_body f sc t = (t', Ret sc') ->
  g 10 (max_nseg sc') = f 10 (max_nseg sc') ->
  smp_metrics_body g sc t = (t', Ret sc').
Proof.
  intros H E.
  destruct (Z.eq_dec (max_nseg_init sc) 0) as [Hz | Hnz].
  { rewrite body_zero in H by exact Hz. discriminate. }
  rewrite body_loop in H |- * by exact Hnz.
  destruct (halve _ _ _) as [t1 [sc1 | e]] eqn:Hh; [| discriminate].
  apply halve_Ret in Hh. destruct Hh as [_ Hh].
  destruct Hh as [h1 h2 h3 h4 h5 h6 h7 h8].
  cbn [max_nseg min_nseg before_loop set_min_segl set_max_nseg
       set_max_segl set_min_nseg] in h2.
  unfold after_loop in *. rewrite h2 in *.
  destruct (Z.eqb_spec (f 10 (max_nseg sc1)) 0); [discriminate |].
  assert (Hmax : max_nseg sc' = max_nseg sc1).
  { pose proof (f_equal snd H) as Hsc. cbn [snd] in Hsc.
    injection Hsc as <-. reflexivity. }
  rewrite Hmax in E. rewrite E.
  destruct (Z.eqb_spec (f 10 (max_nseg sc1)) 0); [contradiction |].
  exact H.
Qed.

(** A run in accurate double arithmetic that ends with a product
    [min_nseg * max_nseg] that is no square is the run of
    [smp_metrics]. *)
Lemma smp_metrics_fp_exact D (sc : smp_sc silo) t t' sc' :
  accurate_doubles D ->
  smp_metrics_fp D sc t = (t', Ret sc') ->
  Z.sqrt (10 * max_nseg sc') * Z.sqrt (10 * max_nseg sc')
    <> 10 * max_nseg sc' ->
  smp_metrics sc t = (t', Ret sc').
Proof.
  intros HD H Hsq.
  destruct (smp_metrics_fp_Ret D sc t t' sc' H) as (_ & Hm & _).
  apply (body_agree _ _ _ _ _ _ H).
  symmetry. apply fp_exp_average_exact; try assumption; lia.
Qed.

(** The two ways a run of [smp_metrics] ends, with its trace. *)
Lemma smp_metrics_outcome (sc : smp_sc silo) t :
  (max_nseg_init sc <> 0 /\ sizeof_object <= data_capacity sc /\
   exists sc',
     smp_metrics sc t = (t ++ sizing_events sc', Ret sc') /\
     sized isqrt_average sc sc') \/
  ((max_nseg_init sc = 0 \/ data_capacity sc < sizeof_object) /\
   smp_metrics sc t
   = (t ++ [Stderr (Msg_min_nseg 10 (data_capacity sc / 10))],
      Abort Div_by_zero)).
Proof.
  destruct (body_outcome exp_average sc t exp_average_isqrt_like)
    as [(Hnz & Hge & t' & sc' & H) | (Hc & H)];
    fold (smp_metrics sc t) in H.
  - left. split; [exact Hnz |]. split; [exact Hge |]. exists sc'.
    pose proof H as H'. rewrite smp_metrics_run_eq in H'.
    apply body_Ret in H'. destruct H' as [Hs ->].
    split; [| exact Hs]. rewrite H. unfold sizing_events.
    destruct Hs as [_ _ _ Hmin Hmaxl _ _ _ _ _ _ _ _].
    rewrite Hmin, Hmaxl. reflexivity.
  - right. split; [exact Hc | exact H].
Qed.

(** The loop stops at the first halving after which a record fits. *)
Lemma halve_first_fit n : forall (sc : smp_sc silo) t t' sc',
  halve n sc t = (t', Ret sc') ->
  0 < max_nseg sc ->
  min_segl sc = data_capacity sc / max_nseg sc ->
  exists k : nat,
    (k < n)%nat /\
    max_nseg sc' = max_nseg sc / 2 ^ Z.of_nat k /\
    first_fit (data_capacity sc) sizeof_object (max_nseg sc) k.
Proof.
  induction n as [| n IH]; intros sc t t' sc' H Hpos Hl; [discriminate |].
  destruct (Z.lt_ge_cases (min_segl sc) sizeof_object) as [Hlt | Hge].
  - destruct (Z.eq_dec (max_nseg sc / 2) 0) as [Hz | Hnz].
    { rewrite halve_trap in H by assumption. discriminate. }
    rewrite halve_step in H by assumption.
    assert (Hhalf : 0 < max_nseg sc / 2).
    { assert (0 <= max_nseg sc / 2) by (apply Z.div_pos; lia). lia. }
    apply IH in H; [| exact Hhalf | reflexivity].
    cbn [max_nseg set_min_segl set_max_nseg] in H.
    change (smp_stuff_len
              (set_min_segl (set_max_nseg sc (max_nseg sc / 2))
                 (data_capacity sc / (max_nseg sc / 2))) SMP_SPC_STUFF)
      with (data_capacity sc) in H.
    destruct H as (k & Hk & Hm & Hbefore & Hfit).
    exists (S k). split; [lia |]. unfold first_fit.
    rewrite Nat2Z.inj_succ.
    assert (Hdiv : forall j, 0 <= j ->
              max_nseg sc / 2 / 2 ^ j = max_nseg sc / 2 ^ Z.succ j).
    { intros j Hj. rewrite Z.pow_succ_r by exact Hj.
      apply Z.div_div; [lia |]. apply Z.pow_pos_nonneg; lia. }
    split; [rewrite Hm; apply Hdiv; lia |].
    split.
    + intros j Hj. destruct (Z.eq_dec j 0) as [-> | Hj0].
      * rewrite Z.pow_0_r, Z.div_1_r, <- Hl. exact Hlt.
      * replace j with (Z.succ (j - 1)) by lia.
        rewrite <- Hdiv by lia. apply Hbefore. lia.
    + rewrite <- Hdiv by lia. exact Hfit.
  - rewrite halve_stop in H by exact Hge. inversion H; subst.
    exists O. split; [lia |]. unfold first_fit.
    change (Z.of_nat 0) with 0. rewrite Z.pow_0_r, Z.div_1_r.
    split; [reflexivity |]. split; [intros j Hj; lia |].
    rewrite <- Hl. exact Hge.
Qed.

(** At most one number of halvings is the first that fits. *)
Lemma first_fit_unique u r m k1 k2 :
  first_fit u r m k1 -> first_fit u r m k2 -> k1 = k2.
Proof.
  intros [Hb1 Hf1] [Hb2 Hf2].
  destruct (Nat.lt_trichotomy k1 k2) as [Hlt | [Heq | Hgt]].
  - specialize (Hb2 (Z.of_nat k1) ltac:(lia)). lia.
  - exact Heq.
  - specialize (Hb1 (Z.of_nat k2) ltac:(lia)). lia.
Qed.

(** A completed run, in terms of the run of the loop. *)
Lemma smp_metrics_loop (sc : smp_sc silo) t t' sc' :
  smp_metrics sc t = (t', Ret sc') ->
  exists t1 sc1,
    halve 32 (before_loop sc) t1 = (t1, Ret sc1) /\
    sc' = after_loop isqrt_average sc1.
Proof.
  intros H. rewrite smp_metrics_run_eq in H.
  destruct (Z.eq_dec (max_nseg_init sc) 0) as [Hz | Hnz].
  { unfold smp_metrics_run in H. rewrite body_zero in H by exact Hz.
    discriminate. }
  unfold smp_metrics_run in H. rewrite body_loop in H by exact Hnz.
  destruct (halve _ _ _) as [t1 [sc1 | e]] eqn:Hh; [| discriminate].
  pose proof (halve_Ret _ _ _ _ _ Hh) as [-> _].
  destruct (_ =? 0); [discriminate |].
  inversion H; subst. eauto.
Qed.

(** The halvings of a completed run are the first that fit. *)
Lemma smp_metrics_halvings (sc : smp_sc silo) t t' sc' :
  smp_metrics sc t = (t', Ret sc') ->
  exists k : nat,
    (k <= 31)%nat /\
    max_nseg sc' = max_nseg_init sc / 2 ^ Z.of_nat k /\
    first_fit (data_capacity sc) sizeof_object (max_nseg_init sc) k.
Proof.
  intros H.
  pose proof (smp_metrics_Ret _ _ _ _ H) as Hs.
  destruct Hs as [_ _ Hinit _ _ _ _ _ _ _ _ _ _].
  pose proof (max_nseg_init_range sc) as Hr.
  apply smp_metrics_loop in H. destruct H as (t1 & sc1 & Hh & ->).
  apply halve_first_fit in Hh;
    [| cbn [max_nseg before_loop set_min_segl set_max_nseg]; lia
     | reflexivity].
  cbn [max_nseg before_loop set_min_segl set_max_nseg] in Hh.
  change (smp_stuff_len (before_loop sc) SMP_SPC_STUFF)
    with (data_capacity sc) in Hh.
  destruct Hh as (k & Hk & Hm & Hfit).
  exists k. split; [lia |]. split; assumption.
Qed.


(** C2 (amended).  When the first [max_nseg], the 32-bit value of
    [segment table / 10], is not zero and the data space holds at least
    one record ([sizeof(struct object)] bytes), the halving loop ends,
    [smp_metrics] completes, and then [min_segl = data space / max_nseg]
    is at least one record; the loop has halved the first [max_nseg]
    [k] times, [k <= 31] being the least number of halvings after which
    a record fits.  Otherwise the loop does not end normally:
    [smp_metrics] stops in a division by zero, having written its first
    line only. *)
Theorem smp_metrics_halving_terminates (sc : smp_sc silo) t :
  ((table_capacity sc / 10) mod 2 ^ 32 <> 0 ->
   sizeof_object <= data_capacity sc ->
   exists t' sc',
     smp_metrics sc t = (t', Ret sc') /\
     sizeof_object <= min_segl sc' /\
     min_segl sc' = data_capacity sc / max_nseg sc' /\
     exists k : nat,
       (k <= 31)%nat /\
       max_nseg sc' = ((table_capacity sc / 10) mod 2 ^ 32) / 2 ^ Z.of_nat k /\
       first_fit (data_capacity sc) sizeof_object
                 ((table_capacity sc / 10) mod 2 ^ 32) k) /\
  ((table_capacity sc / 10) mod 2 ^ 32 = 0 \/
   data_capacity sc < sizeof_object ->
   smp_metrics sc t
   = (t ++ [Stderr (Msg_min_nseg 10 (data_capacity sc / 10))],
      Abort Div_by_zero)).
Proof.
  change ((table_capacity sc / 10) mod 2 ^ 32) with (max_nseg_init sc).
  split.
  - intros Hnz HU.
    destruct (smp_metrics_outcome sc t)
      as [(_ & _ & sc' & H & Hs) | ([Hz | Hlt] & _)]; [| contradiction | lia].
    exists (t ++ sizing_events sc'), sc'. split; [exact H |].
    pose proof (smp_metrics_halvings _ _ _ _ H) as Hk.
    destruct Hs as [_ _ _ _ _ _ _ Hminl Hrec _ _ _ _].
    split; [exact Hrec |]. split; [exact Hminl | exact Hk].
  - intros Hc.
    destruct (smp_metrics_outcome sc t) as [(Hnz & Hge & _) | (_ & H)];
      [| exact H].
    destruct Hc as [Hz | Hlt]; [contradiction | lia].
Qed.

(** C3 (amended).  A completed [smp_metrics] has computed, with integer
    division: [min_nseg = 10]; [max_segl = data space / 10]; [max_nseg]
    from the first value [segment table / 10] reduced modulo [2^32] (the
    field is an [unsigned]), halved the least number of times after which
    [data space / max_nseg] is at least one record, so that the first
    value itself is kept when it gives such a segment length, and this is
    [segment table / 10] when the table is shorter than [10 * 2^32]
    bytes; [min_segl = data space / max_nseg];
    [aim_segl = data space / aim_nseg]; and [free_reserve] is
    [aim_segl * 10] modulo [2^64], which is [aim_segl * 10] itself when
    [aim_nseg] is at least 10. *)
Theorem smp_metrics_formulas (sc : smp_sc silo) t t' sc' :
  smp_metrics sc t = (t', Ret sc') ->
  min_nseg sc' = 10 /\
  max_segl sc' = data_capacity sc / 10 /\
  (exists k : nat,
     (k <= 31)%nat /\
     max_nseg sc' = ((table_capacity sc / 10) mod 2 ^ 32) / 2 ^ Z.of_nat k /\
     first_fit (data_capacity sc) sizeof_object
               ((table_capacity sc / 10) mod 2 ^ 32) k) /\
  (sizeof_object <= data_capacity sc / ((table_capacity sc / 10) mod 2 ^ 32) ->
   max_nseg sc' = (table_capacity sc / 10) mod 2 ^ 32) /\
  (table_capacity sc < 10 * 2 ^ 32 ->
   sizeof_object <= data_capacity sc / (table_capacity sc / 10) ->
   max_nseg sc' = table_capacity sc / 10) /\
  min_segl sc' = data_capacity sc / max_nseg sc' /\
  aim_segl sc' = data_capacity sc / aim_nseg sc' /\
  free_reserve sc' = (aim_segl sc' * 10) mod 2 ^ 64 /\
  (10 <= aim_nseg sc' -> free_reserve sc' = aim_segl sc' * 10).
Proof.
  intros H.
  pose proof (smp_metrics_halvings _ _ _ _ H) as Hk.
  apply smp_metrics_Ret in H.
  destruct H as [_ _ _ Hmin Hmaxl _ Hpos Hminl _ Haim Hanz Haiml Hfree].
  pose proof (smp_stuff_len_range sc SMP_SPC_STUFF) as HU.
  pose proof (smp_stuff_len_range sc SMP_SEG1_STUFF) as HS.
  change ((table_capacity sc / 10) mod 2 ^ 32) with (max_nseg_init sc).
  assert (Hfirst : sizeof_object <= data_capacity sc / max_nseg_init sc ->
                   max_nseg sc' = max_nseg_init sc).
  { intros Hfit. destruct Hk as (k & _ & Hm & Hf).
    assert (H0 : first_fit (data_capacity sc) sizeof_object
                           (max_nseg_init sc) 0).
    { split; [intros j Hj; lia |].
      change (Z.of_nat 0) with 0. rewrite Z.pow_0_r, Z.div_1_r.
      exact Hfit. }
    rewrite Hm, (first_fit_unique _ _ _ _ _ Hf H0).
    change (Z.of_nat 0) with 0. rewrite Z.pow_0_r, Z.div_1_r.
    reflexivity. }
  assert (Hsmall : table_capacity sc < 10 * 2 ^ 32 ->
                   max_nseg_init sc = table_capacity sc / 10).
  { intros Hs. unfold max_nseg_init, to_unsigned.
    apply Z.mod_small. split; [apply Z.div_pos; lia |].
    apply Z.div_lt_upper_bound; lia. }
  split; [exact Hmin |]. split; [exact Hmaxl |]. split; [exact Hk |].
  split; [exact Hfirst |].
  split; [intros Hs Hfit; rewrite <- (Hsmall Hs) in *; auto |].
  split; [exact Hminl |]. split; [exact Haiml |]. split; [exact Hfree |].
  intros H10. rewrite Hfree. unfold to_uint64. apply Z.mod_small.
  rewrite Haiml.
  assert (0 <= data_capacity sc / aim_nseg sc')
    by (apply Z.div_pos; lia).
  assert (aim_nseg sc' * (data_capacity sc / aim_nseg sc')
          <= data_capacity sc)
    by (apply Z.mul_div_le; lia).
  nia.
Qed.

(** C4 (amended).  [aim_nseg] is the value of
    [(unsigned) exp((log(min_nseg) + log(max_nseg)) * .5)] in the double
    arithmetic of the platform: the geometric mean of [min_nseg] and
    [max_nseg] with its fraction discarded, not rounded.  With [log],
    the sum and [exp] accurate to a relative error of [2^-46], it is the
    integer square root of [min_nseg * max_nseg] whenever that product
    is no square; when the product is the square of [k], it is [k] or
    [k - 1], as the rounding of the operations falls.  For
    [min_nseg = 10] and [max_nseg = 104857] it is 1023. *)
Theorem smp_metrics_aim_point D (sc : smp_sc silo) t t' sc' :
  accurate_doubles D ->
  smp_metrics_fp D sc t = (t', Ret sc') ->
  aim_nseg sc' = fp_exp_average D (min_nseg sc') (max_nseg sc') /\
  Z.sqrt (min_nseg sc' * max_nseg sc') - 1 <= aim_nseg sc'
    <= Z.sqrt (min_nseg sc' * max_nseg sc') /\
  (Z.sqrt (min_nseg sc' * max_nseg sc')
     * Z.sqrt (min_nseg sc' * max_nseg sc')
   <> min_nseg sc' * max_nseg sc' ->
   aim_nseg sc' = Z.sqrt (min_nseg sc' * max_nseg sc')) /\
  (max_nseg sc' = 104857 -> aim_nseg sc' = 1023).
Proof.
  intros HD H.
  destruct (smp_metrics_fp_Ret D sc t t' sc' H) as (Hmin & Hm & Haim).
  rewrite Hmin in *.
  destruct (fp_exp_average_bounds D 10 (max_nseg sc') HD)
    as [Hb Hns]; try lia.
  rewrite <- Haim in Hb, Hns.
  split; [exact Haim |]. split; [exact Hb |]. split; [exact Hns |].
  intros E. rewrite E in Hns. apply Hns. vm_compute. discriminate.
Qed.

(** C5.  For every silo for which [smp_metrics] completes with
    [aim_nseg > 10], the free reserve is strictly less than the usable
    data capacity ([smp_stuff_len(sc, SMP_SPC_STUFF)]). *)
Theorem smp_metrics_reserve_below_capacity (sc : smp_sc silo) t t' sc' :
  0 < sizeof_object ->
  smp_metrics sc t = (t', Ret sc') ->
  10 < aim_nseg sc' ->
  free_reserve sc' < data_capacity sc.
Proof.
  intros HR H Haim. apply smp_metrics_Ret in H.
  destruct H as [_ _ _ _ _ _ Hpos Hminl Hrec _ _ Haiml Hfree].
  pose proof (smp_stuff_len_range sc SMP_SPC_STUFF) as HU.
  assert (HU1 : 1 <= data_capacity sc).
  { assert (data_capacity sc / max_nseg sc' <= data_capacity sc)
      by (apply div_le_self; lia).
    lia. }
  assert (Hq : 0 <= data_capacity sc / aim_nseg sc')
    by (apply Z.div_pos; lia).
  assert (Hm : aim_nseg sc' * (data_capacity sc / aim_nseg sc')
               <= data_capacity sc)
    by (apply Z.mul_div_le; lia).
  rewrite Hfree, Haiml. unfold to_uint64.
  rewrite Z.mod_small by nia.
  destruct (Z.eq_dec (data_capacity sc / aim_nseg sc') 0) as [Hz | Hnz];
    [rewrite Hz; lia | nia].
Qed.

(** C9.  The divisions by [max_nseg] are unguarded.  A segment table of
    less than 10 bytes makes the first [max_nseg] zero, and a first
    [max_nseg] of zero makes [smp_metrics] divide by zero (line 102).
    With a first [max_nseg] that is not zero, halving reaches zero before
    [min_segl] reaches one record exactly when the data space is shorter
    than one record, and then [smp_metrics] divides by zero (line 106).
    In every other run all divisors are nonzero: a run that does not end
    in the division by zero completes, from a first [max_nseg] that is
    not zero and a data space of at least one record, with
    [min_nseg = 10], [max_nseg >= 1] and [aim_nseg >= 1]. *)
Theorem smp_metrics_division_unguarded (sc : smp_sc silo) t :
  (table_capacity sc < 10 -> max_nseg_init sc = 0) /\
  (max_nseg_init sc = 0 ->
   snd (smp_metrics sc t) = Abort Div_by_zero) /\
  (max_nseg_init sc <> 0 ->
   ((forall k, 0 <= k ->
       max_nseg_init sc / 2 ^ k <> 0 ->
       data_capacity sc / (max_nseg_init sc / 2 ^ k) < sizeof_object)
    <-> data_capacity sc < sizeof_object)) /\
  (data_capacity sc < sizeof_object ->
   snd (smp_metrics sc t) = Abort Div_by_zero) /\
  (snd (smp_metrics sc t) = Abort Div_by_zero \/
   exists sc', snd (smp_metrics sc t) = Ret sc' /\
     max_nseg_init sc <> 0 /\ sizeof_object <= data_capacity sc /\
     min_nseg sc' = 10 /\ 1 <= max_nseg sc' /\ 1 <= aim_nseg sc').
Proof.
  pose proof (smp_stuff_len_range sc SMP_SPC_STUFF) as HU.
  pose proof (smp_stuff_len_range sc SMP_SEG1_STUFF) as HS.
  pose proof (max_nseg_init_range sc) as Hr.
  pose proof (body_outcome exp_average sc t exp_average_isqrt_like) as Hout.
  fold (smp_metrics sc t) in Hout.
  split; [| split; [| split; [| split]]].
  - intros Hs. unfold max_nseg_init.
    rewrite Z.div_small by lia. reflexivity.
  - intros Hz.
    destruct Hout as [(Hnz & _) | (_ & ->)]; [contradiction | reflexivity].
  - intros Hnz. split.
    + intros Hall.
      specialize (Hall (Z.log2 (max_nseg_init sc))
                       (Z.log2_nonneg _)).
      rewrite pow2_log2_quot in Hall by lia.
      rewrite Z.div_1_r in Hall. apply Hall. lia.
    + intros Hlt k Hk Hq.
      assert (0 < 2 ^ k) by (apply Z.pow_pos_nonneg; lia).
      assert (0 <= max_nseg_init sc / 2 ^ k)
        by (apply Z.div_pos; lia).
      assert (data_capacity sc / (max_nseg_init sc / 2 ^ k)
              <= data_capacity sc)
        by (apply div_le_self; lia).
      lia.
  - intros Hlt.
    destruct Hout as [(_ & Hge & _) | (_ & ->)]; [lia | reflexivity].
  - destruct Hout as [(Hnz & Hge & t' & sc' & H) | (_ & ->)];
      [right | left; reflexivity].
    exists sc'. rewrite H. split; [reflexivity |].
    apply smp_metrics_Ret in H.
    destruct H as [_ _ _ Hmin _ _ Hpos _ _ Haim _ _ _].
    pose proof (isqrt_average_pos _ Hpos).
    repeat split; try assumption; lia.
Qed.

(* ------------------------------------------------------------------ *)
(** ** Further properties of smp_metrics *)

(** X1.  [smp_metrics] writes the seven sizing fields and nothing else:
    in a completed run the parent, the descriptor, the file name, the
    alignment, the granularity, the media size, the base address, the
    silo behind [sc->ident] and the list of segments are as they
    were. *)
Theorem smp_metrics_frame (sc : smp_sc silo) t t' sc' :
  smp_metrics sc t = (t', Ret sc') -> carried sc' = carried sc.
Proof.
  intros H. apply smp_metrics_Ret in H.
  destruct H as [Hid Hrest _ _ _ _ _ _ _ _ _ _ _].
  unfold carried. inversion Hrest. congruence.
Qed.

(** X2.  In a completed run the final [max_nseg] is the first
    [max_nseg] halved [k] times, where [k], at most 31, is the least
    number of halvings after which [data capacity / max_nseg] is at
    least one record; when the first [max_nseg] already gives such a
    segment length it is kept as it is. *)
Theorem smp_metrics_first_fit (sc : smp_sc silo) t t' sc' :
  smp_metrics sc t = (t', Ret sc') ->
  (exists k : nat,
     (k <= 31)%nat /\
     max_nseg sc' = max_nseg_init sc / 2 ^ Z.of_nat k /\
     first_fit (data_capacity sc) sizeof_object (max_nseg_init sc) k) /\
  (sizeof_object <= data_capacity sc / max_nseg_init sc ->
   max_nseg sc' = max_nseg_init sc).
Proof.
  intros H. pose proof (smp_metrics_halvings _ _ _ _ H) as Hk.
  split; [exact Hk |].
  destruct Hk as (k & _ & Hm & Hfit).
  intros Hfirst. rewrite Hm.
  assert (H0 : first_fit (data_capacity sc) sizeof_object
                         (max_nseg_init sc) 0).
  { split; [intros j Hj; lia |].
    change (Z.of_nat 0) with 0. rewrite Z.pow_0_r, Z.div_1_r.
    exact Hfirst. }
  rewrite (first_fit_unique _ _ _ _ _ Hfit H0).
  change (Z.of_nat 0) with 0. rewrite Z.pow_0_r, Z.div_1_r. reflexivity.
Qed.

(** X3.  What a completed run has sized fits into the data space:
    [max_nseg] segments of [min_segl] bytes, [aim_nseg] segments of
    [aim_segl] bytes and 10 segments of [max_segl] bytes each take no more
    than the usable data capacity, and the data space holds one record
    for every one of the [max_nseg] segments. *)
Theorem smp_metrics_segments_fit (sc : smp_sc silo) t t' sc' :
  smp_metrics sc t = (t', Ret sc') ->
  max_nseg sc' * min_segl sc' <= data_capacity sc /\
  aim_nseg sc' * aim_segl sc' <= data_capacity sc /\
  min_nseg sc' * max_segl sc' <= data_capacity sc /\
  max_nseg sc' * sizeof_object <= data_capacity sc.
Proof.
  intros H. apply smp_metrics_Ret in H.
  destruct H as [_ _ _ Hmin Hmaxl _ Hpos Hminl Hrec Haim _ Haiml _].
  pose proof (smp_stuff_len_range sc SMP_SPC_STUFF) as HU.
  pose proof (isqrt_average_pos _ Hpos) as Ha. rewrite <- Haim in Ha.
  assert (H1 : max_nseg sc' * min_segl sc' <= data_capacity sc)
    by (rewrite Hminl; apply Z.mul_div_le; lia).
  split; [exact H1 |].
  split; [rewrite Haiml; apply Z.mul_div_le; lia |].
  split; [rewrite Hmin, Hmaxl; apply Z.mul_div_le; lia |].
  nia.
Qed.

(** X4.  In a completed run the value converted to [unsigned] at line
    122 is in the range of the type, and so is [max_nseg]:
    [3 <= aim_nseg < 2^18] and
    [1 <= max_nseg <= first max_nseg < 2^32]. *)
Theorem smp_metrics_counts_in_range (sc : smp_sc silo) t t' sc' :
  smp_metrics sc t = (t', Ret sc') ->
  3 <= aim_nseg sc' < 2 ^ 18 /\
  1 <= max_nseg sc' <= max_nseg_init sc /\
  max_nseg_init sc < 2 ^ 32.
Proof.
  intros H. apply smp_metrics_Ret in H.
  destruct H as [_ _ _ _ _ (k & _ & Hk) Hpos _ _ Haim _ _ _].
  pose proof (max_nseg_init_range sc) as Hr.
  assert (Hle : max_nseg sc' <= max_nseg_init sc).
  { rewrite Hk. apply div_le_self; [lia |].
    apply Z.pow_pos_nonneg; lia. }
  split; [| lia].
  rewrite Haim. split; [apply isqrt_average_pos; exact Hpos |].
  unfold isqrt_average. apply Z.sqrt_lt_square; lia.
Qed.

(** X5.  A completed run has written four lines to stderr, with the
    values it leaves in the handle.  A run that does not complete ends
    in the division by zero and has written the first line only. *)
Theorem smp_metrics_diagnostics (sc : smp_sc silo) t :
  match smp_metrics sc t with
  | (t', Ret sc') =>
      t' = t ++ [Stderr (Msg_min_nseg (min_nseg sc') (max_segl sc'));
                 Stderr (Msg_max_nseg (max_nseg sc') (min_segl sc'));
                 Stderr (Msg_aim_nseg (aim_nseg sc') (aim_segl sc'));
                 Stderr (Msg_free_reserve (free_reserve sc'))]
  | (t', Abort e) =>
      e = Div_by_zero /\
      t' = t ++ [Stderr (Msg_min_nseg 10 (data_capacity sc / 10))]
  end.
Proof.
  rewrite smp_metrics_run_eq.
  destruct (body_outcome isqrt_average sc t ltac:(intros m _; reflexivity))
    as [(_ & _ & t' & sc' & H) | (_ & H)];
    unfold smp_metrics_run; rewrite H.
  - apply body_Ret in H. destruct H as [Hs ->].
    destruct Hs as [_ _ _ Hmin Hmaxl _ _ _ _ _ _ _ _].
    rewrite Hmin, Hmaxl. reflexivity.
  - split; reflexivity.
Qed.

(** X6.  The outcome of [smp_metrics] depends on the silo behind
    [sc->ident] only: two handles on the same silo, whatever their other
    fields (base address, descriptor, earlier sizing values) and traces,
    either both end in the same abort or both complete with the same
    seven sizing values. *)
Theorem smp_metrics_depends_on_silo (sc1 sc2 : smp_sc silo) t1 t2 :
  ident sc1 = ident sc2 ->
  match snd (smp_metrics sc1 t1), snd (smp_metrics sc2 t2) with
  | Ret a, Ret b => sizing a = sizing b
  | Abort e1, Abort e2 => e1 = e2
  | _, _ => False
  end.
Proof.
  intros Hid.
  assert (HU : data_capacity sc1 = data_capacity sc2)
    by (apply smp_stuff_len_ident; exact Hid).
  assert (Hm : max_nseg_init sc1 = max_nseg_init sc2).
  { unfold max_nseg_init.
    rewrite (smp_stuff_len_ident sc2 sc1 SMP_SEG1_STUFF Hid). reflexivity. }
  destruct (body_outcome exp_average sc1 t1 exp_average_isqrt_like)
    as [(Hnz1 & Hge1 & ta & a & Ha) | (Hc1 & Ha)];
  destruct (body_outcome exp_average sc2 t2 exp_average_isqrt_like)
    as [(Hnz2 & Hge2 & tb & b & Hb) | (Hc2 & Hb)];
  fold (smp_metrics sc1 t1) in Ha; fold (smp_metrics sc2 t2) in Hb;
  rewrite Ha, Hb; cbn [snd]; try reflexivity; try lia.
  pose proof (smp_metrics_halvings _ _ _ _ Ha) as (k1 & _ & Hk1 & Hf1).
  pose proof (smp_metrics_halvings _ _ _ _ Hb) as (k2 & _ & Hk2 & Hf2).
  rewrite HU, Hm in Hf1.
  pose proof (first_fit_unique _ _ _ _ _ Hf1 Hf2) as Hk. subst k2.
  apply smp_metrics_Ret in Ha. apply smp_metrics_Ret in Hb.
  destruct Ha as [_ _ _ Amin Amaxl _ _ Aminl _ Aaim _ Aaiml Afree].
  destruct Hb as [_ _ _ Bmin Bmaxl _ _ Bminl _ Baim _ Baiml Bfree].
  assert (Hmax : max_nseg a = max_nseg b) by congruence.
  assert (Haim : aim_nseg a = aim_nseg b) by congruence.
  assert (Haiml : aim_segl a = aim_segl b) by congruence.
  unfold sizing.
  rewrite Amin, Bmin, Amaxl, Bmaxl, Aminl, Bminl, Afree, Bfree.
  rewrite Haim, Haiml, Hmax, HU. reflexivity.
Qed.

(** X7.  When the first [max_nseg] is at least 10 and the data space
    holds at least 19 records, [smp_metrics] completes with a [max_nseg]
    that is not below [min_nseg]: the loop stops halving before it gets
    under 10. *)
Theorem smp_metrics_keeps_ten (sc : smp_sc silo) t :
  10 <= max_nseg_init sc ->
  19 * sizeof_object <= data_capacity sc ->
  exists t' sc',
    smp_metrics sc t = (t', Ret sc') /\
    min_nseg sc' = 10 /\
    min_nseg sc' <= max_nseg sc'.
Proof.
  intros H10 H19.
  pose proof (smp_stuff_len_range sc SMP_SPC_STUFF) as HU.
  destruct (body_outcome exp_average sc t exp_average_isqrt_like)
    as [(_ & _ & t' & sc' & H) | ([Hz | Hlt] & _)]; [| lia | lia].
  fold (smp_metrics sc t) in H.
  exists t', sc'. split; [exact H |].
  pose proof (smp_metrics_halvings _ _ _ _ H) as (k & _ & Hk & Hb & _).
  apply smp_metrics_Ret in H.
  destruct H as [_ _ _ Hmin _ _ Hpos _ _ _ _ _ _].
  split; [exact Hmin |]. rewrite Hmin.
  destruct k as [| k]; [rewrite Hk; cbn; rewrite Z.div_1_r; exact H10 |].
  specialize (Hb (Z.of_nat k) ltac:(lia)).
  rewrite Nat2Z.inj_succ, Z.pow_succ_r, (Z.mul_comm 2) in Hk by lia.
  rewrite <- Z.div_div in Hk by (try apply Z.pow_pos_nonneg; lia).
  set (m := max_nseg_init sc / 2 ^ Z.of_nat k) in *.
  assert (Hm0 : 0 < m).
  { destruct (Z.lt_ge_cases 0 m) as [Hs | Hs]; [exact Hs | exfalso].
    assert (m / 2 <= 0 / 2) by (apply Z.div_le_mono; lia).
    rewrite Z.div_0_l in H by lia. lia. }
  assert (Hm : 20 <= m).
  { destruct (Z.lt_ge_cases m 20) as [Hs | Hs]; [exfalso | exact Hs].
    assert (sizeof_object <= data_capacity sc / m)
      by (apply Z.div_le_lower_bound; nia).
    lia. }
  rewrite Hk. apply Z.div_le_lower_bound; lia.
Qed.

End SizingFacts.

(* ------------------------------------------------------------------ *)
(** * smp_mgt_init *)

Section BringUpFacts.
Context {silo : Type}.
Variable region_length : silo -> smp_stuff -> Z.
Variable sizeof_object : Z.
Variable P : platform.
Variable W : world silo.

Local Abbreviation smp_metrics := (smp_metrics region_length sizeof_object).
Local Abbreviation disable_aslr := (disable_aslr P W).
Local Abbreviation mmap_target := (mmap_target P).
Local Abbreviation mmap_request := (mmap_request P W).
Local Abbreviation startup := (startup P W).
Local Abbreviation open_backing_store := (open_backing_store P W).
Local Abbreviation read_sign := (read_sign P W).
Local Abbreviation map_silo := (map_silo P W).
Local Abbreviation validate_silo := (validate_silo W).
Local Abbreviation bring_up_file := (bring_up_file P W).
Local Abbreviation bring_up_mapping := (bring_up_mapping P W).
Local Abbreviation smp_mgt_init :=
  (smp_mgt_init region_length sizeof_object P W).
Local Abbreviation aslr_events := (aslr_events P W).
Local Abbreviation sizeof_messages := (sizeof_messages P).
Local Abbreviation startup_holds := (startup_holds P W).
Local Abbreviation getfile_code := (getfile_code W).
Local Abbreviation opened_sc := (opened_sc P W).
Local Abbreviation request := (request P W).
Local Abbreviation mmap_result := (mmap_result P W).
Local Abbreviation mmap_event := (mmap_event P W).
Local Abbreviation reinitialized := (reinitialized W).
Local Abbreviation mapped_sc := (mapped_sc W).
Local Abbreviation checked_sc := (checked_sc W).
Local Abbreviation last_check := (last_check W).
Local Abbreviation validated_sc := (validated_sc W).
Local Abbreviation map_events := (map_events P W).
Local Abbreviation check_events := (check_events W).
Local Abbreviation bring_up_conditions :=
  (bring_up_conditions region_length sizeof_object P W).
Local Abbreviation data_capacity sc :=
  (smp_stuff_len region_length sc SMP_SPC_STUFF).
Local Abbreviation max_nseg_init := (max_nseg_init region_length).

(** [disable_aslr] always returns; it adds its events to the trace. *)
Lemma disable_aslr_run t : disable_aslr t = (t ++ aslr_events, Ret tt).
Proof.
  unfold aslr_events, disable_aslr. run_unfold.
  destruct (HAVE_SYS_PERSONALITY_H P); [| cbn; rewrite app_nil_r; reflexivity].
  destruct (Z.land _ _ =? 0); [| reflexivity].
  destruct (_ <? 0); cbn; rewrite <- !app_assoc; reflexivity.
Qed.

(** [disable_aslr] calls [personality] and writes to stderr, nothing
    else. *)
Lemma aslr_events_kind e :
  In e aslr_events ->
  (exists p, e = Sys_personality p) \/ (exists m, e = Stderr m).
Proof.
  unfold aslr_events, disable_aslr. run_unfold.
  destruct (HAVE_SYS_PERSONALITY_H P); [| intros []].
  destruct (Z.land _ _ =? 0);
    [destruct (_ <? 0) |]; cbn; intros H;
    repeat (destruct H as [<- | H]; [eauto |]); destruct H.
Qed.

(** The run of lines 148-183 when its assertions hold. *)
Lemma startup_run parent_stv ac av t :
  startup_holds ac av ->
  startup parent_stv ac av t
  = (t ++ aslr_events ++ sizeof_messages, Ret (fresh_sc parent_stv)).
Proof.
  intros (H1 & H2 & H3 & H4 & H5). unfold startup.
  unfold bind at 1. unfold assert at 1. rewrite H1. cbn [ret].
  unfold bind at 1. unfold assert at 1. rewrite H2. cbn [is_null ret].
  unfold bind at 1. rewrite disable_aslr_run.
  run_unfold. rewrite H3, H5, (proj2 (Z.eqb_eq _ _) H4). cbn.
  rewrite <- !app_assoc. reflexivity.
Qed.

(** Nothing up to line 183 touches the backing file. *)
Lemma startup_events_quiet e :
  In e (aslr_events ++ sizeof_messages) -> touches_backing e = false.
Proof.
  intros H. apply in_app_or in H. destruct H as [H | H].
  - apply aslr_events_kind in H. destruct H as [[p ->] | [m ->]]; reflexivity.
  - cbn in H. repeat (destruct H as [<- | H]; [reflexivity |]). destruct H.
Qed.

(** Line 186. *)
Lemma open_wrong_arity (sc : smp_sc silo) ac av t :
  ac <> 2 ->
  open_backing_store sc ac av t
  = (t, Abort (Argv_err "(-spersistent) wrong number of arguments")).
Proof.
  intros H. unfold open_backing_store. run_unfold.
  destruct (Z.eqb_spec ac 2); [contradiction | reflexivity].
Qed.

(** Line 190. *)
Lemma open_directory (sc : smp_sc silo) av t :
  getfile_code av = 2 ->
  open_backing_store sc 2 av t
  = (t ++ [Call_STV_GetFile (av 0)],
     Abort (Argv_err "(-spersistent) need filename (not directory)")).
Proof.
  unfold getfile_code, open_backing_store. run_unfold. cbn.
  destruct (STV_GetFile W (av 0)) as [[i nfd] nfn]. cbn. intros ->.
  reflexivity.
Qed.

(** Lines 193-198, with two arguments and no directory. *)
Lemma open_file (sc : smp_sc silo) av t :
  getfile_code av <> 2 ->
  open_backing_store sc 2 av t
  = (t ++ [Call_STV_GetFile (av 0);
           Call_STV_FileSize (fd (opened_sc sc av)) (av 1);
           Sys_ftruncate (fd (opened_sc sc av)) (mediasize (opened_sc sc av))],
     if ftruncate W (fd (opened_sc sc av)) (mediasize (opened_sc sc av)) =? 0
     then Ret (opened_sc sc av)
     else Abort (Assert_fail "AZ(ftruncate(sc->fd, sc->mediasize))")).
Proof.
  unfold getfile_code, open_backing_store, opened_sc. run_unfold. cbn.
  destruct (STV_GetFile W (av 0)) as [[i nfd] nfn]. cbn. intros Hi.
  destruct (Z.eqb_spec i 2); [contradiction |].
  destruct (STV_FileSize W nfd (av 1) (getpagesize P)) as [msz gran]. cbn.
  rewrite <- !app_assoc. cbn.
  destruct (ftruncate W nfd msz =? 0); reflexivity.
Qed.

(** The [read] of line 201 delivers the signature block or, of a shorter
    file, the whole file. *)
Lemma read_sign_length (sc : smp_sc silo) :
  Z.of_nat (List.length (read_sign sc))
  = Z.max 0 (Z.min (sizeof_smp_sign P) (mediasize sc)).
Proof.
  unfold read_sign, read_file, ftruncate_file. cbn [f_len].
  rewrite length_map, length_seq. lia.
Qed.

(** Line 202 on a file shorter than the signature block. *)
Lemma map_short_read (sc : smp_sc silo) t :
  0 < sizeof_smp_sign P ->
  mediasize sc < sizeof_smp_sign P ->
  map_silo sc t
  = (t ++ [Sys_read (fd sc) (sizeof_smp_sign P)],
     Abort (Assert_fail "i == sizeof sgn")).
Proof.
  intros Hpos Hlt. unfold map_silo. run_unfold.
  rewrite read_sign_length.
  destruct (Z.eqb_spec (Z.max 0 (Z.min (sizeof_smp_sign P) (mediasize sc)))
                       (sizeof_smp_sign P)); [lia | reflexivity].
Qed.

(** Lines 203-248 on a file that holds a signature block. *)
Lemma map_full_read (sc : smp_sc silo) t :
  0 <= sizeof_smp_sign P <= mediasize sc ->
  map_silo sc t =
  match mmap_result sc with
  | None =>
      (t ++ [Sys_read (fd sc) (sizeof_smp_sign P); mmap_event sc],
       Abort (Argv_err "(-spersistent) failed to mmap"))
  | Some b =>
      (t ++ [Sys_read (fd sc) (sizeof_smp_sign P); mmap_event sc]
         ++ (if negb (snd (request sc) =? 0) && negb (b =? snd (request sc))
             then [Stderr (Msg_lost_to_aslr (filename sc))] else [])
         ++ [Call_smp_def_sign],
       Ret (set_ident (set_base sc b) (Some (mapped_region W))))
  end.
Proof.
  intros Hsz. unfold map_silo, mmap_result, mmap_event, request. run_unfold.
  rewrite read_sign_length.
  destruct (Z.eqb_spec (Z.max 0 (Z.min (sizeof_smp_sign P) (mediasize sc)))
                       (sizeof_smp_sign P)); [| lia].
  destruct (mmap_request _ _) as [flags target]. cbn [fst snd].
  rewrite <- !app_assoc. cbn [app].
  destruct (mmap W target _ _ flags _) as [b |]; [| reflexivity].
  sc_simpl.
  destruct (negb (target =? 0) && negb (b =? target));
    cbn; rewrite <- !app_assoc; reflexivity.
Qed.

(** A preferred address is requested with MAP_FIXED. *)
Lemma request_fixed (sc : smp_sc silo) :
  mmap_target (read_sign sc) <> 0 ->
  snd (request sc) = mmap_target (read_sign sc) /\
  fst (request sc) =
    or_if_defined
      (Z.lor (Z.lor (Z.lor (MAP_NOCORE P) (MAP_NOSYNC P)) (MAP_SHARED P))
             (MAP_FIXED P))
      (MAP_EXCL P).
Proof.
  intros H. unfold request, mmap_request.
  destruct (Z.eqb_spec (mmap_target (read_sign sc)) 0); [contradiction |].
  split; reflexivity.
Qed.

(** Lines 250-256 in full. *)
Lemma validate_run (sc : smp_sc silo) t :
  validate_silo sc t =
  let i := fst (smp_valid_silo W sc) in
  let sc1 := set_ident sc (Some (snd (smp_valid_silo W sc))) in
  let sc2 := if i =? 0 then sc1
             else set_ident sc1 (Some (smp_newsilo W sc1)) in
  let j := fst (smp_valid_silo W sc2) in
  let sc3 := set_ident sc2 (Some (snd (smp_valid_silo W sc2))) in
  (t ++ [Call_smp_valid_silo]
     ++ (if i =? 0 then []
         else [Stdout (Msg_not_reloaded (filename sc) i); Call_smp_newsilo])
     ++ [Call_smp_valid_silo],
   if j =? 0 then Ret sc3
   else Abort (Assert_fail "AZ(smp_valid_silo(sc))")).
Proof.
  unfold validate_silo. run_unfold.
  destruct (smp_valid_silo W sc) as [i r1]. cbn [fst snd].
  destruct (i =? 0); cbn [negb]; sc_simpl.
  - destruct (smp_valid_silo W _) as [j r2]. cbn [fst snd].
    rewrite <- !app_assoc. cbn [app].
    destruct (j =? 0); reflexivity.
  - destruct (smp_valid_silo W _) as [j r2]. cbn [fst snd].
    rewrite <- !app_assoc. cbn [app].
    destruct (j =? 0); reflexivity.
Qed.

(** The run up to line 198 with two arguments and no directory. *)
Lemma bring_up_file_run parent_stv av :
  startup_holds 2 av ->
  getfile_code av <> 2 ->
  let sc := opened_sc (fresh_sc parent_stv) av in
  bring_up_file parent_stv 2 av []
  = ((aslr_events ++ sizeof_messages) ++
       [Call_STV_GetFile (av 0);
        Call_STV_FileSize (fd sc) (av 1);
        Sys_ftruncate (fd sc) (mediasize sc)],
     if ftruncate W (fd sc) (mediasize sc) =? 0
     then Ret sc
     else Abort (Assert_fail "AZ(ftruncate(sc->fd, sc->mediasize))")).
Proof.
  intros Hs Hg sc. unfold bring_up_file.
  erewrite bind_Ret by (apply (startup_run parent_stv 2 av [] Hs)).
  cbn [app]. apply open_file. exact Hg.
Qed.

(** The run from the open backing file on. *)
Lemma init_from_file parent_stv ac av t (sc : smp_sc silo) :
  bring_up_file parent_stv ac av [] = (t, Ret sc) ->
  run (smp_mgt_init parent_stv ac av)
  = (sc <- map_silo sc ;;
     sc <- validate_silo sc ;;
     sc <- smp_metrics sc ;;
     emit (Call_MCH_Fd_Inherit (fd sc)) ;;; ret sc) t.
Proof.
  intros H. unfold run, smp_mgt_init, bring_up_mapping.
  unfold bind at 1 2. rewrite H. reflexivity.
Qed.

(** The run from the mapped silo on. *)
Lemma init_from_mapping parent_stv ac av t (sc : smp_sc silo) :
  bring_up_mapping parent_stv ac av [] = (t, Ret sc) ->
  run (smp_mgt_init parent_stv ac av)
  = (sc <- validate_silo sc ;;
     sc <- smp_metrics sc ;;
     emit (Call_MCH_Fd_Inherit (fd sc)) ;;; ret sc) t.
Proof.
  intros H. unfold run, smp_mgt_init. unfold bind at 1. rewrite H. reflexivity.
Qed.

Lemma aslr_events_startup e : In e aslr_events -> startup_event e = true.
Proof.
  unfold aslr_events, disable_aslr. run_unfold.
  destruct (HAVE_SYS_PERSONALITY_H P); [| intros []].
  destruct (Z.land _ _ =? 0);
    [destruct (_ <? 0) |]; cbn; intros H;
    repeat (destruct H as [<- | H]; [reflexivity |]); destruct H.
Qed.

Lemma pre_startup e :
  In e (aslr_events ++ sizeof_messages) -> startup_event e = true.
Proof.
  intros H. apply in_app_or in H. destruct H as [H | H].
  - apply aslr_events_startup. exact H.
  - cbn in H. repeat (destruct H as [<- | H]; [reflexivity |]). destruct H.
Qed.

Lemma startup_holds_dec ac av : startup_holds ac av \/ ~ startup_holds ac av.
Proof.
  unfold startup_holds.
  destruct (in_mgt W); [| right; intros (H & _); discriminate].
  destruct (av ac); [right; intros (_ & H & _); discriminate |].
  destruct (Z.eq_dec (sizeof_smp_object P mod 8) 0) as [H3 | H3];
    [| right; intros (_ & _ & H & _); contradiction].
  destruct (Z.eq_dec (sizeof_smp_ident P) (SMP_IDENT_SIZE P)) as [H4 | H4];
    [| right; intros (_ & _ & _ & H & _); contradiction].
  destruct (ALLOC_OBJ W); [| right; intros (_ & _ & _ & _ & H); discriminate].
  left. repeat split; assumption.
Qed.

(** Lines 148-180 when one of their assertions fails. *)
Lemma startup_fails parent_stv ac av t :
  ~ startup_holds ac av ->
  exists d what,
    startup parent_stv ac av t = (t ++ d, Abort (Assert_fail what)) /\
    forall e, In e d -> startup_event e = true.
Proof.
  intros H. unfold startup.
  unfold bind at 1. unfold assert at 1.
  destruct (in_mgt W) eqn:H1; cbn [ret stop].
  2: { exists [], "ASSERT_MGT()"%string. rewrite app_nil_r.
       split; [reflexivity | intros e []]. }
  unfold bind at 1. unfold assert at 1.
  destruct (av ac) eqn:H2; cbn [is_null ret stop].
  { exists [], "AZ(av[ac])"%string. rewrite app_nil_r.
    split; [reflexivity | intros e []]. }
  unfold bind at 1. rewrite disable_aslr_run.
  run_unfold.
  destruct (Z.eqb_spec (sizeof_smp_object P mod 8) 0) as [H3 | H3].
  2: { eexists aslr_events, _. split; [reflexivity |].
       exact aslr_events_startup. }
  destruct (Z.eqb_spec (sizeof_smp_ident P) (SMP_IDENT_SIZE P)) as [H4 | H4].
  2: { exists (aslr_events ++ sizeof_messages). eexists.
       split; [cbn; rewrite <- !app_assoc; reflexivity |].
       exact pre_startup. }
  destruct (ALLOC_OBJ W) eqn:H5.
  - exfalso. apply H. repeat split; assumption.
  - exists (aslr_events ++ sizeof_messages). eexists.
    split; [cbn; rewrite <- !app_assoc; reflexivity |].
    exact pre_startup.
Qed.

(** Line 202 when the read is short. *)
Lemma map_partial_read (sc : smp_sc silo) t :
  Z.of_nat (List.length (read_sign sc)) <> sizeof_smp_sign P ->
  map_silo sc t
  = (t ++ [Sys_read (fd sc) (sizeof_smp_sign P)],
     Abort (Assert_fail "i == sizeof sgn")).
Proof.
  intros Hlt. unfold map_silo. run_unfold.
  destruct (Z.eqb_spec (Z.of_nat (List.length (read_sign sc)))
                       (sizeof_smp_sign P)); [contradiction | reflexivity].
Qed.

(** Lines 203-248 after a full read. *)
Lemma map_whole_read (sc : smp_sc silo) t :
  Z.of_nat (List.length (read_sign sc)) = sizeof_smp_sign P ->
  map_silo sc t =
  match mmap_result sc with
  | None =>
      (t ++ [Sys_read (fd sc) (sizeof_smp_sign P); mmap_event sc],
       Abort (Argv_err "(-spersistent) failed to mmap"))
  | Some b => (t ++ map_events sc b, Ret (mapped_sc sc b))
  end.
Proof.
  intros Hsz.
  unfold map_silo, map_events, mapped_sc, mmap_result, mmap_event, request.
  run_unfold.
  destruct (Z.eqb_spec (Z.of_nat (List.length (read_sign sc)))
                       (sizeof_smp_sign P)); [| contradiction].
  destruct (mmap_request _ _) as [flags target]. cbn [fst snd].
  rewrite <- !app_assoc. cbn [app].
  destruct (mmap W target _ _ flags _) as [b |]; [| reflexivity].
  sc_simpl.
  destruct (negb (target =? 0) && negb (b =? target));
    cbn; rewrite <- !app_assoc; reflexivity.
Qed.

(** Lines 250-256 in terms of the handles and events they leave. *)
Lemma validate_outcome (sc : smp_sc silo) t :
  validate_silo sc t
  = (t ++ check_events sc,
     if last_check sc =? 0 then Ret (validated_sc sc)
     else Abort (Assert_fail "AZ(smp_valid_silo(sc))")).
Proof. rewrite validate_run. reflexivity. Qed.

(** Validation changes the silo behind the handle, nothing else. *)
Lemma validated_fields (sc : smp_sc silo) :
  (parent (validated_sc sc), fd (validated_sc sc),
   filename (validated_sc sc), align (validated_sc sc),
   granularity (validated_sc sc), mediasize (validated_sc sc),
   base (validated_sc sc), segments (validated_sc sc))
  = (parent sc, fd sc, filename sc, align sc, granularity sc,
     mediasize sc, base sc, segments sc) /\
  ident (validated_sc sc)
  = Some (snd (smp_valid_silo W (checked_sc sc))).
Proof.
  unfold validated_sc, checked_sc.
  destruct (fst (smp_valid_silo W sc) =? 0); split; reflexivity.
Qed.

(** C8.  With the assertions of the start holding, bring-up ends in
    [ARGV_ERR] when the argument count is not two ("wrong number of
    arguments") and when [STV_GetFile] reports a directory ("need
    filename (not directory)"); in the directory case no event of the
    run is an [ftruncate] or an [mmap]. *)
Theorem smp_mgt_init_configuration_error parent_stv ac av :
  startup_holds ac av ->
  (ac <> 2 ->
   run (smp_mgt_init parent_stv ac av)
   = (aslr_events ++ sizeof_messages,
      Abort (Argv_err "(-spersistent) wrong number of arguments"))) /\
  (ac = 2 -> getfile_code av = 2 ->
   run (smp_mgt_init parent_stv ac av)
   = ((aslr_events ++ sizeof_messages) ++ [Call_STV_GetFile (av 0)],
      Abort (Argv_err "(-spersistent) need filename (not directory)")) /\
   forall e, In e (fst (run (smp_mgt_init parent_stv ac av))) ->
             touches_backing e = false).
Proof.
  intros Hs. pose proof (startup_run parent_stv ac av [] Hs) as Hst.
  cbn [app] in Hst.
  split.
  - intros Hac. unfold run, smp_mgt_init, bring_up_mapping, bring_up_file.
    erewrite bind_Abort; [reflexivity |].
    erewrite bind_Abort; [reflexivity |].
    erewrite bind_Ret by exact Hst.
    apply open_wrong_arity. exact Hac.
  - intros Hac Hdir. subst ac.
    assert (Hrun : bring_up_file parent_stv 2 av []
                   = ((aslr_events ++ sizeof_messages)
                        ++ [Call_STV_GetFile (av 0)],
                      Abort (Argv_err
                        "(-spersistent) need filename (not directory)"))).
    { unfold bring_up_file. erewrite bind_Ret by exact Hst.
      apply open_directory. exact Hdir. }
    assert (Hall : run (smp_mgt_init parent_stv 2 av)
                   = ((aslr_events ++ sizeof_messages)
                        ++ [Call_STV_GetFile (av 0)],
                      Abort (Argv_err
                        "(-spersistent) need filename (not directory)"))).
    { unfold run, smp_mgt_init, bring_up_mapping.
      unfold bind at 1 2. rewrite Hrun. reflexivity. }
    rewrite Hall. split; [reflexivity |].
    cbn [fst]. intros e He. apply in_app_or in He. destruct He as [He | He].
    + apply startup_events_quiet. exact He.
    + cbn in He. destruct He as [<- | []]. reflexivity.
Qed.

(** C10.  Line 202 asserts that the [read] of line 201 returned the full
    size of the signature block.  When the media size that
    [STV_FileSize] gives is smaller than [sizeof(struct smp_sign)], the
    file, just brought to that size, delivers fewer bytes, and bring-up
    ends in an assertion failure ([i == sizeof sgn]; or that of line
    198 when [ftruncate] itself failed), not in [ARGV_ERR], and before
    any [mmap]. *)
Theorem smp_mgt_init_short_media parent_stv av :
  startup_holds 2 av ->
  getfile_code av <> 2 ->
  0 < sizeof_smp_sign P ->
  mediasize (opened_sc (fresh_sc parent_stv) av) < sizeof_smp_sign P ->
  let sc := opened_sc (fresh_sc parent_stv) av in
  exists tr what,
    run (smp_mgt_init parent_stv 2 av) = (tr, Abort (Assert_fail what)) /\
    what = (if ftruncate W (fd sc) (mediasize sc) =? 0
            then "i == sizeof sgn"%string
            else "AZ(ftruncate(sc->fd, sc->mediasize))"%string) /\
    (forall addr len prot flags mfd,
       ~ In (Sys_mmap addr len prot flags mfd) tr).
Proof.
  intros Hs Hg Hpos Hlt sc.
  pose proof (bring_up_file_run parent_stv av Hs Hg) as Hf.
  cbv zeta in Hf. fold sc in Hf.
  assert (Hq : forall e, In e ((aslr_events ++ sizeof_messages) ++
       [Call_STV_GetFile (av 0); Call_STV_FileSize (fd sc) (av 1);
        Sys_ftruncate (fd sc) (mediasize sc)]) ->
       forall addr len prot flags mfd, e <> Sys_mmap addr len prot flags mfd).
  { intros e He. apply in_app_or in He. destruct He as [He | He].
    - apply startup_events_quiet in He. intros; intros ->. discriminate.
    - cbn in He. intros.
      repeat (destruct He as [<- | He]; [discriminate |]). destruct He. }
  destruct (ftruncate W (fd sc) (mediasize sc) =? 0).
  - rewrite (init_from_file _ _ _ _ _ Hf).
    erewrite bind_Abort by (apply map_short_read; assumption).
    eexists _, _. split; [reflexivity |]. split; [reflexivity |].
    intros addr len prot flags mfd Hin. apply in_app_or in Hin.
    destruct Hin as [Hin | Hin].
    + exact (Hq _ Hin addr len prot flags mfd eq_refl).
    + cbn in Hin. destruct Hin as [Hin | []]. discriminate.
  - unfold run, smp_mgt_init, bring_up_mapping.
    erewrite bind_Abort;
      [| erewrite bind_Abort; [reflexivity | exact Hf]].
    eexists _, _. split; [reflexivity |]. split; [reflexivity |].
    intros addr len prot flags mfd Hin.
    exact (Hq _ Hin addr len prot flags mfd eq_refl).
Qed.

(** C7.  Once the silo is mapped, bring-up validates it.  When that
    validation fails, it reports the reason, calls [smp_newsilo], and
    validates the region [smp_newsilo] has made.  When this second
    validation fails too the run ends at the assertion of line 256, with
    no further call; when it succeeds the run goes on to
    [smp_metrics]. *)
Theorem smp_mgt_init_revalidates parent_stv ac av t (sc : smp_sc silo) :
  bring_up_mapping parent_stv ac av [] = (t, Ret sc) ->
  fst (smp_valid_silo W sc) <> 0 ->
  let i := fst (smp_valid_silo W sc) in
  let j := fst (smp_valid_silo W (reinitialized sc)) in
  let sc' := set_ident (reinitialized sc)
               (Some (snd (smp_valid_silo W (reinitialized sc)))) in
  let t' := t ++ [Call_smp_valid_silo;
                  Stdout (Msg_not_reloaded (filename sc) i);
                  Call_smp_newsilo;
                  Call_smp_valid_silo] in
  (j <> 0 ->
   run (smp_mgt_init parent_stv ac av)
   = (t', Abort (Assert_fail "AZ(smp_valid_silo(sc))"))) /\
  (j = 0 ->
   run (smp_mgt_init parent_stv ac av)
   = (sc <- smp_metrics sc' ;;
      emit (Call_MCH_Fd_Inherit (fd sc)) ;;; ret sc) t').
Proof.
  intros Hm Hi i j sc' t'.
  rewrite (init_from_mapping _ _ _ _ _ Hm).
  pose proof (validate_run sc t) as Hv. cbv zeta in Hv.
  fold i in Hv. destruct (Z.eqb_spec i 0) as [Hz | _]; [contradiction |].
  fold (reinitialized sc) in Hv. fold j in Hv. fold sc' in Hv.
  cbn [app] in Hv. fold t' in Hv.
  split; intros Hj.
  - destruct (Z.eqb_spec j 0) as [Hz | _]; [contradiction |].
    unfold bind at 1. rewrite Hv. reflexivity.
  - rewrite Hj in Hv. cbn [Z.eqb] in Hv.
    unfold bind at 1. rewrite Hv. reflexivity.
Qed.

(** The run up to line 198, from its result. *)
Lemma bring_up_file_Ret parent_stv ac av t (sc : smp_sc silo) :
  bring_up_file parent_stv ac av [] = (t, Ret sc) ->
  startup_holds ac av /\
  ac = 2 /\
  getfile_code av <> 2 /\
  sc = opened_sc (fresh_sc parent_stv) av /\
  t = (aslr_events ++ sizeof_messages) ++ file_events sc av /\
  ftruncate W (fd sc) (mediasize sc) = 0.
Proof.
  intros H.
  destruct (startup_holds_dec ac av) as [Hs | Hs].
  2: { destruct (startup_fails parent_stv ac av [] Hs)
         as (d & what & Hst & _).
       unfold bring_up_file in H. erewrite bind_Abort in H by exact Hst.
       discriminate. }
  pose proof (startup_run parent_stv ac av [] Hs) as Hst.
  cbn [app] in Hst.
  unfold bring_up_file in H. erewrite bind_Ret in H by exact Hst.
  destruct (Z.eq_dec ac 2) as [-> | Hac];
    [| rewrite open_wrong_arity in H by exact Hac; discriminate].
  destruct (Z.eq_dec (getfile_code av) 2) as [Hg | Hg];
    [rewrite open_directory in H by exact Hg; discriminate |].
  rewrite open_file in H by exact Hg.
  destruct (Z.eqb_spec
              (ftruncate W (fd (opened_sc (fresh_sc parent_stv) av))
                 (mediasize (opened_sc (fresh_sc parent_stv) av))) 0)
    as [Hft | Hft]; [| discriminate].
  pose proof (f_equal fst H) as E1. pose proof (f_equal snd H) as E2.
  cbn [fst snd] in E1, E2. injection E2 as E2. subst t sc.
  split; [exact Hs |]. split; [reflexivity |]. split; [exact Hg |].
  split; [reflexivity |]. split; [reflexivity | exact Hft].
Qed.

(** C6 (amended).  Let the signature block of the backing file carry the
    tag SILO and a nonzero address, the preferred target.  The mapping is
    then asked for at exactly that address, with the flags
    [MAP_NOCORE | MAP_NOSYNC | MAP_SHARED | MAP_FIXED] and, where it is
    defined, [MAP_EXCL].  When the call fails, bring-up ends in the
    fatal [ARGV_ERR] "failed to mmap".  When the call returns an
    address, bring-up keeps that mapping; it writes the warning
    "Persistent silo lost to ASLR", once, exactly when the address is
    not the preferred one, and no such warning before.  Provided the
    validation of line 256 then succeeds and [smp_metrics] completes,
    the run completes with the handle at the address returned. *)
Theorem smp_mgt_init_preferred_address parent_stv ac av t
  (sc : smp_sc silo) :
  bring_up_file parent_stv ac av [] = (t, Ret sc) ->
  0 <= sizeof_smp_sign P <= mediasize sc ->
  mmap_target (read_sign sc) <> 0 ->
  let target := mmap_target (read_sign sc) in
  let called := [Sys_read (fd sc) (sizeof_smp_sign P); mmap_event sc] in
  let warning := Stderr (Msg_lost_to_aslr (filename sc)) in
  snd (request sc) = target /\
  fst (request sc)
  = or_if_defined
      (Z.lor (Z.lor (Z.lor (MAP_NOCORE P) (MAP_NOSYNC P)) (MAP_SHARED P))
             (MAP_FIXED P))
      (MAP_EXCL P) /\
  Z.land (fst (request sc)) (MAP_FIXED P) = MAP_FIXED P /\
  (forall excl, MAP_EXCL P = Some excl ->
                Z.land (fst (request sc)) excl = excl) /\
  (forall fn, ~ In (Stderr (Msg_lost_to_aslr fn)) t) /\
  match mmap_result sc with
  | None =>
      run (smp_mgt_init parent_stv ac av)
      = (t ++ called, Abort (Argv_err "(-spersistent) failed to mmap"))
  | Some b =>
      let drift := if b =? target then [] else [warning] in
      last_check (mapped_sc sc b) = 0 ->
      max_nseg_init (validated_sc (mapped_sc sc b)) <> 0 ->
      sizeof_object <= data_capacity (validated_sc (mapped_sc sc b)) ->
      exists sc3,
        run (smp_mgt_init parent_stv ac av)
        = (t ++ called ++ drift ++ [Call_smp_def_sign]
             ++ check_events (mapped_sc sc b) ++ sizing_events sc3
             ++ [Call_MCH_Fd_Inherit (fd sc3)],
           Ret sc3) /\
        base sc3 = b
  end.
Proof.
  intros Hf Hsz Ht target called warning.
  destruct (request_fixed sc Ht) as [Hreq Hflags].
  split; [exact Hreq |]. split; [exact Hflags |].
  split; [rewrite Hflags; apply land_or_if_defined; apply land_lor_same |].
  split.
  { intros excl He. rewrite Hflags, He. cbn [or_if_defined].
    apply land_lor_same. }
  split.
  { intros fn Hin.
    destruct (bring_up_file_Ret _ _ _ _ _ Hf) as (_ & _ & _ & _ & -> & _).
    apply in_app_or in Hin. destruct Hin as [Hin | Hin].
    - apply pre_startup in Hin. discriminate.
    - unfold file_events in Hin. cbn [In] in Hin.
      destruct Hin as [H | [H | [H | []]]]; discriminate. }
  rewrite (init_from_file _ _ _ _ _ Hf).
  assert (Hfull : Z.of_nat (List.length (read_sign sc)) = sizeof_smp_sign P)
    by (rewrite read_sign_length; lia).
  pose proof (map_whole_read sc t Hfull) as Hm.
  destruct (mmap_result sc) as [b |].
  - intros drift Hl Hnz Hge.
    erewrite bind_Ret by exact Hm.
    pose proof (validate_outcome (mapped_sc sc b) (t ++ map_events sc b))
      as Hv.
    rewrite Hl in Hv. cbn [Z.eqb] in Hv.
    erewrite bind_Ret by exact Hv.
    destruct (smp_metrics_outcome region_length sizeof_object
                (validated_sc (mapped_sc sc b))
                ((t ++ map_events sc b) ++ check_events (mapped_sc sc b)))
      as [(_ & _ & sc3 & Hmet & Hsz3) | ([Hz | Hlt] & _)];
      [| contradiction | lia].
    exists sc3. erewrite bind_Ret by exact Hmet. split.
    + run_unfold. f_equal. unfold map_events, drift, called.
      rewrite Hreq. fold target.
      destruct (Z.eqb_spec target 0) as [Hz | _]; [contradiction |].
      destruct (b =? target); cbn [negb andb]; rewrite <- !app_assoc;
        reflexivity.
    + destruct Hsz3 as [_ Hrest _ _ _ _ _ _ _ _ _ _ _].
      destruct (validated_fields (mapped_sc sc b)) as [Hvf _].
      rewrite Hvf in Hrest. inversion Hrest. reflexivity.
  - erewrite bind_Abort by exact Hm. reflexivity.
Qed.

(* ------------------------------------------------------------------ *)
(** ** Every run of smp_mgt_init *)

(** The fields of the handle of line 198. *)
Lemma opened_fields parent_stv av :
  let sc := opened_sc (fresh_sc parent_stv) av in
  parent sc = parent_stv /\
  fd sc = snd (fst (STV_GetFile W (av 0))) /\
  filename sc = snd (STV_GetFile W (av 0)) /\
  align sc = sizeof_void_p P * 2 /\
  (mediasize sc, granularity sc)
  = STV_FileSize W (fd sc) (av 1) (getpagesize P) /\
  segments sc = [].
Proof.
  unfold opened_sc.
  destruct (STV_GetFile W (av 0)) as [[i nfd] nfn]. cbn.
  destruct (STV_FileSize W nfd (av 1) (getpagesize P)) as [msz gran] eqn:E.
  cbn. rewrite E. repeat split.
Qed.

Lemma land_lor_keep x g f : Z.land x f = f -> Z.land (Z.lor x g) f = f.
Proof.
  intros H. apply Z.bits_inj'. intros n _.
  assert (Hn : Z.testbit (Z.land x f) n = Z.testbit f n)
    by (rewrite H; reflexivity).
  rewrite Z.land_spec in Hn. rewrite Z.land_spec, Z.lor_spec.
  destruct (Z.testbit x n), (Z.testbit g n), (Z.testbit f n);
    cbn in *; congruence.
Qed.

(** The flags of line 208 are in every request. *)
Lemma request_flags (sc : smp_sc silo) f :
  Z.land (Z.lor (Z.lor (MAP_NOCORE P) (MAP_NOSYNC P)) (MAP_SHARED P)) f = f ->
  Z.land (fst (request sc)) f = f.
Proof.
  intros H. unfold request, mmap_request.
  destruct (negb (_ =? 0)); cbn [fst]; apply land_or_if_defined.
  - apply land_lor_keep. exact H.
  - exact H.
Qed.

(** What follows a validation that has passed only adds to the trace. *)
Lemma sizing_extends (sc : smp_sc silo) t :
  exists d,
    fst ((sc <- smp_metrics sc ;;
          emit (Call_MCH_Fd_Inherit (fd sc)) ;;; ret sc) t) = t ++ d.
Proof.
  destruct (smp_metrics_outcome region_length sizeof_object sc t)
    as [(_ & _ & sc' & Hmet & _) | (_ & Hmet)].
  - erewrite bind_Ret by exact Hmet. run_unfold. cbn [fst].
    rewrite <- app_assoc. eauto.
  - erewrite bind_Abort by exact Hmet. cbn [fst]. eauto.
Qed.

Lemma validation_extends (sc : smp_sc silo) t :
  exists d,
    fst ((sc <- validate_silo sc ;;
          sc <- smp_metrics sc ;;
          emit (Call_MCH_Fd_Inherit (fd sc)) ;;; ret sc) t)
    = t ++ check_events sc ++ d.
Proof.
  pose proof (validate_outcome sc t) as Hv.
  destruct (last_check sc =? 0).
  - erewrite bind_Ret by exact Hv.
    destruct (sizing_extends (validated_sc sc) (t ++ check_events sc))
      as [d Hd].
    rewrite Hd, <- app_assoc. eauto.
  - erewrite bind_Abort by exact Hv. cbn [fst].
    exists []. rewrite app_nil_r. reflexivity.
Qed.

Lemma land_page_mask x k :
  0 <= x < 2 ^ 64 -> 0 <= k ->
  Z.land x (to_uint64 (Z.lnot (2 ^ k - 1))) = x - x mod 2 ^ k.
Proof.
  intros Hx Hk. unfold to_uint64.
  replace (2 ^ k - 1) with (Z.ones k) by (rewrite Z.ones_equiv; lia).
  rewrite <- (Z.land_ones _ 64) by lia.
  rewrite (Z.land_comm (Z.lnot _)), Z.land_assoc, Z.land_ones by lia.
  rewrite (Z.mod_small x) by lia.
  rewrite <- Z.ldiff_land, Z.ldiff_ones_r by lia.
  rewrite Z.shiftl_mul_pow2, Z.shiftr_div_pow2 by lia.
  assert (0 < 2 ^ k) by (apply Z.pow_pos_nonneg; lia).
  pose proof (Z.div_mod x (2 ^ k) ltac:(lia)). lia.
Qed.

(** X15.  Lines 225-230.  On FreeBSD, for a backing file with no
    preferred address, the address handed to [mmap] is a multiple of the
    page size, less than a page below [sbrk(0) - 16 MiB - mediasize], and
    a mapping of [mediasize] bytes placed there ends at least 16 MiB
    below the break.  (The page size is a power of two, pointers have at
    most 64 bits, and the break is at least 16 MiB plus the media size
    above zero.) *)
Theorem mmap_hint_below_break (sc : smp_sc silo) k :
  FreeBSD P = true ->
  mmap_target (read_sign sc) = 0 ->
  getpagesize P = 2 ^ k -> 0 <= k ->
  8 * sizeof_void_p P <= 64 ->
  0 <= mediasize sc ->
  2 ^ 24 + mediasize sc <= sbrk0 W < 2 ^ (8 * sizeof_void_p P) ->
  snd (request sc) mod getpagesize P = 0 /\
  sbrk0 W - 2 ^ 24 - mediasize sc - getpagesize P < snd (request sc) /\
  snd (request sc) + mediasize sc + 2 ^ 24 <= sbrk0 W.
Proof.
  intros Hbsd Ht Hps Hk Hw Hmsz Hbrk.
  unfold request, mmap_request. rewrite Ht. cbn [Z.eqb negb].
  rewrite Hbsd. cbn [snd].
  unfold below_break, to_uintptr. rewrite Z.shiftl_1_l, Hps.
  set (w := 8 * sizeof_void_p P) in *.
  assert (Hw64 : 2 ^ w <= 2 ^ 64) by (apply Z.pow_le_mono_r; lia).
  assert (Hpg : 0 < 2 ^ k) by (apply Z.pow_pos_nonneg; lia).
  rewrite (Z.mod_small (sbrk0 W)) by lia.
  rewrite (Z.mod_small (sbrk0 W - 2 ^ 24)) by lia.
  rewrite (Z.mod_small (sbrk0 W - 2 ^ 24 - mediasize sc)) by lia.
  rewrite land_page_mask by lia.
  set (x := sbrk0 W - 2 ^ 24 - mediasize sc) in *.
  pose proof (Z.mod_pos_bound x (2 ^ k) Hpg) as Hm.
  assert (Hx : 0 <= x < 2 ^ w) by (unfold x; lia).
  pose proof (Z.mod_le x (2 ^ k) ltac:(lia) Hpg) as Hle.
  rewrite (Z.mod_small (x - x mod 2 ^ k)) by lia.
  split; [| lia].
  pose proof (Z.div_mod x (2 ^ k) ltac:(lia)) as Hd.
  replace (x - x mod 2 ^ k) with (x / 2 ^ k * 2 ^ k) by lia.
  apply Z.mod_mul. lia.
Qed.

Section Outcomes.

Variables (parent_stv ac : Z) (av : Z -> option string).

Local Abbreviation the_run := (run (smp_mgt_init parent_stv ac av)).
Local Abbreviation sc0 := (opened_sc (fresh_sc parent_stv) av).
Local Abbreviation pre := (aslr_events ++ sizeof_messages).
Local Abbreviation opened :=
  (ac = 2 /\ getfile_code av <> 2 /\
   ftruncate W (fd sc0) (mediasize sc0) = 0).
Local Abbreviation full_read :=
  (Z.of_nat (List.length (read_sign sc0)) = sizeof_smp_sign P).

(** A run in which an assertion of the start fails. *)
Lemma run_startup_fails :
  ~ startup_holds ac av ->
  exists d what,
    the_run = (d, Abort (Assert_fail what)) /\
    forall e, In e d -> startup_event e = true.
Proof.
  intros H.
  destruct (startup_fails parent_stv ac av [] H) as (d & what & Hst & Hd).
  exists d, what. split; [| exact Hd].
  unfold run, smp_mgt_init, bring_up_mapping, bring_up_file.
  erewrite bind_Abort; [reflexivity |].
  erewrite bind_Abort; [reflexivity |].
  erewrite bind_Abort; [reflexivity |]. exact Hst.
Qed.

(** The eight ways a run ends once the assertions of the start hold. *)
Lemma run_cases :
  startup_holds ac av ->
  (ac <> 2 /\
   the_run
   = (pre, Abort (Argv_err "(-spersistent) wrong number of arguments")))
  \/
  (ac = 2 /\ getfile_code av = 2 /\
   the_run
   = (pre ++ [Call_STV_GetFile (av 0)],
      Abort (Argv_err "(-spersistent) need filename (not directory)")))
  \/
  (ac = 2 /\ getfile_code av <> 2 /\
   ftruncate W (fd sc0) (mediasize sc0) <> 0 /\
   the_run
   = (pre ++ file_events sc0 av,
      Abort (Assert_fail "AZ(ftruncate(sc->fd, sc->mediasize))")))
  \/
  (opened /\ ~ full_read /\
   the_run
   = (pre ++ file_events sc0 av ++ [Sys_read (fd sc0) (sizeof_smp_sign P)],
      Abort (Assert_fail "i == sizeof sgn")))
  \/
  (opened /\ full_read /\ mmap_result sc0 = None /\
   the_run
   = (pre ++ file_events sc0 av
          ++ [Sys_read (fd sc0) (sizeof_smp_sign P); mmap_event sc0],
      Abort (Argv_err "(-spersistent) failed to mmap")))
  \/
  (exists b,
     opened /\ full_read /\ mmap_result sc0 = Some b /\
     last_check (mapped_sc sc0 b) <> 0 /\
     the_run
     = (pre ++ file_events sc0 av ++ map_events sc0 b
            ++ check_events (mapped_sc sc0 b),
        Abort (Assert_fail "AZ(smp_valid_silo(sc))")))
  \/
  (exists b,
     opened /\ full_read /\ mmap_result sc0 = Some b /\
     last_check (mapped_sc sc0 b) = 0 /\
     (max_nseg_init (validated_sc (mapped_sc sc0 b)) = 0 \/
      data_capacity (validated_sc (mapped_sc sc0 b)) < sizeof_object) /\
     the_run
     = (pre ++ file_events sc0 av ++ map_events sc0 b
            ++ check_events (mapped_sc sc0 b)
            ++ [Stderr (Msg_min_nseg 10
                  (data_capacity (validated_sc (mapped_sc sc0 b)) / 10))],
        Abort Div_by_zero))
  \/
  (exists b sc',
     opened /\ full_read /\ mmap_result sc0 = Some b /\
     last_check (mapped_sc sc0 b) = 0 /\
     max_nseg_init (validated_sc (mapped_sc sc0 b)) <> 0 /\
     sizeof_object <= data_capacity (validated_sc (mapped_sc sc0 b)) /\
     sized region_length sizeof_object isqrt_average
           (validated_sc (mapped_sc sc0 b)) sc' /\
     the_run
     = (pre ++ file_events sc0 av ++ map_events sc0 b
            ++ check_events (mapped_sc sc0 b)
            ++ sizing_events sc' ++ [Call_MCH_Fd_Inherit (fd sc')],
        Ret sc')).
Proof.
  intros Hs. pose proof (startup_run parent_stv ac av [] Hs) as Hst.
  cbn [app] in Hst.
  destruct (Z.eq_dec ac 2) as [Hac | Hac].
  2: { left. split; [exact Hac |].
       unfold run, smp_mgt_init, bring_up_mapping, bring_up_file.
       erewrite bind_Abort; [reflexivity |].
       erewrite bind_Abort; [reflexivity |].
       erewrite bind_Ret by exact Hst.
       apply open_wrong_arity. exact Hac. }
  right.
  destruct (Z.eq_dec (getfile_code av) 2) as [Hg | Hg].
  { left. split; [exact Hac |]. split; [exact Hg |].
    unfold run, smp_mgt_init, bring_up_mapping, bring_up_file.
    erewrite bind_Abort; [reflexivity |].
    erewrite bind_Abort; [reflexivity |].
    erewrite bind_Ret by exact Hst.
    rewrite Hac. apply open_directory. exact Hg. }
  right.
  assert (Hf : bring_up_file parent_stv ac av [] =
               (pre ++ file_events sc0 av,
                if ftruncate W (fd sc0) (mediasize sc0) =? 0 then Ret sc0
                else Abort (Assert_fail
                              "AZ(ftruncate(sc->fd, sc->mediasize))"))).
  { rewrite Hac. rewrite Hac in Hs.
    exact (bring_up_file_run parent_stv av Hs Hg). }
  destruct (Z.eqb_spec (ftruncate W (fd sc0) (mediasize sc0)) 0)
    as [Hft | Hft].
  2: { left. split; [exact Hac |]. split; [exact Hg |]. split; [exact Hft |].
       unfold run, smp_mgt_init, bring_up_mapping.
       erewrite bind_Abort; [reflexivity |].
       erewrite bind_Abort; [reflexivity |]. exact Hf. }
  right.
  assert (Hop : opened) by (repeat split; assumption).
  rewrite (init_from_file _ _ _ _ _ Hf).
  destruct (Z.eq_dec (Z.of_nat (List.length (read_sign sc0)))
                     (sizeof_smp_sign P)) as [Hfull | Hpart].
  2: { left. split; [exact Hop |]. split; [exact Hpart |].
       erewrite bind_Abort by (apply map_partial_read; exact Hpart).
       rewrite <- !app_assoc. reflexivity. }
  right.
  pose proof (map_whole_read sc0 (pre ++ file_events sc0 av) Hfull) as Hmap.
  destruct (mmap_result sc0) as [b |] eqn:Hb.
  2: { left. split; [exact Hop |]. split; [exact Hfull |].
       split; [reflexivity |].
       erewrite bind_Abort by exact Hmap.
       rewrite <- !app_assoc. reflexivity. }
  right.
  erewrite bind_Ret by exact Hmap.
  pose proof (validate_outcome (mapped_sc sc0 b)
                ((pre ++ file_events sc0 av) ++ map_events sc0 b)) as Hv.
  destruct (Z.eqb_spec (last_check (mapped_sc sc0 b)) 0) as [Hl | Hl].
  2: { left. exists b. split; [exact Hop |]. split; [exact Hfull |].
       split; [reflexivity |]. split; [exact Hl |].
       erewrite bind_Abort by exact Hv.
       rewrite <- !app_assoc. reflexivity. }
  right.
  erewrite bind_Ret by exact Hv.
  destruct (smp_metrics_outcome region_length sizeof_object
              (validated_sc (mapped_sc sc0 b))
              (((pre ++ file_events sc0 av) ++ map_events sc0 b)
                 ++ check_events (mapped_sc sc0 b)))
    as [(Hnz & Hge & sc' & Hmet & Hsz) | (Hc & Hmet)].
  - right. exists b, sc'. split; [exact Hop |]. split; [exact Hfull |].
    split; [reflexivity |]. split; [exact Hl |]. split; [exact Hnz |].
    split; [exact Hge |]. split; [exact Hsz |].
    erewrite bind_Ret by exact Hmet.
    run_unfold. rewrite <- !app_assoc. reflexivity.
  - left. exists b. split; [exact Hop |]. split; [exact Hfull |].
    split; [reflexivity |]. split; [exact Hl |]. split; [exact Hc |].
    erewrite bind_Abort by exact Hmet.
    rewrite <- !app_assoc. reflexivity.
Qed.

Ltac run_analysis Hs :=
  destruct (run_cases Hs) as
    [ (Hac & Hrun)
    | [ (Hac & Hg & Hrun)
    | [ (Hac & Hg & Hft & Hrun)
    | [ ((Hac & Hg & Hft) & Hpart & Hrun)
    | [ ((Hac & Hg & Hft) & Hfull & Hb & Hrun)
    | [ (b & (Hac & Hg & Hft) & Hfull & Hb & Hl & Hrun)
    | [ (b & (Hac & Hg & Hft) & Hfull & Hb & Hl & Hc & Hrun)
    | (b & sc1 & (Hac & Hg & Hft) & Hfull & Hb & Hl & Hnz & Hge & Hsz
         & Hrun) ]]]]]]].

(** Membership in a trace, part by part. *)
Ltac in_split H :=
  repeat match type of H with
         | In _ (_ ++ _) => apply in_app_or in H; destruct H as [H | H]
         | In _ (_ :: _) => destruct H as [H | H]
         | In _ [] => destruct H
         | In _ (if ?c then _ else _) => destruct c eqn:?
         end.

(** An event that is none of those of the start is met after them. *)
Ltac skip_pre H :=
  apply in_app_or in H;
  destruct H as [H | H]; [apply pre_startup in H; discriminate H |].

Ltac trace_events H :=
  unfold file_events, map_events, check_events, sizing_events in H;
  in_split H.

(** X8.  [smp_mgt_init] completes exactly when every one of its checks
    passes: the assertions of the start, two arguments, a path that is no
    directory, [ftruncate] returning 0, the [read] returning a whole
    signature block, [mmap] returning an address, the validation of line
    256 returning 0, and in [smp_metrics] a first [max_nseg] that is not
    zero and a data space that holds a record. *)
Theorem smp_mgt_init_completes_iff :
  (exists t sc', run (smp_mgt_init parent_stv ac av) = (t, Ret sc')) <->
  bring_up_conditions parent_stv ac av.
Proof.
  split.
  - intros (t & sc' & H).
    destruct (startup_holds_dec ac av) as [Hs | Hs].
    2: { destruct (run_startup_fails Hs) as (d & what & Hrun & _).
         rewrite Hrun in H. discriminate. }
    run_analysis Hs; rewrite Hrun in H; try discriminate.
    unfold bring_up_conditions.
    split; [exact Hs |]. split; [exact Hac |]. split; [exact Hg |].
    split; [exact Hft |]. split; [exact Hfull |].
    exists b. repeat split; assumption.
  - intros (Hs & Hac0 & Hg0 & Hft0 & Hfull0 & b0 & Hb0 & Hl0 & Hnz0 & Hge0).
    run_analysis Hs; try contradiction; try congruence.
    + assert (b = b0) by congruence. subst b0.
      destruct Hc as [Hc | Hc]; [contradiction | lia].
    + eauto.
Qed.

(** X9.  The handle a completed run stores in [parent->priv]: the parent
    it was given, the descriptor and the file name of [STV_GetFile], an
    alignment of two pointers, the media size and the granularity of
    [STV_FileSize] (asked with the page size), a file brought to that
    media size, the address [mmap] returned, no segment, and the region
    as the validation of line 256 left it.  The run has then written the
    four lines of [smp_metrics] for that handle, and its last event is
    [MCH_Fd_Inherit] on the descriptor of the handle. *)
Theorem smp_mgt_init_handle t sc' :
  run (smp_mgt_init parent_stv ac av) = (t, Ret sc') ->
  parent sc' = parent_stv /\
  fd sc' = snd (fst (STV_GetFile W (av 0))) /\
  filename sc' = snd (STV_GetFile W (av 0)) /\
  align sc' = sizeof_void_p P * 2 /\
  (mediasize sc', granularity sc')
  = STV_FileSize W (fd sc') (av 1) (getpagesize P) /\
  ftruncate W (fd sc') (mediasize sc') = 0 /\
  mmap_result sc0 = Some (base sc') /\
  segments sc' = [] /\
  ident sc'
  = Some (snd (smp_valid_silo W (checked_sc (mapped_sc sc0 (base sc'))))) /\
  exists t0,
    t = t0 ++ sizing_events sc' ++ [Call_MCH_Fd_Inherit (fd sc')].
Proof.
  intros H.
  destruct (startup_holds_dec ac av) as [Hs | Hs].
  2: { destruct (run_startup_fails Hs) as (d & what & Hrun & _).
       rewrite Hrun in H. discriminate. }
  run_analysis Hs; rewrite Hrun in H; try discriminate.
  pose proof (f_equal fst H) as Ht. pose proof (f_equal snd H) as Hsc.
  cbn [fst snd] in Ht, Hsc. injection Hsc as Hsc. subst t sc1. clear H.
  destruct Hsz as [Hid Hrest _ _ _ _ _ _ _ _ _ _ _].
  destruct (validated_fields (mapped_sc sc0 b)) as [Hv Hvid].
  rewrite Hv in Hrest. rewrite Hvid in Hid.
  cbn [mapped_sc parent fd filename align granularity mediasize base
       segments set_ident set_base] in Hrest.
  inversion Hrest as [[E1 E2 E3 E4 E5 E6 E7 E8]].
  rewrite E1, E2, E3, E4, E5, E6, E7, E8.
  destruct (opened_fields parent_stv av) as (F1 & F2 & F3 & F4 & F5 & F6).
  cbv zeta in F1, F2, F3, F4, F5, F6.
  split; [exact F1 |]. split; [exact F2 |]. split; [exact F3 |].
  split; [exact F4 |]. split; [exact F5 |].
  split; [exact Hft |]. split; [exact Hb |]. split; [exact F6 |].
  split; [exact Hid |].
  exists (pre ++ file_events sc0 av ++ map_events sc0 b
              ++ check_events (mapped_sc sc0 b)).
  rewrite <- !app_assoc. reflexivity.
Qed.

(** X10.  In every run, whatever its outcome, an [mmap] is the third of
    three successive events [ftruncate(fd, len)], [read(fd, ...,
    sizeof sgn)], [mmap(..., len, ..., fd)] on the same descriptor and
    with the same length, and the run's only events that touch the
    backing file; that [ftruncate] has returned 0; the protection is
    [PROT_READ|PROT_WRITE], and the flags hold [MAP_NOCORE], [MAP_NOSYNC]
    and [MAP_SHARED]. *)
Theorem smp_mgt_init_maps_truncated_file addr len prot flags mfd :
  In (Sys_mmap addr len prot flags mfd)
     (fst (run (smp_mgt_init parent_stv ac av))) ->
  (exists t1 t2,
     fst (run (smp_mgt_init parent_stv ac av))
     = t1 ++ [Sys_ftruncate mfd len;
              Sys_read mfd (sizeof_smp_sign P);
              Sys_mmap addr len prot flags mfd] ++ t2 /\
     forall e, In e (t1 ++ t2) -> touches_backing e = false) /\
  ftruncate W mfd len = 0 /\
  prot = Z.lor (PROT_READ P) (PROT_WRITE P) /\
  Z.land flags (MAP_NOCORE P) = MAP_NOCORE P /\
  Z.land flags (MAP_NOSYNC P) = MAP_NOSYNC P /\
  Z.land flags (MAP_SHARED P) = MAP_SHARED P.
Proof.
  intros Hin.
  assert (Hshape : exists tail,
            ftruncate W (fd sc0) (mediasize sc0) = 0 /\
            fst the_run
            = pre ++ file_events sc0 av
                  ++ [Sys_read (fd sc0) (sizeof_smp_sign P); mmap_event sc0]
                  ++ tail /\
            forall e, In e tail -> touches_backing e = false).
  { destruct (startup_holds_dec ac av) as [Hs | Hs].
    2: { destruct (run_startup_fails Hs) as (d & what & Hrun & Hd).
         rewrite Hrun in Hin. cbn [fst] in Hin.
         apply Hd in Hin. discriminate. }
    run_analysis Hs; rewrite Hrun in Hin |- *; cbn [fst] in Hin |- *.
    - apply pre_startup in Hin. discriminate.
    - skip_pre Hin. trace_events Hin; discriminate.
    - skip_pre Hin. trace_events Hin; discriminate.
    - skip_pre Hin. trace_events Hin; discriminate.
    - exists []. split; [exact Hft |]. split; [| intros e []].
      rewrite app_nil_r. reflexivity.
    - eexists. split; [exact Hft |]. split.
      + unfold map_events. rewrite <- !app_assoc. reflexivity.
      + intros e He. trace_events He; subst e; reflexivity.
    - eexists. split; [exact Hft |]. split.
      + unfold map_events. rewrite <- !app_assoc. reflexivity.
      + intros e He. trace_events He; subst e; reflexivity.
    - eexists. split; [exact Hft |]. split.
      + unfold map_events. rewrite <- !app_assoc. reflexivity.
      + intros e He. trace_events He; subst e; reflexivity. }
  destruct Hshape as (tail & Hft & Hrun & Htail).
  rewrite Hrun in Hin |- *.
  assert (E : Sys_mmap addr len prot flags mfd = mmap_event sc0).
  { skip_pre Hin. trace_events Hin; try discriminate.
    - symmetry. exact Hin.
    - apply Htail in Hin. discriminate. }
  unfold mmap_event in E. inversion E; subst addr len prot flags mfd.
  clear E Hin.
  split.
  - exists (pre ++ [Call_STV_GetFile (av 0);
                    Call_STV_FileSize (fd sc0) (av 1)]), tail.
    split.
    + unfold file_events. rewrite <- !app_assoc. reflexivity.
    + intros e He. apply in_app_or in He. destruct He as [He | He].
      * apply in_app_or in He. destruct He as [He | He].
        -- apply startup_events_quiet. exact He.
        -- in_split He; subst e; reflexivity.
      * apply Htail. exact He.
  - split; [exact Hft |]. split; [reflexivity |].
    split; [| split]; apply request_flags.
    + rewrite <- Z.lor_assoc, Z.lor_comm. apply land_lor_same.
    + apply land_lor_keep. apply land_lor_same.
    + apply land_lor_same.
Qed.

(** X11.  [smp_newsilo] is called in a run exactly when the silo has been
    mapped and its first validation, that of line 250, has returned a
    value other than 0: a silo that validates is never made anew. *)
Theorem smp_mgt_init_newsilo_guard :
  In Call_smp_newsilo (fst (run (smp_mgt_init parent_stv ac av))) <->
  exists t sc,
    bring_up_mapping parent_stv ac av [] = (t, Ret sc) /\
    fst (smp_valid_silo W sc) <> 0.
Proof.
  split.
  - intros Hin.
    destruct (startup_holds_dec ac av) as [Hs | Hs].
    2: { destruct (run_startup_fails Hs) as (d & what & Hrun & Hd).
         rewrite Hrun in Hin. cbn [fst] in Hin.
         apply Hd in Hin. discriminate. }
    assert (Hmap : forall b,
              ac = 2 -> getfile_code av <> 2 ->
              ftruncate W (fd sc0) (mediasize sc0) = 0 ->
              full_read -> mmap_result sc0 = Some b ->
              bring_up_mapping parent_stv ac av []
              = ((pre ++ file_events sc0 av) ++ map_events sc0 b,
                 Ret (mapped_sc sc0 b))).
    { intros b Hac Hg Hft Hfull Hb. subst ac.
      pose proof (bring_up_file_run parent_stv av Hs Hg) as Hf.
      cbv zeta in Hf. rewrite Hft in Hf. cbn [Z.eqb] in Hf.
      unfold bring_up_mapping. erewrite bind_Ret by exact Hf.
      rewrite (map_whole_read _ _ Hfull), Hb. reflexivity. }
    run_analysis Hs; rewrite Hrun in Hin; cbn [fst] in Hin;
      try specialize (Hmap b Hac Hg Hft Hfull Hb).
    + apply pre_startup in Hin. discriminate.
    + skip_pre Hin. trace_events Hin; discriminate.
    + skip_pre Hin. trace_events Hin; discriminate.
    + skip_pre Hin. trace_events Hin; discriminate.
    + skip_pre Hin. unfold mmap_event in Hin.
      trace_events Hin; discriminate.
    + exists ((pre ++ file_events sc0 av) ++ map_events sc0 b),
             (mapped_sc sc0 b).
      split; [exact Hmap |].
      skip_pre Hin. unfold mmap_event in Hin.
      trace_events Hin; try discriminate.
      apply Z.eqb_neq. assumption.
    + exists ((pre ++ file_events sc0 av) ++ map_events sc0 b),
             (mapped_sc sc0 b).
      split; [exact Hmap |].
      skip_pre Hin. unfold mmap_event in Hin.
      trace_events Hin; try discriminate.
      apply Z.eqb_neq. assumption.
    + exists ((pre ++ file_events sc0 av) ++ map_events sc0 b),
             (mapped_sc sc0 b).
      split; [exact Hmap |].
      skip_pre Hin. unfold mmap_event in Hin.
      trace_events Hin; try discriminate.
      apply Z.eqb_neq. assumption.
  - intros (t & sc & Hm & Hi).
    rewrite (init_from_mapping _ _ _ _ _ Hm).
    destruct (validation_extends sc t) as [d ->].
    apply in_or_app. right. apply in_or_app. left.
    unfold check_events.
    destruct (Z.eqb_spec (fst (smp_valid_silo W sc)) 0);
      [contradiction |].
    cbn. auto.
Qed.

(** X12.  [MCH_Fd_Inherit] is called in a run exactly when the run
    completes; the call is then the last event of the run, the only one
    of its kind, and its descriptor is that of the handle. *)
Theorem smp_mgt_init_inherits_on_success f :
  In (Call_MCH_Fd_Inherit f) (fst (run (smp_mgt_init parent_stv ac av))) <->
  exists t sc',
    run (smp_mgt_init parent_stv ac av)
    = (t ++ [Call_MCH_Fd_Inherit f], Ret sc') /\
    f = fd sc' /\
    forall g, ~ In (Call_MCH_Fd_Inherit g) t.
Proof.
  split.
  - intros Hin.
    destruct (startup_holds_dec ac av) as [Hs | Hs].
    2: { destruct (run_startup_fails Hs) as (d & what & Hrun & Hd).
         rewrite Hrun in Hin. cbn [fst] in Hin.
         apply Hd in Hin. discriminate. }
    run_analysis Hs; rewrite Hrun in Hin |- *; cbn [fst] in Hin.
    + apply pre_startup in Hin. discriminate.
    + skip_pre Hin. trace_events Hin; discriminate.
    + skip_pre Hin. trace_events Hin; discriminate.
    + skip_pre Hin. trace_events Hin; discriminate.
    + skip_pre Hin. unfold mmap_event in Hin.
      trace_events Hin; discriminate.
    + skip_pre Hin. unfold mmap_event in Hin.
      trace_events Hin; discriminate.
    + skip_pre Hin. unfold mmap_event in Hin.
      trace_events Hin; discriminate.
    + assert (Hf : f = fd sc1).
      { skip_pre Hin. unfold mmap_event in Hin.
        trace_events Hin; try discriminate.
        inversion Hin. reflexivity. }
      subst f.
      exists (pre ++ file_events sc0 av ++ map_events sc0 b
                  ++ check_events (mapped_sc sc0 b) ++ sizing_events sc1),
             sc1.
      split; [rewrite <- !app_assoc; reflexivity |].
      split; [reflexivity |].
      intros g Hg'. skip_pre Hg'. unfold mmap_event in Hg'.
      trace_events Hg'; discriminate.
  - intros (t & sc' & Hrun & _ & _). rewrite Hrun. cbn [fst].
    apply in_or_app. right. cbn. auto.
Qed.

(** X13.  The warning "Persistent silo lost to ASLR" is in the trace of a
    run exactly when the backing file was opened, the signature block
    read in full, and [mmap], handed an address other than [NULL],
    returned another one.  The address handed over is the preferred
    address of the signature block or, on FreeBSD when there is none, the
    placement below the break; the name in the warning is the file name
    of the handle. *)
Theorem smp_mgt_init_lost_warning fn :
  In (Stderr (Msg_lost_to_aslr fn))
     (fst (run (smp_mgt_init parent_stv ac av))) <->
  exists t sc b,
    bring_up_file parent_stv ac av [] = (t, Ret sc) /\
    Z.of_nat (List.length (read_sign sc)) = sizeof_smp_sign P /\
    mmap_result sc = Some b /\
    snd (request sc) <> 0 /\
    b <> snd (request sc) /\
    fn = filename sc.
Proof.
  split.
  - intros Hin.
    destruct (startup_holds_dec ac av) as [Hs | Hs].
    2: { destruct (run_startup_fails Hs) as (d & what & Hrun & Hd).
         rewrite Hrun in Hin. cbn [fst] in Hin.
         apply Hd in Hin. discriminate. }
    assert (Hfile : ac = 2 -> getfile_code av <> 2 ->
              ftruncate W (fd sc0) (mediasize sc0) = 0 ->
              bring_up_file parent_stv ac av []
              = (pre ++ file_events sc0 av, Ret sc0)).
    { intros Hac Hg Hft. subst ac.
      pose proof (bring_up_file_run parent_stv av Hs Hg) as Hf.
      cbv zeta in Hf. rewrite Hft in Hf. exact Hf. }
    assert (Hwarn : forall b,
              In (Stderr (Msg_lost_to_aslr fn)) (map_events sc0 b) ->
              snd (request sc0) <> 0 /\ b <> snd (request sc0) /\
              fn = filename sc0).
    { intros b H. unfold map_events, mmap_event in H.
      in_split H; try discriminate.
      match goal with
      | E : _ && _ = true |- _ =>
          apply andb_prop in E; destruct E as [E1 E2];
          apply negb_true_iff in E1, E2;
          apply Z.eqb_neq in E1, E2
      end.
      inversion H. repeat split; assumption. }
    run_analysis Hs; rewrite Hrun in Hin; cbn [fst] in Hin;
      try specialize (Hfile Hac Hg Hft).
    + apply pre_startup in Hin. discriminate.
    + skip_pre Hin. trace_events Hin; discriminate.
    + skip_pre Hin. trace_events Hin; discriminate.
    + skip_pre Hin. trace_events Hin; discriminate.
    + skip_pre Hin. unfold mmap_event in Hin.
      trace_events Hin; discriminate.
    + exists (pre ++ file_events sc0 av), sc0, b.
      split; [exact Hfile |]. split; [exact Hfull |]. split; [exact Hb |].
      apply Hwarn.
      skip_pre Hin. apply in_app_or in Hin. destruct Hin as [Hin | Hin];
        [trace_events Hin; discriminate |].
      apply in_app_or in Hin. destruct Hin as [Hin | Hin]; [exact Hin |].
      trace_events Hin; discriminate.
    + exists (pre ++ file_events sc0 av), sc0, b.
      split; [exact Hfile |]. split; [exact Hfull |]. split; [exact Hb |].
      apply Hwarn.
      skip_pre Hin. apply in_app_or in Hin. destruct Hin as [Hin | Hin];
        [trace_events Hin; discriminate |].
      apply in_app_or in Hin. destruct Hin as [Hin | Hin]; [exact Hin |].
      trace_events Hin; discriminate.
    + exists (pre ++ file_events sc0 av), sc0, b.
      split; [exact Hfile |]. split; [exact Hfull |]. split; [exact Hb |].
      apply Hwarn.
      skip_pre Hin. apply in_app_or in Hin. destruct Hin as [Hin | Hin];
        [trace_events Hin; discriminate |].
      apply in_app_or in Hin. destruct Hin as [Hin | Hin]; [exact Hin |].
      trace_events Hin; discriminate.
  - intros (t & sc & b & Hf & Hfull & Hb & Hreq & Hne & ->).
    rewrite (init_from_file _ _ _ _ _ Hf).
    pose proof (map_whole_read sc t Hfull) as Hmap. rewrite Hb in Hmap.
    erewrite bind_Ret by exact Hmap.
    destruct (validation_extends (mapped_sc sc b) (t ++ map_events sc b))
      as [d ->].
    apply in_or_app. left. apply in_or_app. right.
    unfold map_events.
    destruct (Z.eqb_spec (snd (request sc)) 0); [contradiction |].
    destruct (Z.eqb_spec b (snd (request sc))); [contradiction |].
    cbn. auto.
Qed.

(** X16.  How a run can end early.  An [ARGV_ERR] is one of three: the
    argument count is not two, the path is a directory, or [mmap] has
    failed.  A division by zero is that of [smp_metrics] on a silo that
    is mapped and validated and has a first [max_nseg] of zero or a data
    space smaller than a record.  An assertion fails at the start, at the
    [ftruncate], at a short [read], or at the validation of line 256.
    The bound of the loop of [smp_metrics] is never used up. *)
Theorem smp_mgt_init_aborts e :
  snd (run (smp_mgt_init parent_stv ac av)) = Abort e ->
  match e with
  | Argv_err msg =>
      startup_holds ac av /\
      ((ac <> 2 /\
        msg = "(-spersistent) wrong number of arguments"%string) \/
       (ac = 2 /\ getfile_code av = 2 /\
        msg = "(-spersistent) need filename (not directory)"%string) \/
       (opened /\ full_read /\ mmap_result sc0 = None /\
        msg = "(-spersistent) failed to mmap"%string))
  | Div_by_zero =>
      startup_holds ac av /\ opened /\ full_read /\
      exists b,
        mmap_result sc0 = Some b /\
        last_check (mapped_sc sc0 b) = 0 /\
        (max_nseg_init (validated_sc (mapped_sc sc0 b)) = 0 \/
         data_capacity (validated_sc (mapped_sc sc0 b)) < sizeof_object)
  | Assert_fail _ =>
      ~ startup_holds ac av \/
      (ac = 2 /\ getfile_code av <> 2 /\
       ftruncate W (fd sc0) (mediasize sc0) <> 0) \/
      (opened /\ ~ full_read) \/
      (opened /\ full_read /\
       exists b,
         mmap_result sc0 = Some b /\ last_check (mapped_sc sc0 b) <> 0)
  | Loop_bound => False
  end.
Proof.
  intros H.
  destruct (startup_holds_dec ac av) as [Hs | Hs].
  2: { destruct (run_startup_fails Hs) as (d & what & Hrun & _).
       rewrite Hrun in H. injection H as <-. left. exact Hs. }
  run_analysis Hs; rewrite Hrun in H; cbn [snd] in H;
    try discriminate; injection H as <-.
  - split; [exact Hs |]. left. split; [exact Hac | reflexivity].
  - split; [exact Hs |]. right; left. repeat split; assumption.
  - right; left. repeat split; assumption.
  - right; right; left. repeat split; assumption.
  - split; [exact Hs |]. right; right. repeat split; assumption.
  - right; right; right. split; [repeat split; assumption |].
    split; [exact Hfull |]. exists b. split; assumption.
  - split; [exact Hs |]. split; [repeat split; assumption |].
    split; [exact Hfull |]. exists b. repeat split; assumption.
Qed.

End Outcomes.

End BringUpFacts.

(* ------------------------------------------------------------------ *)
(** * The answers of personality *)

Section AslrFacts.

Context {silo : Type}.
Variable region_length : silo -> smp_stuff -> Z.
Variable sizeof_object : Z.
Variable P : platform.
Variable W : world silo.

Lemma same_result_ret {A} (a : A) : same_result (ret a) (ret a).
Proof. intros t1 t2. reflexivity. Qed.

Lemma same_result_stop {A} (e : abort) :
  same_result (@stop A e) (@stop A e).
Proof. intros t1 t2. reflexivity. Qed.

Lemma same_result_emit e1 e2 : same_result (emit e1) (emit e2).
Proof. intros t1 t2. reflexivity. Qed.

Lemma same_result_bind {A B} (m1 m2 : M A) (f1 f2 : A -> M B) :
  same_result m1 m2 ->
  (forall a, same_result (f1 a) (f2 a)) ->
  same_result (bind m1 f1) (bind m2 f2).
Proof.
  intros Hm Hf t1 t2. unfold bind. specialize (Hm t1 t2).
  destruct (m1 t1) as [u1 [a1 | e1]], (m2 t2) as [u2 [a2 | e2]];
    cbn [snd] in Hm; try discriminate.
  - injection Hm as ->. apply Hf.
  - cbn [snd]. injection Hm as ->. reflexivity.
Qed.

Lemma same_result_assert c what :
  same_result (assert c what) (assert c what).
Proof. intros t1 t2. unfold assert. destruct c; reflexivity. Qed.

Lemma same_result_udiv a b : same_result (udiv a b) (udiv a b).
Proof. intros t1 t2. unfold udiv. destruct (b =? 0); reflexivity. Qed.

Ltac same_step :=
  repeat first
    [ apply same_result_ret
    | apply same_result_stop
    | apply same_result_emit
    | apply same_result_assert
    | apply same_result_udiv
    | apply same_result_bind; [| intros ?; cbv beta]
    | match goal with
      | |- same_result (if ?c then _ else _) (if ?c then _ else _) =>
          destruct c
      | |- same_result (match ?x with _ => _ end)
                       (match ?x with _ => _ end) =>
          destruct x
      end ].

Lemma same_result_halve n : forall sc : smp_sc silo,
  same_result (halve region_length sizeof_object n sc)
              (halve region_length sizeof_object n sc).
Proof.
  induction n as [| n IH]; intros sc; cbn [halve]; same_step.
  apply IH.
Qed.

Lemma same_result_smp_metrics (sc : smp_sc silo) :
  same_result (smp_metrics region_length sizeof_object sc)
              (smp_metrics region_length sizeof_object sc).
Proof.
  unfold smp_metrics, smp_metrics_body, fprintf_stderr. same_step.
  apply same_result_halve.
Qed.

Lemma same_result_open (sc : smp_sc silo) ac av :
  same_result (open_backing_store P W sc ac av)
              (open_backing_store P W sc ac av).
Proof. unfold open_backing_store, ARGV_ERR. same_step. Qed.

Lemma same_result_map (sc : smp_sc silo) :
  same_result (map_silo P W sc) (map_silo P W sc).
Proof. unfold map_silo, ARGV_ERR, fprintf_stderr. same_step. Qed.

Lemma same_result_validate (sc : smp_sc silo) :
  same_result (validate_silo W sc) (validate_silo W sc).
Proof. unfold validate_silo, printf. same_step. Qed.

Lemma same_result_disable_aslr (p : Z -> Z) :
  same_result (disable_aslr P (with_personality W p)) (disable_aslr P W).
Proof. intros t1 t2. rewrite !disable_aslr_run. reflexivity. Qed.

Lemma bind_ext {A B} (m : M A) (f g : A -> M B) t :
  (forall a u, f a u = g a u) -> bind m f t = bind m g t.
Proof.
  intros H. unfold bind.
  destruct (m t) as [u [a | e]]; [apply H | reflexivity].
Qed.

(** The run with the integer square root. *)
Lemma smp_mgt_init_run_eq parent_stv ac av t :
  smp_mgt_init region_length sizeof_object P W parent_stv ac av t
  = smp_mgt_init_run region_length sizeof_object P W parent_stv ac av t.
Proof.
  unfold smp_mgt_init, smp_mgt_init_run.
  apply bind_ext. intros sc1 t1.
  apply bind_ext. intros sc2 t2.
  unfold bind at 1 3. rewrite smp_metrics_run_eq. reflexivity.
Qed.

(** X14.  What [personality] answers never changes how [smp_mgt_init]
    ends: in two worlds that differ in the answers of [personality] only,
    the run either stops in the same way or completes with the same
    handle.  (Only the lines about ASLR in the trace differ.) *)
Theorem smp_mgt_init_whatever_personality (p : Z -> Z) parent_stv ac av :
  snd (run (smp_mgt_init region_length sizeof_object P
              (with_personality W p) parent_stv ac av))
  = snd (run (smp_mgt_init region_length sizeof_object P W
                parent_stv ac av)).
Proof.
  unfold run.
  assert (H : same_result
                (smp_mgt_init region_length sizeof_object P
                   (with_personality W p) parent_stv ac av)
                (smp_mgt_init region_length sizeof_object P W
                   parent_stv ac av)); [| apply H].
  unfold smp_mgt_init, bring_up_mapping, bring_up_file.
  apply same_result_bind;
    [apply same_result_bind; [apply same_result_bind |] |].
  - unfold startup, fprintf_stderr.
    cbn [with_personality in_mgt ALLOC_OBJ].
    apply same_result_bind; [apply same_result_assert | intros _].
    apply same_result_bind; [apply same_result_assert | intros _].
    apply same_result_bind; [apply same_result_disable_aslr | intros _].
    same_step.
  - intros sc.
    change (open_backing_store P (with_personality W p) sc ac av)
      with (open_backing_store P W sc ac av).
    apply same_result_open.
  - intros sc.
    change (map_silo P (with_personality W p) sc) with (map_silo P W sc).
    apply same_result_map.
  - intros sc.
    apply same_result_bind.
    + change (validate_silo (with_personality W p) sc)
        with (validate_silo W sc).
      apply same_result_validate.
    + intros sc1. apply same_result_bind;
        [apply same_result_smp_metrics | intros sc2; same_step].
Qed.

End AslrFacts.

(* ------------------------------------------------------------------ *)
(** * The theorems at the example silos and worlds *)

Lemma smp_metrics_scenario :
  smp_metrics table_length 64 scenario []
  = (fst (smp_metrics_run table_length 64 scenario []),
     Ret (sized_by 64 scenario)).
Proof. rewrite smp_metrics_run_eq. vm_compute. reflexivity. Qed.

Lemma smp_metrics_one_page :
  smp_metrics table_length 512 one_page []
  = (fst (smp_metrics_run table_length 512 one_page []),
     Ret (sized_by 512 one_page)).
Proof. rewrite smp_metrics_run_eq. vm_compute. reflexivity. Qed.

Lemma smp_metrics_wide_table :
  smp_metrics table_length 64 wide_table []
  = (fst (smp_metrics_run table_length 64 wide_table []),
     Ret (sized_by 64 wide_table)).
Proof. rewrite smp_metrics_run_eq. vm_compute. reflexivity. Qed.



(** C2, witness: with one page of data space and records of 512 bytes
    the loop halves [max_nseg] 14 times, from 104857 to 6, and the run
    ends with segments of 682 bytes; with a segment table of 5 bytes the
    first [max_nseg] is zero and the run stops in the division by
    zero. *)
Lemma smp_metrics_halving_terminates_examples :
  (exists t' sc',
     smp_metrics table_length 512 one_page [] = (t', Ret sc') /\
     max_nseg sc' = 6 /\
     min_segl sc' = 682 /\
     512 <= min_segl sc' /\
     min_segl sc' = 4096 / max_nseg sc' /\
     exists k : nat,
       (k <= 31)%nat /\
       max_nseg sc' = 104857 / 2 ^ Z.of_nat k /\
       first_fit 4096 512 104857 k) /\
  smp_metrics table_length 64 short_table []
  = ([Stderr (Msg_min_nseg 10 10485760)], Abort Div_by_zero).
Proof.
  split.
  - destruct (proj1 (smp_metrics_halving_terminates table_length 512
                       one_page []))
      as (t' & sc' & Hrun & H1 & H2 & Hk).
    + vm_compute. discriminate.
    + vm_compute. discriminate.
    + exists t', sc'.
      assert (E : sized_by 512 one_page = sc').
      { pose proof Hrun as Hr. rewrite smp_metrics_one_page in Hr.
        pose proof (f_equal snd Hr) as Hs. cbn [snd] in Hs.
        apply Ret_inj in Hs. exact Hs. }
      split; [exact Hrun |]. rewrite <- E in *.
      split; [vm_compute; reflexivity |].
      split; [vm_compute; reflexivity |].
      split; [exact H1 |]. split; [exact H2 | exact Hk].
  - apply (proj2 (smp_metrics_halving_terminates table_length 64
                    short_table [])).
    left. vm_compute. reflexivity.
Defined.

(** C2, counterexample: with a data space of 32 bytes and records of 64
    bytes the loop halves [max_nseg] from 104857 down to zero and the run
    ends in the division by it. *)
Lemma smp_metrics_cramped_traps :
  smp_metrics table_length 64 cramped []
  = ([Stderr (Msg_min_nseg 10 3)], Abort Div_by_zero).
Proof. rewrite smp_metrics_run_eq. vm_compute. reflexivity. Qed.

(** C3, witness: the formulas at the scenario of the specification; a
    record fits into the segments of the first [max_nseg], which is
    kept. *)
Lemma smp_metrics_formulas_scenario :
  min_nseg (sized_by 64 scenario) = 10 /\
  max_segl (sized_by 64 scenario) = 104857600 / 10 /\
  max_nseg (sized_by 64 scenario) = 1048576 / 10 /\
  min_segl (sized_by 64 scenario)
    = 104857600 / max_nseg (sized_by 64 scenario) /\
  aim_segl (sized_by 64 scenario)
    = 104857600 / aim_nseg (sized_by 64 scenario) /\
  free_reserve (sized_by 64 scenario) = aim_segl (sized_by 64 scenario) * 10.
Proof.
  destruct (smp_metrics_formulas table_length 64 scenario [] _ _
              smp_metrics_scenario)
    as (H1 & H2 & _ & _ & H5 & H6 & H7 & _ & H9).
  split; [exact H1 |]. split; [exact H2 |].
  split; [apply H5; [vm_compute; reflexivity | vm_compute; discriminate] |].
  split; [exact H6 |]. split; [exact H7 |].
  apply H9. vm_compute. discriminate.
Defined.

(** C3, counterexample: for a segment table of [10 * (2^32 + 1000)] bytes
    the quotient by 10 is [2^32 + 1000], and the [unsigned] field
    [max_nseg] receives 1000. *)
Lemma max_nseg_init_wide_table :
  smp_stuff_len table_length wide_table SMP_SEG1_STUFF / 10 = 4294968296 /\
  max_nseg_init table_length wide_table = 1000 /\
  exists t sc',
    smp_metrics table_length 64 wide_table [] = (t, Ret sc') /\
    max_nseg sc' = 1000.
Proof.
  split; [vm_compute; reflexivity |].
  split; [vm_compute; reflexivity |].
  exists (fst (smp_metrics_run table_length 64 wide_table [])),
         (sized_by 64 wide_table).
  split; [exact smp_metrics_wide_table | vm_compute; reflexivity].
Qed.

Lemma smp_metrics_fp_square_table :
  smp_metrics_fp table_length 64 low_doubles square_table []
  = (fst (smp_metrics_low table_length 64 square_table []),
     Ret (sized_low 64 square_table)).
Proof. rewrite smp_metrics_low_eq. vm_compute. reflexivity. Qed.

(** C4, witness: a segment table of 2500 bytes gives [max_nseg = 250],
    and [10 * 250] is the square of 50.  In an accurate arithmetic whose
    [exp] comes out low, [aim_nseg] is 49; exact operations give 50. *)
Lemma smp_metrics_aim_point_square_table :
  max_nseg (sized_low 64 square_table) = 250 /\
  aim_nseg (sized_low 64 square_table)
  = fp_exp_average low_doubles 10 250 /\
  Z.sqrt (10 * 250) - 1 <= aim_nseg (sized_low 64 square_table)
    <= Z.sqrt (10 * 250) /\
  aim_nseg (sized_low 64 square_table) = 49 /\
  fp_exp_average exact_doubles 10 250 = 50.
Proof.
  destruct (smp_metrics_aim_point table_length 64 low_doubles
              square_table [] _ _ low_doubles_accurate
              smp_metrics_fp_square_table) as (H1 & H2 & _ & _).
  split; [vm_compute; reflexivity |].
  split; [exact H1 |]. split; [exact H2 |].
  split; [vm_compute; reflexivity |].
  change (fp_exp_average exact_doubles 10 250) with (exp_average 10 250).
  rewrite exp_average_isqrt by lia. vm_compute. reflexivity.
Defined.

(** C4, counterexample: for 10 and 104857 every accurate arithmetic
    gives 1023, rounding to the nearest integer gives 1024. *)
Lemma fp_exp_average_truncates :
  (forall D, accurate_doubles D -> fp_exp_average D 10 104857 = 1023) /\
  spec_aim_nseg 10 104857 = 1024.
Proof.
  split.
  - intros D HD.
    apply (fp_exp_average_bounds D 10 104857 HD); try lia.
    vm_compute. discriminate.
  - exact spec_aim_example.
Qed.

(** C5, witness: in the scenario of the specification [aim_nseg] is 1023
    and the reserve of 1025000 bytes is below the 100 MiB of data
    space. *)
Lemma smp_metrics_reserve_scenario :
  free_reserve (sized_by 64 scenario)
  < smp_stuff_len table_length scenario SMP_SPC_STUFF.
Proof.
  apply (smp_metrics_reserve_below_capacity table_length 64 scenario [] _ _
           ltac:(lia) smp_metrics_scenario).
  vm_compute. reflexivity.
Defined.

Lemma startup_holds_examples (W : world table) (P : platform) :
  in_mgt W = true -> ALLOC_OBJ W = true ->
  sizeof_smp_object P = 72 -> sizeof_smp_ident P = 112 ->
  SMP_IDENT_SIZE P = 112 ->
  startup_holds P W 2 argv.
Proof.
  intros H1 H2 H3 H4 H5. unfold startup_holds.
  rewrite H1, H2, H3, H4, H5. repeat split.
Qed.

Lemma bring_up_file_drift :
  bring_up_file linux_like drift_world 0 2 argv []
  = (fst (bring_up_file linux_like drift_world 0 2 argv []),
     Ret (file_handle linux_like drift_world)).
Proof. vm_compute. reflexivity. Qed.

Lemma bring_up_file_reopened :
  bring_up_file linux_like reopened_world 0 2 argv []
  = (fst (bring_up_file linux_like reopened_world 0 2 argv []),
     Ret (file_handle linux_like reopened_world)).
Proof. vm_compute. reflexivity. Qed.

(** C6, witness: the silo was mapped at [2^40] by an earlier run, the
    address is free, and the kernel honours MAP_FIXED.  The mapping is
    asked for at [2^40] with [17 = MAP_SHARED | MAP_FIXED] and placed
    there; the silo validates, no warning is written, and the run
    completes with the handle at [2^40]. *)
Lemma smp_mgt_init_reopened_world :
  snd (request linux_like reopened_world
         (file_handle linux_like reopened_world)) = 2 ^ 40 /\
  fst (request linux_like reopened_world
         (file_handle linux_like reopened_world)) = 17 /\
  exists sc3,
    run (smp_mgt_init table_length 64 linux_like reopened_world 0 2 argv)
    = (fst (bring_up_file linux_like reopened_world 0 2 argv [])
         ++ [Sys_read 3 32; Sys_mmap (2 ^ 40) media 3 17 3]
         ++ [] ++ [Call_smp_def_sign]
         ++ [Call_smp_valid_silo; Call_smp_valid_silo]
         ++ sizing_events sc3 ++ [Call_MCH_Fd_Inherit (fd sc3)],
       Ret sc3) /\
    base sc3 = 2 ^ 40.
Proof.
  destruct (smp_mgt_init_preferred_address table_length 64
              linux_like reopened_world 0 2 argv _ _ bring_up_file_reopened)
    as (H1 & _ & _ & _ & _ & H).
  - vm_compute. split; discriminate.
  - vm_compute. discriminate.
  - assert (E : mmap_result linux_like reopened_world
                  (file_handle linux_like reopened_world) = Some (2 ^ 40))
      by (vm_compute; reflexivity).
    rewrite E in H. cbv zeta in H.
    destruct H as (sc3 & Hrun & Hb).
    + vm_compute. reflexivity.
    + vm_compute. discriminate.
    + vm_compute. discriminate.
    + split; [vm_compute; reflexivity |].
      split; [vm_compute; reflexivity |].
      exists sc3. split; [exact Hrun | exact Hb].
Defined.

(** C6, counterexample: the silo was mapped at [2^40] by an earlier run;
    that address is taken now, and the kernel honours MAP_FIXED and
    MAP_EXCL.  The silo itself is valid.  The mapping is asked for at
    [2^40] with flags [149521 = MAP_NOCORE | MAP_NOSYNC | MAP_SHARED |
    MAP_FIXED | MAP_EXCL], it fails, and the run ends with the fatal
    error of line 241: no mapping elsewhere, no warning. *)
Lemma smp_mgt_init_occupied_world :
  mmap_target bsd_like
    (read_sign bsd_like occupied_world (file_handle bsd_like occupied_world))
  = 2 ^ 40 /\
  fst (table_valid (handle media (MiB, 100 * MiB))) = 0 /\
  run (smp_mgt_init table_length 64 bsd_like occupied_world 0 2 argv)
  = ([Stderr (Msg_sizeof "struct smp_ident" 112);
      Stderr (Msg_sizeof "struct smp_sign" 32);
      Stderr (Msg_sizeof "struct smp_segptr" 32);
      Stderr (Msg_sizeof "struct smp_object" 72);
      Call_STV_GetFile (Some silo_path);
      Call_STV_FileSize 3 (Some "104M"%string);
      Sys_ftruncate 3 media;
      Sys_read 3 32;
      Sys_mmap (2 ^ 40) media 3 149521 3],
     Abort (Argv_err "(-spersistent) failed to mmap")).
Proof. vm_compute. repeat split. Qed.

Lemma bring_up_mapping_broken :
  bring_up_mapping linux_like broken_world 0 2 argv []
  = (fst (bring_up_mapping linux_like broken_world 0 2 argv []),
     Ret (mapped_handle linux_like broken_world)).
Proof. vm_compute. reflexivity. Qed.

(** C7, witness: a new backing file and a reinitializer that does not
    work.  The silo is checked, made anew, checked again, and the run
    stops at the assertion of line 256. *)
Lemma smp_mgt_init_broken_world :
  run (smp_mgt_init table_length 64 linux_like broken_world 0 2 argv)
  = (fst (bring_up_mapping linux_like broken_world 0 2 argv []) ++
       [Call_smp_valid_silo;
        Stdout (Msg_not_reloaded silo_path 1);
        Call_smp_newsilo;
        Call_smp_valid_silo],
     Abort (Assert_fail "AZ(smp_valid_silo(sc))")).
Proof.
  pose proof (smp_mgt_init_revalidates table_length 64
                linux_like broken_world 0 2 argv _ _ bring_up_mapping_broken
                ltac:(vm_compute; discriminate)) as H.
  cbv zeta in H. destruct H as [H _].
  apply H. vm_compute. discriminate.
Defined.

(** C8, witness: the path names a directory. *)
Lemma smp_mgt_init_directory_world :
  run (smp_mgt_init table_length 64 linux_like directory_world 0 2 argv)
  = ((aslr_events linux_like directory_world ++ sizeof_messages linux_like)
       ++ [Call_STV_GetFile (argv 0)],
     Abort (Argv_err "(-spersistent) need filename (not directory)")) /\
  forall e,
    In e (fst (run (smp_mgt_init table_length 64 linux_like
                      directory_world 0 2 argv))) ->
    touches_backing e = false.
Proof.
  apply (smp_mgt_init_configuration_error table_length 64
           linux_like directory_world 0 2 argv).
  - apply startup_holds_examples; reflexivity.
  - reflexivity.
  - vm_compute. reflexivity.
Defined.

(** C10, witness: a media size of 16 bytes, a signature block of 32. *)
Lemma smp_mgt_init_short_world :
  exists tr what,
    run (smp_mgt_init table_length 64 linux_like short_world 0 2 argv)
    = (tr, Abort (Assert_fail what)) /\
    what = "i == sizeof sgn"%string /\
    (forall addr len prot flags mfd,
       ~ In (Sys_mmap addr len prot flags mfd) tr).
Proof.
  apply (smp_mgt_init_short_media table_length 64
           linux_like short_world 0 argv).
  - apply startup_holds_examples; reflexivity.
  - vm_compute. discriminate.
  - vm_compute. reflexivity.
  - vm_compute. reflexivity.
Defined.

(* ------------------------------------------------------------------ *)
(** * Further properties at the example silos and worlds *)

Lemma smp_mgt_init_new_world :
  run (smp_mgt_init table_length 64 linux_like new_world 0 2 argv)
  = (completed_trace linux_like new_world,
     Ret (completed_handle linux_like new_world)).
Proof. unfold run. rewrite smp_mgt_init_run_eq. vm_compute. reflexivity. Qed.

Lemma smp_mgt_init_new_world_events e :
  In e [Sys_mmap 0 media 3 1 3; Call_smp_newsilo; Call_MCH_Fd_Inherit 3] ->
  In e (fst (run (smp_mgt_init table_length 64 linux_like new_world
                    0 2 argv))).
Proof.
  intros H. rewrite smp_mgt_init_new_world. cbn [fst].
  destruct H as [<- | [<- | [<- | []]]]; vm_compute; tauto.
Qed.

(** X1, witness: the scenario of the specification. *)
Lemma smp_metrics_frame_scenario :
  carried (sized_by 64 scenario) = carried scenario.
Proof.
  exact (smp_metrics_frame table_length 64 scenario [] _ _
           smp_metrics_scenario).
Defined.

(** X2, witness: with one page of data space and records of 512 bytes the
    first [max_nseg], 104857, is halved until a record fits; in the
    scenario of the specification a record fits at once and nothing is
    halved. *)
Lemma smp_metrics_first_fit_examples :
  (exists k : nat,
     (k <= 31)%nat /\
     max_nseg (sized_by 512 one_page)
     = max_nseg_init table_length one_page / 2 ^ Z.of_nat k /\
     first_fit (smp_stuff_len table_length one_page SMP_SPC_STUFF) 512
               (max_nseg_init table_length one_page) k) /\
  max_nseg (sized_by 64 scenario) = max_nseg_init table_length scenario.
Proof.
  split.
  - exact (proj1 (smp_metrics_first_fit table_length 512 one_page [] _ _
                    smp_metrics_one_page)).
  - apply (proj2 (smp_metrics_first_fit table_length 64 scenario [] _ _
                    smp_metrics_scenario)).
    vm_compute. discriminate.
Defined.

(** X3, witness: the scenario of the specification. *)
Lemma smp_metrics_segments_fit_scenario :
  max_nseg (sized_by 64 scenario) * min_segl (sized_by 64 scenario)
    <= 100 * MiB /\
  aim_nseg (sized_by 64 scenario) * aim_segl (sized_by 64 scenario)
    <= 100 * MiB /\
  min_nseg (sized_by 64 scenario) * max_segl (sized_by 64 scenario)
    <= 100 * MiB /\
  max_nseg (sized_by 64 scenario) * 64 <= 100 * MiB.
Proof.
  exact (smp_metrics_segments_fit table_length 64 scenario [] _ _
           smp_metrics_scenario).
Defined.

(** X4, witness: the scenario of the specification. *)
Lemma smp_metrics_counts_in_range_scenario :
  3 <= aim_nseg (sized_by 64 scenario) < 2 ^ 18 /\
  1 <= max_nseg (sized_by 64 scenario)
    <= max_nseg_init table_length scenario /\
  max_nseg_init table_length scenario < 2 ^ 32.
Proof.
  exact (smp_metrics_counts_in_range table_length 64 scenario [] _ _
           smp_metrics_scenario).
Defined.

Lemma smp_metrics_resized :
  smp_metrics table_length 64 (sized_by 64 (handle 0 (MiB, 100 * MiB)))
              [Call_smp_def_sign]
  = (fst (smp_metrics_run table_length 64
            (sized_by 64 (handle 0 (MiB, 100 * MiB))) [Call_smp_def_sign]),
     Ret (sized_by 64 (sized_by 64 (handle 0 (MiB, 100 * MiB))))).
Proof. rewrite smp_metrics_run_eq. vm_compute. reflexivity. Qed.

(** X6, witness: the silo of the scenario behind a handle with another
    media size and with the sizing values of an earlier run, after other
    events. *)
Lemma smp_metrics_depends_on_silo_scenario :
  sizing (sized_by 64 scenario)
  = sizing (sized_by 64 (sized_by 64 (handle 0 (MiB, 100 * MiB)))).
Proof.
  pose proof (smp_metrics_depends_on_silo table_length 64 scenario
                (sized_by 64 (handle 0 (MiB, 100 * MiB)))
                [] [Call_smp_def_sign] eq_refl) as H.
  rewrite smp_metrics_scenario, smp_metrics_resized in H.
  exact H.
Defined.

(** X7, witness: the scenario of the specification, with a first
    [max_nseg] of 104857 and room for 1638400 records. *)
Lemma smp_metrics_keeps_ten_scenario :
  exists t' sc',
    smp_metrics table_length 64 scenario [] = (t', Ret sc') /\
    min_nseg sc' = 10 /\
    min_nseg sc' <= max_nseg sc'.
Proof.
  apply (smp_metrics_keeps_ten table_length 64 scenario []).
  - vm_compute. discriminate.
  - vm_compute. discriminate.
Defined.

(** X8, witness: a new, empty backing file on a Linux-like platform
    passes every check. *)
Lemma smp_mgt_init_completes_new_world :
  bring_up_conditions table_length 64 linux_like new_world 0 2 argv.
Proof.
  apply (proj1 (smp_mgt_init_completes_iff table_length 64 linux_like
                  new_world 0 2 argv)).
  eexists _, _. exact smp_mgt_init_new_world.
Defined.

(** X9, witness: the handle of the run on a new, empty backing file. *)
Lemma smp_mgt_init_handle_new_world :
  parent (completed_handle linux_like new_world) = 0 /\
  fd (completed_handle linux_like new_world) = 3 /\
  filename (completed_handle linux_like new_world) = silo_path /\
  align (completed_handle linux_like new_world) = 16 /\
  (mediasize (completed_handle linux_like new_world),
   granularity (completed_handle linux_like new_world)) = (media, 4096) /\
  ftruncate new_world (fd (completed_handle linux_like new_world))
            (mediasize (completed_handle linux_like new_world)) = 0 /\
  mmap_result linux_like new_world
    (opened_sc linux_like new_world (fresh_sc 0) argv)
  = Some (base (completed_handle linux_like new_world)) /\
  segments (completed_handle linux_like new_world) = [] /\
  ident (completed_handle linux_like new_world)
  = Some (snd (smp_valid_silo new_world
                 (checked_sc new_world
                    (mapped_sc new_world
                       (opened_sc linux_like new_world (fresh_sc 0) argv)
                       (base (completed_handle linux_like new_world)))))) /\
  exists t0,
    completed_trace linux_like new_world
    = t0 ++ sizing_events (completed_handle linux_like new_world)
         ++ [Call_MCH_Fd_Inherit
               (fd (completed_handle linux_like new_world))].
Proof.
  exact (smp_mgt_init_handle table_length 64 linux_like new_world 0 2 argv
           _ _ smp_mgt_init_new_world).
Defined.

(** X10, witness: the [mmap] of the run on a new, empty backing file. *)
Lemma smp_mgt_init_maps_truncated_new_world :
  (exists t1 t2,
     fst (run (smp_mgt_init table_length 64 linux_like new_world 0 2 argv))
     = t1 ++ [Sys_ftruncate 3 media;
              Sys_read 3 (sizeof_smp_sign linux_like);
              Sys_mmap 0 media 3 1 3] ++ t2 /\
     forall e, In e (t1 ++ t2) -> touches_backing e = false) /\
  ftruncate new_world 3 media = 0 /\
  3 = Z.lor (PROT_READ linux_like) (PROT_WRITE linux_like) /\
  Z.land 1 (MAP_NOCORE linux_like) = MAP_NOCORE linux_like /\
  Z.land 1 (MAP_NOSYNC linux_like) = MAP_NOSYNC linux_like /\
  Z.land 1 (MAP_SHARED linux_like) = MAP_SHARED linux_like.
Proof.
  apply (smp_mgt_init_maps_truncated_file table_length 64 linux_like
           new_world 0 2 argv).
  apply smp_mgt_init_new_world_events. cbn. auto.
Defined.

(** X11, witness: a new, empty backing file holds no valid silo, and
    [smp_newsilo] is called. *)
Lemma smp_mgt_init_newsilo_new_world :
  exists t sc,
    bring_up_mapping linux_like new_world 0 2 argv [] = (t, Ret sc) /\
    fst (smp_valid_silo new_world sc) <> 0.
Proof.
  apply (proj1 (smp_mgt_init_newsilo_guard table_length 64 linux_like
                  new_world 0 2 argv)).
  apply smp_mgt_init_new_world_events. cbn. auto.
Defined.

(** X12, witness: the run on a new, empty backing file completes and
    ends with [MCH_Fd_Inherit] on descriptor 3. *)
Lemma smp_mgt_init_inherits_new_world :
  exists t sc',
    run (smp_mgt_init table_length 64 linux_like new_world 0 2 argv)
    = (t ++ [Call_MCH_Fd_Inherit 3], Ret sc') /\
    3 = fd sc' /\
    forall g, ~ In (Call_MCH_Fd_Inherit g) t.
Proof.
  apply (proj1 (smp_mgt_init_inherits_on_success table_length 64 linux_like
                  new_world 0 2 argv 3)).
  apply smp_mgt_init_new_world_events. cbn. auto.
Defined.

(** X13, witness: the silo was mapped at [2^40] by an earlier run and the
    kernel now maps it at [2^41]; the warning is written. *)
Lemma smp_mgt_init_lost_warning_drift_world :
  In (Stderr (Msg_lost_to_aslr silo_path))
     (fst (run (smp_mgt_init table_length 64 linux_like drift_world
                  0 2 argv))).
Proof.
  apply (proj2 (smp_mgt_init_lost_warning table_length 64 linux_like
                  drift_world 0 2 argv silo_path)).
  exists (fst (bring_up_file linux_like drift_world 0 2 argv [])),
         (file_handle linux_like drift_world), (2 ^ 41).
  split; [exact bring_up_file_drift |].
  split; [vm_compute; reflexivity |].
  split; [vm_compute; reflexivity |].
  split; [vm_compute; discriminate |].
  split; [vm_compute; discriminate |].
  vm_compute. reflexivity.
Defined.

(** X15, witness: a FreeBSD-like platform with pages of 4096 bytes, a
    new backing file of 104 MiB and a page, and a break at
    [2^33 + 1234]. *)
Lemma mmap_hint_below_break_odd_break_world :
  snd (request bsd_like odd_break_world
         (file_handle bsd_like odd_break_world))
    mod getpagesize bsd_like = 0 /\
  sbrk0 odd_break_world - 2 ^ 24
    - mediasize (file_handle bsd_like odd_break_world)
    - getpagesize bsd_like
  < snd (request bsd_like odd_break_world
           (file_handle bsd_like odd_break_world)) /\
  snd (request bsd_like odd_break_world
         (file_handle bsd_like odd_break_world))
    + mediasize (file_handle bsd_like odd_break_world) + 2 ^ 24
  <= sbrk0 odd_break_world.
Proof.
  apply (mmap_hint_below_break bsd_like odd_break_world
           (file_handle bsd_like odd_break_world) 12).
  - reflexivity.
  - vm_compute. reflexivity.
  - reflexivity.
  - lia.
  - vm_compute. discriminate.
  - vm_compute. discriminate.
  - vm_compute. split; [discriminate | reflexivity].
Defined.

(** X16, witness: the run on a path that names a directory ends in an
    [ARGV_ERR]; the assertions of the start hold and [STV_GetFile] has
    returned 2. *)
Lemma smp_mgt_init_aborts_directory_world :
  startup_holds linux_like directory_world 2 argv /\
  getfile_code directory_world argv = 2.
Proof.
  destruct (smp_mgt_init_aborts table_length 64 linux_like directory_world
              0 2 argv
              (Argv_err "(-spersistent) need filename (not directory)")
              ltac:(vm_compute; reflexivity))
    as [Hs [[H _] | [(_ & Hg & _) | (_ & _ & _ & H)]]].
  - contradiction.
  - split; assumption.
  - discriminate.
Defined.
